(** * NPbot: the query path, URL validation, NAV cross-validation, AUM
      extraction and text chunking, embedded from the Python sources.

    Conventions of the embedding.

    - A Python [str] is a list of Unicode code points ([N]).  String
      literals of the sources are written [lit "..."]; the rupee sign and
      the newline, which do not fit an ASCII literal, are [RUPEE] and [NL].
    - Whitespace ([str.strip], [str.split], [\s]) is Python's full Unicode
      whitespace set.  Case mapping ([str.lower], [re.I]) and the digit
      class [\d] are modelled on the ASCII range: code points above 127 are
      caseless and are not digits.
    - A Python [float] is an IEEE 754 binary64 value ([PrimFloat.float]).
    - A raised exception is the [Raise] outcome of [Result]; calls to the
      external collaborators (vector index, language-model endpoint, scheme
      files) are recorded in a trace of [Event]s.
    - Dictionaries with string keys are [gmap string _]. *)

From Stdlib Require Import ZArith NArith List String Ascii DecimalString Floats Lia Bool Sorted.
From stdpp Require Import gmap strings list.

Set Warnings "-inexact-float".


Local Open Scope N_scope.
Local Open Scope list_scope.

(* ================================================================== *)
(** * Python text                                                      *)
(* ================================================================== *)

Module Py.

Abbreviation char := N (only parsing).
Abbreviation str := (list N) (only parsing).

Fixpoint lit (s : string) : str :=
  match s with
  | EmptyString => []
  | String a s' => N_of_ascii a :: lit s'
  end.

Definition NL : char := 10.
Definition RUPEE : char := 8377.
Definition DQUOTE : char := 34.

(** [str.isspace] on one code point, which is also the class [\s]. *)
Definition is_space (c : char) : bool :=
  ((9 <=? c) && (c <=? 13)) || ((28 <=? c) && (c <=? 32)) ||
  (c =? 133) || (c =? 160) || (c =? 5760) ||
  ((8192 <=? c) && (c <=? 8202)) || (c =? 8232) || (c =? 8233) ||
  (c =? 8239) || (c =? 8287) || (c =? 12288).

Definition is_digit (c : char) : bool := (48 <=? c) && (c <=? 57).
Definition is_upper (c : char) : bool := (65 <=? c) && (c <=? 90).
Definition is_alpha (c : char) : bool :=
  is_upper c || ((97 <=? c) && (c <=? 122)).

Definition lower_char (c : char) : char := if is_upper c then c + 32 else c.

(** [s.lower()] *)
Definition lower (s : str) : str := map lower_char s.

Definition str_eqb (a b : str) : bool := bool_decide (a = b).

(** [s.startswith(p)] *)
Fixpoint startswith (s p : str) {struct p} : bool :=
  match p with
  | [] => true
  | c :: p' =>
      match s with
      | [] => false
      | d :: s' => (c =? d) && startswith s' p'
      end
  end.

(** [s.endswith(p)] *)
Definition endswith (s p : str) : bool := startswith (rev s) (rev p).

(** [p in s] *)
Fixpoint contains (p s : str) : bool :=
  startswith s p ||
  match s with
  | [] => false
  | _ :: s' => contains p s'
  end.

(** [s.strip()] *)
Fixpoint lstrip (s : str) : str :=
  match s with
  | c :: s' => if is_space c then lstrip s' else s
  | [] => []
  end.
Definition rstrip (s : str) : str := rev (lstrip (rev s)).
Definition strip (s : str) : str := rstrip (lstrip s).

(** [s.split()]: the maximal runs of non-whitespace characters. *)
Fixpoint split_ws_aux (s : str) (cur : str) : list str :=
  match s with
  | [] => match cur with [] => [] | _ => [rev cur] end
  | c :: s' =>
      if is_space c
      then match cur with [] => split_ws_aux s' [] | _ => rev cur :: split_ws_aux s' [] end
      else split_ws_aux s' (c :: cur)
  end.
Definition split_ws (s : str) : list str := split_ws_aux s [].

(** [s.split(sep)] for a one-character separator; empty pieces are kept. *)
Fixpoint split_on_aux (sep : char) (s : str) (cur : str) : list str :=
  match s with
  | [] => [rev cur]
  | c :: s' =>
      if c =? sep then rev cur :: split_on_aux sep s' []
      else split_on_aux sep s' (c :: cur)
  end.
Definition split_on (sep : char) (s : str) : list str := split_on_aux sep s [].

(** [sep.join(parts)] *)
Fixpoint join (sep : str) (parts : list str) : str :=
  match parts with
  | [] => []
  | [p] => p
  | p :: ps => p ++ sep ++ join sep ps
  end.

(** [s.replace(c, '')] for a one-character [c]. *)
Definition remove_char (c : char) (s : str) : str :=
  filter (fun x => x ≠ c) s.

(** Index normalisation and [s[start:stop]] as Python slices: a negative
    index counts from the end, and both ends are clipped to the text. *)
Definition norm_index (len i : Z) : Z :=
  if (i <? 0)%Z then Z.max 0 (i + len) else Z.min i len.
Definition slice {A} (s : list A) (start stop : Z) : list A :=
  let len := Z.of_nat (length s) in
  let a := norm_index len start in
  let b := norm_index len stop in
  take (Z.to_nat (b - a)) (drop (Z.to_nat a) s).

(** [str(n)] for a non-negative integer. *)
Definition str_of_nat (n : nat) : str :=
  lit (NilEmpty.string_of_uint (Nat.to_uint n)).

(** Truth value of a string: non-empty. *)
Definition truthy (s : str) : bool :=
  match s with [] => false | _ => true end.

End Py.
Import Py.

(* ================================================================== *)
(** * Regular expressions ([re.search], [re.findall])                  *)
(* ================================================================== *)

(** The fragment of Python's [re] syntax that the sources use, with the
    backtracking order of [re]: alternatives left to right, greedy
    repetitions longest first, lazy repetitions shortest first, and the
    leftmost start position wins.  Every pattern of the sources has at most
    one capturing group. *)
Module Re.

Inductive regex : Type :=
| Chr (c : char)                      (* a literal character *)
| Class (p : char -> bool)            (* [...], \s, \d *)
| Seq (r1 r2 : regex)                 (* r1 r2 *)
| Alt (r1 r2 : regex)                 (* r1|r2 *)
| Opt (r : regex)                     (* r? *)
| Star (greedy : bool) (r : regex)    (* r* and r*? *)
| Group (r : regex)                   (* (r), group 1 *)
| Eol.                                (* $ *)

(** r+ and r+? *)
Definition Plus (greedy : bool) (r : regex) : regex := Seq r (Star greedy r).

(** A literal word. *)
Fixpoint Word (s : str) : regex :=
  match s with
  | [] => Star true (Class (fun _ => false))
  | [c] => Chr c
  | c :: s' => Seq (Chr c) (Word s')
  end.

Definition ws : regex := Class is_space.
Definition digit : regex := Class is_digit.

(** [$] matches at the end of the text and before a final newline. *)
Definition at_end (s : str) : bool :=
  match s with
  | [] => true
  | [c] => c =? NL
  | _ => false
  end.

Definition chr_matches (ignorecase : bool) (c x : char) : bool :=
  if ignorecase then lower_char c =? lower_char x else c =? x.

(** [run ic r s g k]: match [r] at the head of [s], with [g] the text of
    group 1 so far, and hand the rest of the text to the continuation [k];
    [None] makes the matcher backtrack. *)
Fixpoint run {R} (ic : bool) (r : regex) (s : str) (g : option str)
    (k : str -> option str -> option R) {struct r} : option R :=
  match r with
  | Chr c =>
      match s with
      | x :: s' => if chr_matches ic c x then k s' g else None
      | [] => None
      end
  | Class p =>
      match s with
      | x :: s' => if p x then k s' g else None
      | [] => None
      end
  | Seq r1 r2 => run ic r1 s g (fun s1 g1 => run ic r2 s1 g1 k)
  | Alt r1 r2 =>
      match run ic r1 s g k with
      | Some m => Some m
      | None => run ic r2 s g k
      end
  | Opt r1 =>
      match run ic r1 s g k with
      | Some m => Some m
      | None => k s g
      end
  | Star greedy r1 =>
      (fix loop (n : nat) (s : str) (g : option str) {struct n} : option R :=
         match n with
         | O => k s g
         | S n' =>
             let more _ :=
               run ic r1 s g (fun s' g' =>
                 if (length s' <? length s)%nat then loop n' s' g' else None) in
             if greedy then
               match more tt with Some m => Some m | None => k s g end
             else
               match k s g with Some m => Some m | None => more tt end
         end) (length s) s g
  | Group r1 =>
      run ic r1 s g (fun s' g' =>
        k s' (Some (take (length s - length s') s)))
  | Eol => if at_end s then k s g else None
  end.

(** A match object: [group(0)], [group(1)] and the text after the match. *)
Record Match : Type := mkMatch {
  group0 : str;
  group1 : option str;
  rest : str
}.

Definition match_at (ic : bool) (r : regex) (s : str) : option Match :=
  run ic r s None (fun s' g =>
    Some (mkMatch (take (length s - length s') s) g s')).

(** [re.search(r, s)] ([ic] is the flag [re.I]). *)
Fixpoint search (ic : bool) (r : regex) (s : str) : option Match :=
  match match_at ic r s with
  | Some m => Some m
  | None =>
      match s with
      | [] => None
      | _ :: s' => search ic r s'
      end
  end.

(** [re.findall(r, s)] for a pattern with one group: the texts of group 1 of
    the successive non-overlapping matches.  (The patterns given to it in
    the sources do not match the empty text.) *)
Fixpoint findall_aux (fuel : nat) (ic : bool) (r : regex) (s : str) : list str :=
  match fuel with
  | O => []
  | S fuel' =>
      match search ic r s with
      | None => []
      | Some m =>
          match group1 m with Some g => g | None => [] end ::
          (if (length (rest m) <? length s)%nat
           then findall_aux fuel' ic r (rest m) else [])
      end
  end.
Definition findall (ic : bool) (r : regex) (s : str) : list str :=
  findall_aux (length s) ic r s.

(** [bool(re.search(r, s))] *)
Definition found (ic : bool) (r : regex) (s : str) : bool :=
  match search ic r s with Some _ => true | None => false end.

End Re.

(* ================================================================== *)
(** * Exceptions and calls to the outside                              *)
(* ================================================================== *)

(** The outcome of a call: a value, or a raised [Exception] with the text
    that [str(e)] gives. *)
Inductive Result (A : Type) : Type :=
| Ok (a : A)
| Raise (e : str).
Arguments Ok {A} a.
Arguments Raise {A} e.

(** A chat message of the language-model request: role and content. *)
Record Message : Type := mkMessage { role : str; content : str }.

(** The calls that leave the process. *)
Inductive Event : Type :=
| EvConstruct                               (* QueryAnswerer(): index and store are opened *)
| EvCount                                   (* collection.count() *)
| EvQuery (query_text : str) (n_results : nat)   (* collection.query(...) *)
| EvLoadSchemes                             (* the scheme files are read *)
| EvOracle (messages : list Message).       (* POST to the language-model endpoint *)

(** A computation that returns or raises and records its outside calls. *)
Definition M (A : Type) : Type := (list Event * Result A)%type.

Definition ret {A} (a : A) : M A := ([], Ok a).
Definition raise {A} (e : str) : M A := ([], Raise e).
Definition bind {A B} (m : M A) (f : A -> M B) : M B :=
  match m with
  | (t, Ok a) => let '(t', r) := f a in (t ++ t', r)
  | (t, Raise e) => (t, Raise e)
  end.
(** [try: m  except Exception as e: h e] *)
Definition try_except {A} (m : M A) (h : str -> M A) : M A :=
  match m with
  | (t, Ok a) => (t, Ok a)
  | (t, Raise e) => let '(t', r) := h e in (t ++ t', r)
  end.
(** An outside call with the given outcome. *)
Definition call {A} (ev : Event) (outcome : Result A) : M A := ([ev], outcome).

Notation "'do' x <- m ; k" := (bind m (fun x => k))
  (at level 10, x name, m at level 100, k at level 200).
Notation "'do' ' p <- m ; k" := (bind m (fun x => match x with p => k end))
  (at level 10, p pattern, m at level 100, k at level 200).

(* ================================================================== *)
(** * Floats: [float(text)], [max], division                           *)
(* ================================================================== *)

Module PyFloat.

(** The value of a run of decimal digits, [None] on any other character. *)
Fixpoint digits_value (acc : N) (s : str) : option N :=
  match s with
  | [] => Some acc
  | c :: s' => if is_digit c then digits_value (10 * acc + (c - 48)) s' else None
  end.

(** The decimal [m / 10^k], rounded to the nearest binary64 (ties to even). *)
Definition of_decimal (m : N) (k : nat) : float :=
  match m with
  | N0 => 0%float
  | Npos p =>
      SF2Prim (SFdiv prec emax (S754_finite false p 0)
                 (S754_finite false (Z.to_pos (10 ^ Z.of_nat k)) 0))
  end.

(** [float(s)] for the texts the extractors give it: runs of digits with at
    most one decimal point (the groups [[\d,]+\.?\d*] once the commas are
    removed).  [None] is [ValueError]: no digit at all, or a character that
    is neither a digit nor the one point. *)
Definition float_of_str (s : str) : option float :=
  match split_on 46 s with
  | [int_part] =>
      match int_part with
      | [] => None
      | _ => option_map (fun m => of_decimal m 0) (digits_value 0 int_part)
      end
  | [int_part; frac_part] =>
      match int_part ++ frac_part with
      | [] => None
      | ds => option_map (fun m => of_decimal m (length frac_part)) (digits_value 0 ds)
      end
  | _ => None
  end.

(** [max(a, b)]: the second argument only when it is greater. *)
Definition max (a b : float) : float := if (a <? b)%float then b else a.

(** [a / b]: [ZeroDivisionError] on a zero divisor. *)
Definition div (a b : float) : Result float :=
  if (b =? 0)%float then Raise (lit "float division by zero") else Ok (a / b)%float.

End PyFloat.

(* ================================================================== *)
(** * config.py                                                        *)
(* ================================================================== *)

Module config.

Definition ALLOWED_DOMAINS : list str :=
  [ lit "mf.nipponindiaim.com";
    lit "nipponindiaim.com";
    lit "amfiindia.com";
    lit "sebi.gov.in" ].

Definition CHUNK_SIZE : Z := 1000.
Definition CHUNK_OVERLAP : Z := 200.
Definition VALIDATION_ENABLED : bool := true.

End config.

(* ================================================================== *)
(** * scraper/url_validator.py                                         *)
(* ================================================================== *)

Section UrlValidator.

(** [urlparse(url).netloc] of the standard library: the network-location
    part of the URL, or an exception on a URL it rejects. *)
Variable urlparse_netloc : str -> Result str.

Definition domain_allowed (domain allowed_domain : str) : bool :=
  str_eqb domain allowed_domain || endswith domain (lit "." ++ allowed_domain).

(** [validate_url] for a given allow-list. *)
Definition validate_url_with (allowed : list str) (url : str) : bool :=
  match urlparse_netloc url with
  | Ok netloc =>
      let domain := lower netloc in
      existsb (domain_allowed domain) allowed
  | Raise _ => false
  end.

Definition validate_url (url : str) : bool :=
  validate_url_with config.ALLOWED_DOMAINS url.

End UrlValidator.

(** A stand-in for [urlparse(url).netloc] on URLs of the plain shape
    [scheme://netloc/path]: the text between the first [://] and the next
    [/], [?] or [#].  The theorems below hold for every [urlparse_netloc];
    this one serves the worked examples. *)
Fixpoint after_scheme (s : str) : option str :=
  if startswith s (lit "://") then Some (drop 3 s)
  else match s with
       | [] => None
       | _ :: s' => after_scheme s'
       end.
Fixpoint until_delim (s : str) : str :=
  match s with
  | [] => []
  | c :: s' => if (c =? 47) || (c =? 63) || (c =? 35) then [] else c :: until_delim s'
  end.
Definition plain_netloc (url : str) : Result str :=
  match after_scheme url with
  | Some s => Ok (until_delim s)
  | None => Ok []
  end.

(* ================================================================== *)
(** * storage/models.py                                                *)
(* ================================================================== *)

Module models.

(** The fields of [SchemeMetadata] and [SchemeData] that the query path
    reads.  [source_url] holds [str(metadata.source_url)]. *)
Record SchemeMetadata : Type := mkSchemeMetadata {
  scheme_code : str;
  scheme_name : str;
  scheme_type : str;
  source_url : str
}.

Record SchemeData : Type := mkSchemeData {
  metadata : SchemeMetadata;
  current_nav : option float;
  field_sources : option (gmap string str)
}.

Record TextChunk : Type := mkTextChunk {
  chunk_id : str;
  chunk_scheme_code : str;
  chunk_type : str;
  content : str;
  chunk_metadata : gmap string str;
  chunk_source_url : str;
  created_at : Z
}.

End models.

(* ================================================================== *)
(** * storage/data_store.py: [create_text_chunks]                      *)
(* ================================================================== *)

Module DataStore.

Section CreateTextChunks.

(** [hashlib.md5(text.encode()).hexdigest()] *)
Variable md5_hexdigest : str -> str.
(** [datetime.now()] at the n-th pass through the loop. *)
Variable now : nat -> Z.
(** [config.CHUNK_SIZE] and [config.CHUNK_OVERLAP] as the call reads them. *)
Variables chunk_size overlap : Z.

Variables scheme_code content chunk_type source_url : str.
Variable metadata : option (gmap string str).

(** The text hashed into the id: [f"{scheme_code}_{chunk_type}_{chunk_index}"]. *)
Definition chunk_key (chunk_index : nat) : str :=
  scheme_code ++ lit "_" ++ chunk_type ++ lit "_" ++ str_of_nat chunk_index.

(** The chunk built in one pass of the loop. *)
Definition make_chunk (start : Z) (chunk_index : nat) : models.TextChunk :=
  let end_ := (start + chunk_size)%Z in
  let chunk_content := slice content start end_ in
  let chunk_id := md5_hexdigest (chunk_key chunk_index) in
  {| models.chunk_id := chunk_id;
     models.chunk_scheme_code := scheme_code;
     models.chunk_type := chunk_type;
     models.content := chunk_content;
     models.chunk_metadata := default ∅ metadata;
     models.chunk_source_url := source_url;
     models.created_at := now chunk_index |}.

(** [start = end - overlap], with [end = start + chunk_size]. *)
Definition next_start (start : Z) : Z := (start + chunk_size - overlap)%Z.

(** [while start < len(content): ...]; [None] when the passes allowed by
    [fuel] are used up before the loop condition fails. *)
Fixpoint chunk_loop (fuel : nat) (start : Z) (chunk_index : nat)
    : option (list models.TextChunk) :=
  match fuel with
  | O => None
  | S fuel' =>
      if (start <? Z.of_nat (length content))%Z then
        option_map (cons (make_chunk start chunk_index))
          (chunk_loop fuel' (next_start start) (S chunk_index))
      else Some []
  end.

Definition create_text_chunks_fuel (fuel : nat) : option (list models.TextChunk) :=
  chunk_loop fuel 0%Z 0%nat.

End CreateTextChunks.

(** [DataStore.create_text_chunks] with the configured sizes; one pass more
    than the text has characters is allowed. *)
Definition create_text_chunks (md5_hexdigest : str -> str) (now : nat -> Z)
    (scheme_code content chunk_type source_url : str)
    (metadata : option (gmap string str)) : option (list models.TextChunk) :=
  create_text_chunks_fuel md5_hexdigest now config.CHUNK_SIZE config.CHUNK_OVERLAP
    scheme_code content chunk_type source_url metadata (S (length content)).

End DataStore.

(* ================================================================== *)
(** * scraper/validator.py: [_validate_nav]                            *)
(* ================================================================== *)

Module DataValidator.

Import Re.

(** The class [[\d,]] and the captured number: one or more of [[\d,]], an
    optional point, then digits. *)
Definition digit_or_comma : regex := Class (fun c => is_digit c || (c =? 44)).
Definition number_group : regex :=
  Group (Seq (Plus true digit_or_comma) (Seq (Opt (Chr 46)) (Star true digit))).
(** [[:\s]*₹?\s*] *)
Definition label_gap : regex :=
  Seq (Star true (Class (fun c => (c =? 58) || is_space c)))
      (Seq (Opt (Chr RUPEE)) (Star true ws)).

(** [nav_patterns] *)
Definition nav_patterns : list regex :=
  [ Seq (Word (lit "NAV")) (Seq label_gap number_group);
    Seq (Word (lit "Net Asset Value")) (Seq label_gap number_group) ].

(** [found_navs]: every number that follows the NAV vocabulary on the page. *)
Definition found_navs (page_text : str) : list float :=
  flat_map (fun pattern =>
    flat_map (fun m =>
      match PyFloat.float_of_str (remove_char 44 m) with
      | Some nav_value => [nav_value]
      | None => []
      end) (findall true pattern page_text)) nav_patterns.

(** The result dictionary of one check. *)
Record NavCheck : Type := mkNavCheck {
  valid : bool;
  stored : float;
  found_on_page : option float;
  reason : option str
}.

(** [abs(stored_nav - found_nav) / max(stored_nav, found_nav) < 0.01] *)
Definition within_tolerance (stored_nav found_nav : float) : Result bool :=
  match PyFloat.div (abs (stored_nav - found_nav)) (PyFloat.max stored_nav found_nav) with
  | Ok q => Ok (q <? 0.01)%float
  | Raise e => Raise e
  end.

(** The loop over [found_navs]: the first value within tolerance. *)
Fixpoint first_close (stored_nav : float) (navs : list float) : Result (option float) :=
  match navs with
  | [] => Ok None
  | found_nav :: navs' =>
      match within_tolerance stored_nav found_nav with
      | Raise e => Raise e
      | Ok true => Ok (Some found_nav)
      | Ok false => first_close stored_nav navs'
      end
  end.

(** [_validate_nav] on the collected values. *)
Definition check_nav (stored_nav : float) (navs : list float) : Result NavCheck :=
  match navs with
  | [] => Ok (mkNavCheck false stored_nav None (Some (lit "No NAV found on page")))
  | first :: _ =>
      match first_close stored_nav navs with
      | Raise e => Raise e
      | Ok (Some found_nav) => Ok (mkNavCheck true stored_nav (Some found_nav) None)
      | Ok None => Ok (mkNavCheck false stored_nav (Some first) (Some (lit "NAV mismatch")))
      end
  end.

(** [DataValidator._validate_nav(stored_nav, soup)], with [page_text] the
    text of the fetched page ([soup.get_text()]). *)
Definition _validate_nav (stored_nav : float) (page_text : str) : Result NavCheck :=
  check_nav stored_nav (found_navs page_text).

End DataValidator.

(* ================================================================== *)
(** * scraper/nippon_scraper.py: [_extract_aum]                        *)
(* ================================================================== *)

Module NipponScraper.

Import Re.
Import DataValidator.

(** What [_extract_aum] reads of the parsed page: the flattened text
    ([soup.get_text()]) and, per table and per row, the stripped texts of
    the row's cells ([cell.get_text(strip=True)]). *)
Record Soup : Type := mkSoup {
  get_text : str;
  tables : list (list (list str))
}.








End NipponScraper.

(* ================================================================== *)
(** * The collaborators of the query path                              *)
(* ================================================================== *)

(** What [collection.query] of the vector index returns: per query text,
    the documents, their metadata and, when the key is present, their
    distances. *)
Record QueryResult : Type := mkQueryResult {
  documents : list (list str);
  metadatas : list (list (gmap string str));
  distances : option (list (list float))
}.

(** One run's outcomes of the calls the query path makes outside the
    repository's own code.  Every one of them may raise. *)
Record Env : Type := mkEnv {
  (** [urllib.parse.urlparse(url).netloc] *)
  urlparse_netloc : str -> Result str;
  (** [RAGSystem()] and [DataLoader()]: credential check, index opened *)
  construct : Result unit;
  (** [collection.count()] *)
  collection_count : Result nat;
  (** [collection.query(query_texts=[q], n_results=n)] *)
  collection_query : str -> nat -> Result QueryResult;
  (** the POST to the chat endpoint, up to
      [result['choices'][0]['message']['content']] *)
  post_chat : list Message -> Result str;
  (** the schemes [DataLoader.load_all_schemes] reads from the store *)
  stored_schemes : Result (list models.SchemeData)
}.

(** [l[i]] *)
Definition index {A} (l : list A) (i : nat) : M A :=
  match l !! i with
  | Some x => ret x
  | None => raise (lit "list index out of range")
  end.

Fixpoint mapM {A B} (f : A -> M B) (l : list A) : M (list B) :=
  match l with
  | [] => ret []
  | x :: l' => do y <- f x; do ys <- mapM f l'; ret (y :: ys)
  end.

(** [d.get(key, '')] *)
Definition get_or_empty (d : gmap string str) (key : string) : str :=
  default [] (d !! key).

(* ================================================================== *)
(** * backend/data_loader.py                                           *)
(* ================================================================== *)

Module DataLoader.

Definition load_all_schemes (self : Env) : M (list models.SchemeData) :=
  call EvLoadSchemes (stored_schemes self).

(** The set of the words of a name: [set(name.split())]. *)
Definition word_set (s : str) : gset (list N) := list_to_set (split_ws s).

(** [DataLoader.get_scheme_by_name]: an exact match of the lower-cased
    names, then a substring match, then a match on words. *)
Definition get_scheme_by_name (self : Env) (scheme_name : str)
    : M (option models.SchemeData) :=
  do all_schemes <- load_all_schemes self;
  let scheme_name_lower := lower scheme_name in
  match List.find (fun scheme =>
          str_eqb (lower (models.scheme_name (models.metadata scheme))) scheme_name_lower)
        all_schemes with
  | Some scheme => ret (Some scheme)
  | None =>
  match List.find (fun scheme =>
          contains scheme_name_lower (lower (models.scheme_name (models.metadata scheme))))
        all_schemes with
  | Some scheme => ret (Some scheme)
  | None =>
      let query_words := word_set scheme_name_lower in
      ret (List.find (fun scheme =>
          let scheme_words := word_set (lower (models.scheme_name (models.metadata scheme))) in
          bool_decide (query_words ⊆ scheme_words) ||
          (2 <=? size (query_words ∩ scheme_words))%nat)
        all_schemes)
  end
  end.

End DataLoader.

(* ================================================================== *)
(** * backend/rag_system.py                                            *)
(* ================================================================== *)

Module RAGSystem.

(** One formatted search result. *)
Record SearchResult : Type := mkSearchResult {
  document : str;
  metadata : gmap string str;
  distance : option float
}.

(** The formatting loop of [search]. *)
Definition format_results (results : QueryResult) : M (list SearchResult) :=
  match documents results with
  | [] => ret []
  | documents0 :: _ =>
      if (0 <? length documents0)%nat then
        mapM (fun i =>
          do doc <- index documents0 i;
          do metadatas0 <- index (metadatas results) 0;
          do meta <- index metadatas0 i;
          do dist <- match distances results with
                     | Some ds => do ds0 <- index ds 0;
                                  do d <- index ds0 i; ret (Some d)
                     | None => ret None
                     end;
          ret (mkSearchResult doc meta dist))
          (seq 0 (length documents0))
      else ret []
  end.

(** [RAGSystem.search(query, n_results)] *)
Definition search (self : Env) (query : str) (n_results : nat) : M (list SearchResult) :=
  do counted <- try_except
      (do count <- call EvCount (collection_count self); ret (Some count))
      (fun _ => ret None);
  match counted with
  | None => ret []
  | Some O => ret []
  | Some count =>
      let query_count := Nat.min n_results count in
      do queried <- try_except
          (do results <- call (EvQuery query query_count)
                            (collection_query self query query_count);
           ret (Some results))
          (fun _ => ret None);
      match queried with
      | None => ret []
      | Some results => format_results results
      end
  end.

(** [RAGSystem._call_openrouter(messages)] *)
Definition _call_openrouter (self : Env) (messages : list Message) : M str :=
  do text <- call (EvOracle messages) (post_chat self messages);
  ret (strip text).

Definition system_prompt : str :=
  lit "You are a factual assistant for Nippon India Mutual Fund information." ++ [NL] ++
  lit "Your role is to provide short, factual answers based ONLY on the provided context." ++ [NL] ++
  lit "Rules:" ++ [NL] ++
  lit "1. Answer ONLY using information from the provided context" ++ [NL] ++
  lit "2. Include the source URL in your answer" ++ [NL] ++
  lit "3. If information is not in the context, say " ++ [DQUOTE] ++
  lit "I don't have that information in my database" ++ [DQUOTE] ++ [NL] ++
  lit "4. Keep answers brief and factual (max 2-3 sentences)" ++ [NL] ++
  lit "5. Do NOT provide investment advice" ++ [NL] ++
  lit "6. Do NOT use fake or demo data" ++ [NL] ++
  lit "7. Always include the source URL at the end: " ++ [DQUOTE] ++
  lit "Source: [URL]" ++ [DQUOTE] ++ [NL].

Definition user_prompt (context query : str) : str :=
  lit "Context from official Nippon India Mutual Fund website:" ++ [NL] ++
  context ++ [NL; NL] ++
  lit "Question: " ++ query ++ [NL; NL] ++
  lit "Provide a short factual answer based on the context above. Include the source URL.".

(** [f"\n\nSource: {source_url}"] *)
Definition source_line (source_url : str) : str :=
  [NL; NL] ++ lit "Source: " ++ source_url.

(** [RAGSystem.generate_answer(query, context_documents, source_url)] *)
Definition generate_answer (self : Env) (query : str)
    (context_documents : list SearchResult) (source_url : str) : M str :=
  let context_parts := map document (take 3 context_documents) in
  let context := join [NL; NL] context_parts in
  let messages :=
    [ mkMessage (lit "system") system_prompt;
      mkMessage (lit "user") (user_prompt context query) ] in
  do answer <- _call_openrouter self messages;
  if negb (contains (lit "source:") (lower answer)) &&
     negb (contains (lit "source url") (lower answer))
  then ret (answer ++ source_line source_url)
  else ret answer.

End RAGSystem.

(* ================================================================== *)
(** * backend/query_answerer.py                                        *)
(* ================================================================== *)

Module QueryAnswerer.

Import Re.
Import RAGSystem.

(** The dictionary every return statement of the query path builds. *)
Definition QueryAnswer (answer source_url scheme_code confidence : str)
    : gmap string str :=
  {[ "answer" := answer;
     "source_url" := source_url;
     "scheme_code" := scheme_code;
     "confidence" := confidence ]}.

(** The fixed replies of the early returns. *)
Definition guidance_answer : gmap string str :=
  QueryAnswer
    (lit "Please provide a valid query about Nippon India Mutual Fund schemes.")
    [] [] (lit "low").
Definition no_information_answer : gmap string str :=
  QueryAnswer
    (lit "I don't have information about that in my database. Please ensure the data has been scraped from the official Nippon India Mutual Fund website.")
    [] [] (lit "low").
Definition invalid_source_answer : gmap string str :=
  QueryAnswer
    (lit "I cannot provide an answer as the source URL is invalid. This may indicate data integrity issues.")
    [] [] (lit "low").
Definition integrity_warning : str :=
  lit "I cannot provide an answer as the data may not be from official sources. Please verify the data has been scraped from the official Nippon India Mutual Fund website.".
Definition integrity_warning_answer (scheme_code : str) : gmap string str :=
  QueryAnswer integrity_warning [] scheme_code (lit "low").

(** [Nippon\s+India\s+([A-Za-z\s]+?)(?:\s+Fund|\?|$)] *)
Definition scheme_name_pattern : regex :=
  Seq (Word (lit "Nippon")) (Seq (Plus true ws) (Seq (Word (lit "India"))
    (Seq (Plus true ws)
      (Seq (Group (Plus false (Class (fun c => is_alpha c || is_space c))))
           (Alt (Seq (Plus true ws) (Word (lit "Fund")))
                (Alt (Chr 63) Eol)))))).

Definition scheme_keywords : list str := [lit "fund"; lit "scheme"; lit "plan"].

(** The loop over the words of the query: the first keyword, not in first
    place, whose window of up to four words mentions the brand. *)
Fixpoint scan_words (words : list str) (i : nat) (rest_words : list str)
    : option str :=
  match rest_words with
  | [] => None
  | word :: rest_words' =>
      let next := scan_words words (S i) rest_words' in
      if existsb (str_eqb (lower word)) scheme_keywords && (0 <? i)%nat then
        let potential_name :=
          join (lit " ") (slice words (Z.max 0 (Z.of_nat i - 3)) (Z.of_nat i + 1)) in
        if contains (lit "nippon") (lower potential_name)
        then Some potential_name
        else next
      else next
  end.

(** [QueryAnswerer._extract_scheme_name(query)] *)
Definition _extract_scheme_name (query : str) : option str :=
  match Re.search true scheme_name_pattern query with
  | Some m =>
      Some (lit "Nippon India " ++ strip (default [] (group1 m)) ++ lit " Fund")
  | None =>
      let words := split_ws query in
      scan_words words 0 words
  end.

(** [Latest NAV: ₹?([\d,]+\.?\d* )], [NAV Date: ([\d/-]+)] and
    [Scheme Name: ([^\n]+)] *)
Definition latest_nav_pattern : regex :=
  Seq (Word (lit "Latest NAV: "))
      (Seq (Opt (Chr RUPEE)) DataValidator.number_group).
Definition nav_date_pattern : regex :=
  Seq (Word (lit "NAV Date: "))
      (Group (Plus true (Class (fun c => is_digit c || (c =? 47) || (c =? 45))))).
Definition scheme_name_line_pattern : regex :=
  Seq (Word (lit "Scheme Name: "))
      (Group (Plus true (Class (fun c => negb (c =? NL))))).

(** The first of the first two sentences that mentions a word of the query. *)
Fixpoint first_relevant_sentence (sentences : list str) (keywords : list str)
    : option str :=
  match sentences with
  | [] => None
  | sentence :: sentences' =>
      if existsb (fun keyword => contains keyword (lower sentence)) keywords
      then Some (strip sentence ++ lit ".")
      else first_relevant_sentence sentences' keywords
  end.

(** [QueryAnswerer._construct_fallback_answer(query, search_results, source_url)] *)
Definition _construct_fallback_answer (query : str)
    (search_results : list SearchResult) (source_url : str) : M str :=
  do top <- index search_results 0;
  let top_doc := document top in
  let nav_parts :=
    if contains (lit "nav") (lower query) ||
       contains (lit "net asset value") (lower query)
    then
      match Re.search true latest_nav_pattern top_doc with
      | Some nav_match =>
          let nav_value := default [] (group1 nav_match) in
          let nav_date :=
            match Re.search true nav_date_pattern top_doc with
            | Some date_match => default [] (group1 date_match)
            | None => lit "latest available date"
            end in
          [lit "The latest NAV is " ++ [RUPEE] ++ nav_value ++
           lit " as of " ++ nav_date ++ lit "."]
      | None => []
      end
    else [] in
  let name_parts :=
    if contains (lit "name") (lower query) ||
       contains (lit "what is") (lower query)
    then
      match Re.search false scheme_name_line_pattern top_doc with
      | Some name_match =>
          [lit "The scheme name is " ++ strip (default [] (group1 name_match)) ++ lit "."]
      | None => []
      end
    else [] in
  let answer_parts := nav_parts ++ name_parts in
  let answer_parts :=
    match answer_parts with
    | [] =>
        let sentences := split_on 46 top_doc in
        match first_relevant_sentence (take 2 sentences) (split_ws (lower query)) with
        | Some s => [s]
        | None => []
        end
    | _ => answer_parts
    end in
  let answer_parts :=
    match answer_parts with
    | [] => [lit "Based on the available data from the official website:"]
    | _ => answer_parts
    end in
  ret (join (lit " ") answer_parts ++ source_line source_url).

Definition fake_indicators : list str :=
  [ lit "demo"; lit "example"; lit "sample"; lit "test data";
    lit "placeholder"; lit "xxx"; lit "000.00"; lit "not available";
    lit "n/a"; lit "tbd" ].

(** The loop of [_contains_fake_data] over the indicators. *)
Fixpoint scan_indicators (indicators : list str) (answer_lower : str) : bool :=
  match indicators with
  | [] => false
  | indicator :: indicators' =>
      if contains indicator answer_lower then
        if str_eqb indicator (lit "not available") || str_eqb indicator (lit "n/a")
        then
          if contains (lit "demo") answer_lower || contains (lit "example") answer_lower
          then true
          else scan_indicators indicators' answer_lower
        else true
      else scan_indicators indicators' answer_lower
  end.

(** [QueryAnswerer._contains_fake_data(answer)] *)
Definition _contains_fake_data (answer : str) : bool :=
  scan_indicators fake_indicators (lower answer).

(** [https?://[^\s]+] *)
Definition url_pattern : regex :=
  Seq (Word (lit "http")) (Seq (Opt (Chr 115)) (Seq (Word (lit "://"))
    (Plus true (Class (fun c => negb (is_space c)))))).

(** [QueryAnswerer._has_source_url(answer)] *)
Definition _has_source_url (answer : str) : bool := found false url_pattern answer.

(** [QueryAnswerer._determine_confidence(search_results, answer)] *)
Definition _determine_confidence (search_results : list SearchResult)
    (answer : str) : str :=
  match search_results with
  | [] => lit "low"
  | top_result :: _ =>
      let distance := distance top_result in
      if match distance with
         | Some d => (d <? 0.3)%float &&
                     (_has_source_url answer && negb (_contains_fake_data answer))
         | None => false
         end
      then lit "high"
      else if (2 <=? length search_results)%nat then lit "medium"
      else if match distance with
              | Some d => (0.7 <? d)%float
              | None => false
              end
      then lit "low"
      else lit "medium"
  end.

Section AnswerQuery.

Variable self : Env.

Definition valid_source (url : str) : bool :=
  truthy url && validate_url (urlparse_netloc self) url.

(** Lines 51 to 62: the source of the top result, or else of the first
    result that has a valid one. *)
Definition select_source_url (top_result : SearchResult)
    (search_results : list SearchResult) : str :=
  let source_url := get_or_empty (metadata top_result) "source_url" in
  if negb (valid_source source_url) then
    match List.find valid_source
            (map (fun result => get_or_empty (metadata result) "source_url")
                 search_results) with
    | Some candidate_url => candidate_url
    | None => source_url
    end
  else source_url.

(** The loop over [['nav', 'scheme_page', 'category']]. *)
Fixpoint pick_field_source (fields : list string) (sources : gmap string str)
    (source_url : str) : str :=
  match fields with
  | [] => source_url
  | field :: fields' =>
      match sources !! field with
      | Some candidate_url =>
          if validate_url (urlparse_netloc self) candidate_url
          then candidate_url
          else pick_field_source fields' sources source_url
      | None => pick_field_source fields' sources source_url
      end
  end.

(** Lines 72 to 91: the scheme code and the source after a scheme named in
    the query has been looked up. *)
Definition resolve_scheme (query : str) (top_result : SearchResult)
    (source_url : str) : M (str * str) :=
  let scheme_code := get_or_empty (metadata top_result) "scheme_code" in
  match _extract_scheme_name query with
  | Some scheme_name =>
      if truthy scheme_name then
        do found_scheme <- DataLoader.get_scheme_by_name self scheme_name;
        match found_scheme with
        | Some scheme =>
            let scheme_code := models.scheme_code (models.metadata scheme) in
            match models.field_sources scheme with
            | Some sources =>
                if bool_decide (sources = ∅)
                then ret (scheme_code, models.source_url (models.metadata scheme))
                else ret (scheme_code,
                          pick_field_source ["nav"; "scheme_page"; "category"]
                            sources source_url)
            | None => ret (scheme_code, models.source_url (models.metadata scheme))
            end
        | None => ret (scheme_code, source_url)
        end
      else ret (scheme_code, source_url)
  | None => ret (scheme_code, source_url)
  end.

(** Lines 93 to 103: the answer of the language model, or the fallback
    built from the search results when the call raises. *)
Definition candidate_answer (query : str) (search_results : list SearchResult)
    (source_url : str) : M str :=
  try_except
    (generate_answer self query search_results source_url)
    (fun e => _construct_fallback_answer query search_results source_url).

(** Lines 105 to 126: the guard, the source line and the confidence. *)
Definition finish (search_results : list SearchResult)
    (scheme_code source_url answer : str) : gmap string str :=
  if _contains_fake_data answer then integrity_warning_answer scheme_code
  else
    let answer :=
      if negb (_has_source_url answer)
      then answer ++ source_line source_url
      else answer in
    let confidence := _determine_confidence search_results answer in
    QueryAnswer answer source_url scheme_code confidence.

(** [QueryAnswerer.answer_query(query)] *)
Definition answer_query (query : str) : M (gmap string str) :=
  if negb (truthy query) || (length (strip query) <? 3)%nat
  then ret guidance_answer
  else
    let query := strip query in
    do search_results <- RAGSystem.search self query 5;
    match search_results with
    | [] => ret no_information_answer
    | top_result :: _ =>
        let source_url := select_source_url top_result search_results in
        if negb (valid_source source_url)
        then ret invalid_source_answer
        else
          do '(scheme_code, source_url) <- resolve_scheme query top_result source_url;
          do answer <- candidate_answer query search_results source_url;
          ret (finish search_results scheme_code source_url answer)
    end.

(** The same function read in two stages: lines 29 to 91 either return
    one of the fixed replies or leave the search results, the scheme code
    and the source for the answer stage. *)
Inductive Prepared : Type :=
| Early (reply : gmap string str)
| Ready (search_results : list SearchResult) (scheme_code source_url : str).

Definition prepare (query : str) : M Prepared :=
  if negb (truthy query) || (length (strip query) <? 3)%nat
  then ret (Early guidance_answer)
  else
    let query := strip query in
    do search_results <- RAGSystem.search self query 5;
    match search_results with
    | [] => ret (Early no_information_answer)
    | top_result :: _ =>
        let source_url := select_source_url top_result search_results in
        if negb (valid_source source_url)
        then ret (Early invalid_source_answer)
        else
          do '(scheme_code, source_url) <- resolve_scheme query top_result source_url;
          ret (Ready search_results scheme_code source_url)
    end.

Definition answer_stage (query : str) (p : Prepared) : M (gmap string str) :=
  match p with
  | Early reply => ret reply
  | Ready search_results scheme_code source_url =>
      do answer <- candidate_answer (strip query) search_results source_url;
      ret (finish search_results scheme_code source_url answer)
  end.

End AnswerQuery.

End QueryAnswerer.

(* ================================================================== *)
(** * backend/query_backend.py                                         *)
(* ================================================================== *)

Module query_backend.

(** The reply of the [except Exception as e] branch. *)
Definition error_answer (e : str) : gmap string str :=
  QueryAnswerer.QueryAnswer (lit "Error processing query: " ++ e) [] [] (lit "low").

(** [query_backend.answer_query(query)]: it always returns a dictionary. *)
Definition answer_query (env : Env) (query : str) : list Event * gmap string str :=
  match
    (do _ <- call EvConstruct (construct env);
     QueryAnswerer.answer_query env query)
  with
  | (t, Ok result) => (t, result)
  | (t, Raise e) => (t, error_answer e)
  end.

End query_backend.

(* ================================================================== *)
(** * The vocabulary of the statements                                 *)
(* ================================================================== *)

(** The reading of the contract of [validate]: the host is an allow-listed
    domain, or ends with a point followed by one. *)
Definition host_allowed (host : list N) (allowed : list (list N)) : Prop :=
  exists d, In d allowed /\ (host = d \/ exists sub, host = sub ++ lit "." ++ d).

(** The host component of a network location [userinfo@host:port]: what
    follows the last [@], up to the first [:] (a registered name or an IPv4
    address; bracketed IPv6 literals are not covered). *)
Definition host_of_netloc (netloc : list N) : list N :=
  hd [] (split_on 58 (List.last (split_on 64 netloc) [])).

(** The comparison of the NAV check, as the contract words it:
    [|stored - live| / max(stored, live) < 0.01]. *)
Definition within_one_percent (stored live : float) : bool :=
  (abs (stored - live) / PyFloat.max stored live <? 0.01)%float.

(** The three tests [_determine_confidence] makes on its arguments. *)
Definition near (r : RAGSystem.SearchResult) : bool :=
  match RAGSystem.distance r with Some d => (d <? 0.3)%float | None => false end.
Definition far (r : RAGSystem.SearchResult) : bool :=
  match RAGSystem.distance r with Some d => (0.7 <? d)%float | None => false end.
Definition cited_and_clean (answer : list N) : bool :=
  QueryAnswerer._has_source_url answer && negb (QueryAnswerer._contains_fake_data answer).

(** The number of non-whitespace characters of a query. *)
Definition non_whitespace_count (query : list N) : nat :=
  length (List.filter (fun c => negb (is_space c)) query).

(** The two indicators that are only flagged next to "demo" or "example". *)
Definition contextual (indicator : list N) : bool :=
  str_eqb indicator (lit "not available") || str_eqb indicator (lit "n/a").

(** A scheme that has no per-field sources: [field_sources] is [None] or
    empty, the [else] branch of the scheme lookup. *)
Definition unsourced (scheme : models.SchemeData) : Prop :=
  models.field_sources scheme = None \/ models.field_sources scheme = Some ∅.

(** A well-formed reply: exactly the four keys, and a confidence that is
    one of the three levels. *)
Definition well_formed (reply : gmap string (list N)) : Prop :=
  dom reply = ({[ "answer"; "source_url"; "scheme_code"; "confidence" ]} : gset string) /\
  exists confidence,
    reply !! "confidence" = Some confidence /\
    (confidence = lit "low" \/ confidence = lit "medium" \/ confidence = lit "high").

(** A worked environment: one stored scheme, found by every query. *)
Module Example.

Definition official_page : list N :=
  lit "https://mf.nipponindiaim.com/FundsAndPerformance/Pages/NipponIndia-Small-Cap-Fund.aspx".

(** A stored scheme as [format_scheme_for_embedding] writes it. *)
Definition scheme_document : list N :=
  lit "Scheme Name: Nippon India Small Cap Fund" ++ [NL] ++
  lit "Scheme Code: NIMF_SMALL_CAP" ++ [NL] ++
  lit "Scheme Type: Equity" ++ [NL] ++
  lit "Latest NAV: " ++ [RUPEE] ++ lit "152.34" ++ [NL] ++
  lit "NAV Date: 01-02-2024" ++ [NL] ++
  lit "Source URL: " ++ official_page.

Definition scheme_metadata : gmap string (list N) :=
  {[ "scheme_code" := lit "NIMF_SMALL_CAP";
     "scheme_name" := lit "Nippon India Small Cap Fund";
     "scheme_type" := lit "Equity";
     "category" := lit "";
     "source_url" := official_page;
     "type" := lit "scheme" ]}.

(** A result as [search] formats it, at a given distance. *)
Definition result_at (d : float) : RAGSystem.SearchResult :=
  RAGSystem.mkSearchResult scheme_document scheme_metadata (Some d).

(** The index holds this one document, at distance 0.2 from every query. *)
Definition index_hit : QueryResult :=
  mkQueryResult [[scheme_document]] [[scheme_metadata]] (Some [[0.2%float]]).

(** An environment whose language model gives [reply] and whose store holds
    [schemes]. *)
Definition env (reply : Result (list N)) (schemes : list models.SchemeData) : Env :=
  {| urlparse_netloc := plain_netloc;
     construct := Ok tt;
     collection_count := Ok 1%nat;
     collection_query := fun _ _ => Ok index_hit;
     post_chat := fun _ => reply;
     stored_schemes := Ok schemes |}.

(** A stored record of the scheme whose own source is not on an official
    domain and that has no per-field sources. *)
Definition off_domain_page : list N := lit "https://funds.unofficial.org/small-cap".
Definition off_domain_scheme : models.SchemeData :=
  {| models.metadata :=
       {| models.scheme_code := lit "NIMF_SMALL_CAP";
          models.scheme_name := lit "Nippon India Small Cap Fund";
          models.scheme_type := lit "Equity";
          models.source_url := off_domain_page |};
     models.current_nav := Some 152.34%float;
     models.field_sources := None |}.

Definition nav_query : list N :=
  lit "Tell me the latest NAV and date of Nippon India Small Cap Fund?".

End Example.

(* ================================================================== *)
(** * The query path: further vocabulary                             *)
(* ================================================================== *)

(** A text cites a URL: it contains [http://] or [https://] followed by a
    character that is not whitespace. *)
Definition cites_url (answer : list N) : Prop :=
  exists pre c post,
    is_space c = false /\
    (answer = pre ++ lit "http://" ++ c :: post \/
     answer = pre ++ lit "https://" ++ c :: post).

(** The rest of a URL after its scheme name: [://] and one character that
    is not whitespace. *)
Definition tail_ok (t : list N) : Prop :=
  exists c u, t = lit "://" ++ c :: u /\ is_space c = false.


(** The vector index gives nothing for a query: counting raises or counts
    no document, or the query raises or returns no document. *)
Definition index_gives_nothing (env : Env) (query : list N) : Prop :=
  (exists e, collection_count env = Raise e) \/
  collection_count env = Ok 0%nat \/
  exists count, collection_count env = Ok (S count) /\
    ((exists e, collection_query env query (Nat.min 5 (S count)) = Raise e) \/
     exists results,
       collection_query env query (Nat.min 5 (S count)) = Ok results /\
       (documents results = [] \/ exists more, documents results = [] :: more)).

(** The rows of a query result do not line up: there are documents, but
    fewer metadata or fewer distances than documents. *)
Definition ragged (results : QueryResult) : Prop :=
  exists documents0 more,
    documents results = documents0 :: more /\ documents0 <> [] /\
    ((length (default [] (head (metadatas results))) < length documents0)%nat \/
     exists distance_rows,
       distances results = Some distance_rows /\
       (length (default [] (head distance_rows)) < length documents0)%nat).

(** The messages [generate_answer] sends for a query and its results. *)
Definition chat_messages (query : list N)
    (search_results : list RAGSystem.SearchResult) : list Message :=
  [ mkMessage (lit "system") RAGSystem.system_prompt;
    mkMessage (lit "user")
      (RAGSystem.user_prompt
         (join [NL; NL] (map RAGSystem.document (take 3 search_results))) query) ].

(** The rows of a query result line up: as many metadata as documents in
    the first row, and as many distances when distances are present. *)
Definition lined_up (results : QueryResult) : Prop :=
  (length (default [] (head (documents results))) <=
   length (default [] (head (metadatas results))))%nat /\
  match distances results with
  | None => True
  | Some distance_rows =>
      (length (default [] (head (documents results))) <=
       length (default [] (head distance_rows)))%nat
  end.

(** The i-th result [search] builds from the first rows of a query result. *)
Definition row (results : QueryResult) (i : nat) : RAGSystem.SearchResult :=
  RAGSystem.mkSearchResult
    (default [] (default [] (head (documents results)) !! i))
    (default ∅ (default [] (head (metadatas results)) !! i))
    (match distances results with
     | None => None
     | Some distance_rows => default [] (head distance_rows) !! i
     end).

(** The body of the formatting loop. *)
Definition format_row (results : QueryResult) (documents0 : list (list N)) (i : nat)
    : M RAGSystem.SearchResult :=
  bind (index documents0 i) (fun doc =>
  bind (index (metadatas results) 0) (fun metadatas0 =>
  bind (index metadatas0 i) (fun meta =>
  bind (match distances results with
        | Some ds => bind (index ds 0) (fun ds0 =>
                     bind (index ds0 i) (fun d => ret (Some d)))
        | None => ret None
        end) (fun dist =>
  ret (RAGSystem.mkSearchResult doc meta dist))))).

(** The runs of [answer_query], stage by stage. *)
Inductive Run (env : Env) (query : list N) : list Event -> Result (gmap string (list N)) -> Prop :=
| RunGuidance :
    Run env query [] (Ok QueryAnswerer.guidance_answer)
| RunNothing t :
    t = [EvCount] \/ (exists n, t = [EvCount; EvQuery (strip query) n] /\ (1 <= n <= 5)%nat) ->
    Run env query t (Ok QueryAnswerer.no_information_answer)
| RunRagged count results :
    collection_count env = Ok (S count) ->
    collection_query env (strip query) (Nat.min 5 (S count)) = Ok results ->
    ragged results ->
    Run env query [EvCount; EvQuery (strip query) (Nat.min 5 (S count))]
      (Raise (lit "list index out of range"))
| RunInvalidSource n :
    (1 <= n <= 5)%nat ->
    Run env query [EvCount; EvQuery (strip query) n] (Ok QueryAnswerer.invalid_source_answer)
| RunStoreRaises n e :
    (1 <= n <= 5)%nat ->
    stored_schemes env = Raise e ->
    Run env query [EvCount; EvQuery (strip query) n; EvLoadSchemes] (Raise e)
| RunAnswered n lookup top others reply :
    (1 <= n <= 5)%nat ->
    lookup = [] \/ lookup = [EvLoadSchemes] ->
    Run env query
      ([EvCount; EvQuery (strip query) n] ++ lookup ++
       [EvOracle (chat_messages (strip query) (top :: others))])
      (Ok reply).


(** The source a search result carries. *)
Definition source_of (result : RAGSystem.SearchResult) : list N :=
  get_or_empty (RAGSystem.metadata result) "source_url".

(** The lower-cased name of a stored scheme. *)
Definition stored_name (scheme : models.SchemeData) : list N :=
  lower (models.scheme_name (models.metadata scheme)).

(** A stored scheme is related to a name when the lower-cased name occurs
    in its name, or all the words of the name are words of its name, or
    the two names share two words. *)
Definition related (name : list N) (scheme : models.SchemeData) : Prop :=
  contains (lower name) (stored_name scheme) = true \/
  DataLoader.word_set (lower name) ⊆ DataLoader.word_set (stored_name scheme) \/
  (2 <= size (DataLoader.word_set (lower name) ∩
              DataLoader.word_set (stored_name scheme)))%nat.

(** A name has the two words of the brand. *)
Definition has_brand_words (name : list N) : Prop :=
  lit "nippon" ∈ DataLoader.word_set (lower name) /\
  lit "india" ∈ DataLoader.word_set (lower name).

(** Two more stored schemes for the worked examples: the direct plan of the
    example fund, and another fund of the same house. *)
Module Stored.

Definition scheme (code name : list N) : models.SchemeData :=
  {| models.metadata :=
       {| models.scheme_code := code;
          models.scheme_name := name;
          models.scheme_type := lit "Equity";
          models.source_url := Example.official_page |};
     models.current_nav := Some 152.34%float;
     models.field_sources := None |}.

Definition small_cap : models.SchemeData :=
  scheme (lit "118778") (lit "Nippon India Small Cap Fund").
Definition small_cap_direct : models.SchemeData :=
  scheme (lit "118779") (lit "Nippon India Small Cap Fund Direct Plan").
Definition large_cap : models.SchemeData :=
  scheme (lit "106235") (lit "Nippon India Large Cap Fund").

End Stored.

(* ================================================================== *)
(** * scraper/url_validator.py: normalize_url                           *)
(* ================================================================== *)

Section NormalizeUrl.

Variable urlparse_netloc : list N -> Result (list N).
(** [urljoin(base, url)] of the standard library, or the exception it
    raises. *)
Variable urljoin : list N -> list N -> Result (list N).

(** [normalize_url(url, base_url)]; the warning it prints is not
    modelled. *)
Definition normalize_url (url : list N) (base_url : option (list N))
    : Result (option (list N)) :=
  if negb (truthy url) then Ok None
  else
    let joined :=
      match base_url with
      | Some base =>
          if truthy base && negb (startswith url (lit "http"))
          then urljoin base url
          else Ok url
      | None => Ok url
      end in
    match joined with
    | Raise e => Raise e
    | Ok url =>
        if negb (validate_url urlparse_netloc url) then Ok None
        else Ok (Some url)
    end.

End NormalizeUrl.

(* ================================================================== *)
(** * scraper/validator.py: validate_scheme                             *)
(* ================================================================== *)

Module Validation.

(** The dictionary of a name or type check. *)
Record TextCheck : Type := mkTextCheck {
  valid : bool;
  stored : list N;
  found_on_page : bool
}.

(** [DataValidator._validate_scheme_name(stored_name, soup)] *)
Definition _validate_scheme_name (stored_name : list N) (soup : NipponScraper.Soup)
    : TextCheck :=
  let page_text := lower (NipponScraper.get_text soup) in
  let stored_lower := lower stored_name in
  let name_found :=
    contains stored_lower page_text ||
    existsb (fun word => contains word page_text)
      (List.filter (fun word => (3 <? length word)%nat) (split_ws stored_lower)) in
  mkTextCheck name_found stored_name name_found.

(** [DataValidator._validate_scheme_type(stored_type, soup)] *)
Definition _validate_scheme_type (stored_type : list N) (soup : NipponScraper.Soup)
    : TextCheck :=
  let page_text := lower (NipponScraper.get_text soup) in
  let stored_lower := lower stored_type in
  let type_found := contains stored_lower page_text in
  mkTextCheck type_found stored_type type_found.

(** A value of the dictionary [checks]. *)
Inductive Check : Type :=
| TextResult (check : TextCheck)
| NavResult (check : DataValidator.NavCheck).

(** [check.get('valid', False)] *)
Definition check_valid (check : Check) : bool :=
  match check with
  | TextResult c => valid c
  | NavResult c => DataValidator.valid c
  end.

(** The dictionary [validate_scheme] returns; a key that is not set is
    [None], and [checks] lists the checks in the order they were added. *)
Record ValidationResult : Type := mkValidationResult {
  status : list N;
  reason : option (list N);
  validated_at : option (list N);
  checks : option (list (string * Check));
  error : option (list N)
}.

(** The truth value of [scheme_data.current_nav]: set and not zero. *)
Definition nav_given (current_nav : option float) : option float :=
  match current_nav with
  | Some nav => if (nav =? 0)%float then None else Some nav
  | None => None
  end.

Section ValidateScheme.

(** [self._fetch_validation_data(url)]: the parsed page, or [None] when the
    request fails. *)
Variable _fetch_validation_data : list N -> option NipponScraper.Soup.
(** [datetime.now().isoformat()] *)
Variable now_isoformat : list N.

(** [DataValidator.validate_scheme(scheme_data)] *)
Definition validate_scheme (scheme_data : models.SchemeData) : Result ValidationResult :=
  if negb config.VALIDATION_ENABLED
  then Ok (mkValidationResult (lit "skipped") (Some (lit "validation_disabled"))
             None None None)
  else
    let source_url := models.source_url (models.metadata scheme_data) in
    match _fetch_validation_data source_url with
    | None =>
        Ok (mkValidationResult (lit "error") None (Some now_isoformat) (Some [])
              (Some (lit "Could not fetch validation page")))
    | Some soup =>
        let checks :=
          [("scheme_name"%string,
            TextResult (_validate_scheme_name
                          (models.scheme_name (models.metadata scheme_data)) soup))] in
        let with_nav :=
          match nav_given (models.current_nav scheme_data) with
          | Some current_nav =>
              match DataValidator._validate_nav current_nav
                      (NipponScraper.get_text soup) with
              | Ok check => Ok (checks ++ [("nav"%string, NavResult check)])
              | Raise e => Raise e
              end
          | None => Ok checks
          end in
        match with_nav with
        | Raise e => Raise e
        | Ok checks =>
            let checks :=
              checks ++
              [("scheme_type"%string,
                TextResult (_validate_scheme_type
                              (models.scheme_type (models.metadata scheme_data)) soup))] in
            let status :=
              if forallb check_valid (map snd checks) then lit "valid"
              else if existsb check_valid (map snd checks) then lit "partial"
              else lit "invalid" in
            Ok (mkValidationResult status None (Some now_isoformat) (Some checks) None)
        end
    end.

End ValidateScheme.

End Validation.

(** The stored NAV is absent or not negative. *)
Definition nav_not_negative (scheme_data : models.SchemeData) : Prop :=
  match models.current_nav scheme_data with
  | Some nav => (0 <=? nav)%float = true
  | None => True
  end.

(** The stored name, or one of its words of more than three characters,
    occurs in the text of the page (letter case aside). *)
Definition name_on_page (stored_name page_text : list N) : Prop :=
  contains (lower stored_name) (lower page_text) = true \/
  exists word, In word (split_ws (lower stored_name)) /\
               (3 < length word)%nat /\
               contains word (lower page_text) = true.

(** The NAV check passes, when there is a NAV to check. *)
Definition nav_on_page (current_nav : option float) (page_text : list N) : Prop :=
  match Validation.nav_given current_nav with
  | Some nav =>
      exists v, In v (DataValidator.found_navs page_text) /\
                within_one_percent nav v = true
  | None => True
  end.

(* ================================================================== *)
(** * scraper/nippon_scraper.py: the scheme code of a URL               *)
(* ================================================================== *)

Module SchemeCode.

Import Re.

(** [/(\d{6})] *)
Definition scheme_code_pattern : regex :=
  Seq (Chr 47)
    (Group (Seq digit (Seq digit (Seq digit (Seq digit (Seq digit digit)))))).

(** [NipponScraper._extract_scheme_code(url)], called with the URL alone,
    as the listing of the schemes does: without a page only the URL is
    searched. *)
Definition _extract_scheme_code (url : list N) : option (list N) :=
  match search false scheme_code_pattern url with
  | Some m => Some (default [] (group1 m))
  | None => None
  end.

End SchemeCode.

(** Six decimal digits. *)
Definition six_digits (code : list N) : Prop :=
  length code = 6%nat /\ forall c, In c code -> is_digit c = true.

(* ================================================================== *)
(** * query/query_interface.py: get_recent_updates                      *)
(* ================================================================== *)

Module QueryInterface.

(** A naive [datetime]. *)
Record datetime : Type := mkDatetime {
  year : Z; month : Z; day : Z;
  hour : Z; minute : Z; second : Z; microsecond : Z
}.

Definition is_leap (y : Z) : bool :=
  ((y mod 4 =? 0) && (negb (y mod 100 =? 0) || (y mod 400 =? 0)))%Z.

Definition days_in_month (y m : Z) : Z :=
  if (m =? 2)%Z then (if is_leap y then 29 else 28)%Z
  else if ((m =? 4) || (m =? 6) || (m =? 9) || (m =? 11))%Z then 30%Z
  else 31%Z.

(** [dt.replace(hour=0, minute=0, second=0, microsecond=0)] *)
Definition at_midnight (dt : datetime) : datetime :=
  mkDatetime (year dt) (month dt) (day dt) 0 0 0 0.

(** [dt.replace(day=d)]: the day has to fit a C [int] and the month. *)
Definition replace_day (dt : datetime) (d : Z) : Result datetime :=
  if ((d <? - 2147483648) || (2147483647 <? d))%Z
  then Raise (lit "OverflowError")
  else if ((1 <=? d) && (d <=? days_in_month (year dt) (month dt)))%Z
  then Ok (mkDatetime (year dt) (month dt) d
             (hour dt) (minute dt) (second dt) (microsecond dt))
  else Raise (lit "ValueError").

(** Naive datetimes compare as the tuples of their fields. *)
Definition fields (dt : datetime) : list Z :=
  [year dt; month dt; day dt; hour dt; minute dt; second dt; microsecond dt].

Fixpoint lex_compare (a b : list Z) : comparison :=
  match a, b with
  | [], [] => Eq
  | [], _ :: _ => Lt
  | _ :: _, [] => Gt
  | x :: a', y :: b' =>
      match (x ?= y)%Z with
      | Eq => lex_compare a' b'
      | c => c
      end
  end.

(** [a >= b] *)
Definition datetime_geb (a b : datetime) : bool :=
  match lex_compare (fields a) (fields b) with
  | Lt => false
  | _ => true
  end.

Section RecentUpdates.

(** [scheme.metadata.last_updated] *)
Variable last_updated : models.SchemeData -> datetime.

(** [sorted(recent, key=lambda s: s.metadata.last_updated, reverse=True)]:
    newest first, schemes of the same date in their order in [recent]. *)
Fixpoint insert_newest_first (scheme : models.SchemeData)
    (sorted : list models.SchemeData) : list models.SchemeData :=
  match sorted with
  | [] => [scheme]
  | other :: sorted' =>
      if datetime_geb (last_updated scheme) (last_updated other)
      then scheme :: sorted
      else other :: insert_newest_first scheme sorted'
  end.
Definition sorted_newest_first (recent : list models.SchemeData)
    : list models.SchemeData :=
  foldr insert_newest_first [] recent.

(** [QueryInterface.get_recent_updates(days)], with [all_schemes] what the
    store holds and [now] the reading of the clock. *)
Definition get_recent_updates (all_schemes : list models.SchemeData)
    (now : datetime) (days : Z) : Result (list models.SchemeData) :=
  let cutoff_date := at_midnight now in
  match replace_day cutoff_date (day cutoff_date - days) with
  | Raise e => Raise e
  | Ok cutoff_date =>
      let recent :=
        List.filter (fun scheme => datetime_geb (last_updated scheme) cutoff_date)
          all_schemes in
      Ok (sorted_newest_first recent)
  end.

End RecentUpdates.

End QueryInterface.

(* ================================================================== *)
(** * storage/data_store.py: the registry of stored schemes            *)
(* ================================================================== *)

Module Registry.

(** [StorageMetadata]: the counters and the list of the registered
    schemes, each a dictionary with the keys scheme_code, scheme_name and
    source_url (the two timestamps are not touched by [store_scheme]). *)
Record StorageMetadata : Type := mkStorageMetadata {
  total_schemes : Z;
  total_factsheets : Z;
  total_chunks : Z;
  schemes : list (gmap string (list N))
}.

(** [s.get('scheme_code') == scheme_code] *)
Definition has_code (scheme_code : list N) (entry : gmap string (list N)) : bool :=
  bool_decide (entry !! "scheme_code" = Some scheme_code).

(** The entry [next(...)] finds, updated in place: the first entry with
    the code gets the name and the source; [None] when no entry has the
    code. *)
Fixpoint update_existing (scheme_code scheme_name source_url : list N)
    (entries : list (gmap string (list N))) : option (list (gmap string (list N))) :=
  match entries with
  | [] => None
  | entry :: entries' =>
      if has_code scheme_code entry
      then Some (<["source_url" := source_url]>
                   (<["scheme_name" := scheme_name]> entry) :: entries')
      else option_map (cons entry)
             (update_existing scheme_code scheme_name source_url entries')
  end.

(** Lines 78 to 96: the update of the metadata.  (An entry that is found
    has a scheme code, so it is a non-empty dictionary and [not existing]
    is false for it.) *)
Definition register (metadata : StorageMetadata) (scheme_data : models.SchemeData)
    : StorageMetadata :=
  let scheme_code := models.scheme_code (models.metadata scheme_data) in
  let scheme_name := models.scheme_name (models.metadata scheme_data) in
  let source_url := models.source_url (models.metadata scheme_data) in
  match update_existing scheme_code scheme_name source_url (schemes metadata) with
  | None =>
      mkStorageMetadata (total_schemes metadata + 1) (total_factsheets metadata)
        (total_chunks metadata)
        (schemes metadata ++
         [ {[ "scheme_code" := scheme_code;
              "scheme_name" := scheme_name;
              "source_url" := source_url ]} ])
  | Some entries =>
      mkStorageMetadata (total_schemes metadata) (total_factsheets metadata)
        (total_chunks metadata) entries
  end.

Section StoreScheme.

(** Writing the JSON file of the scheme (lines 66 to 76), reading the
    metadata ([_load_metadata]) and writing it back ([_save_metadata]),
    each with its outcome. *)
Variable write_scheme_file : models.SchemeData -> Result unit.
Variable _load_metadata : Result StorageMetadata.
Variable _save_metadata : StorageMetadata -> Result unit.

(** [DataStore.store_scheme(scheme_data)]: the boolean it returns and the
    metadata object as the call leaves it, when the call got to it. *)
Definition store_scheme (scheme_data : models.SchemeData)
    : bool * option StorageMetadata :=
  match write_scheme_file scheme_data with
  | Raise _ => (false, None)
  | Ok _ =>
      match _load_metadata with
      | Raise _ => (false, None)
      | Ok metadata =>
          let metadata := register metadata scheme_data in
          match _save_metadata metadata with
          | Ok _ => (true, Some metadata)
          | Raise _ => (false, Some metadata)
          end
      end
  end.

End StoreScheme.

End Registry.

(** The scheme codes of the registry, in its order. *)
Definition registered (metadata : Registry.StorageMetadata) : list (list N) :=
  omap (fun entry : gmap string (list N) => entry !! "scheme_code")
    (Registry.schemes metadata).

(** The registry is consistent: every entry has a scheme code, no code
    comes twice, and the counter is the number of entries. *)
Definition consistent (metadata : Registry.StorageMetadata) : Prop :=
  (forall entry, In entry (Registry.schemes metadata) ->
     is_Some (entry !! "scheme_code")) /\
  NoDup (registered metadata) /\
  Registry.total_schemes metadata = Z.of_nat (length (Registry.schemes metadata)).

(* ================================================================== *)
(** * Facts about texts                                                *)
(* ================================================================== *)

Section TextFacts.

Implicit Types s p : list N.

Lemma startswith_app s p : startswith (p ++ s) p = true.
Proof.
  induction p as [|c p IH]; simpl; [reflexivity|].
  rewrite N.eqb_refl. exact IH.
Qed.

Lemma startswith_prefix s p :
  startswith s p = true <-> exists t, s = p ++ t.
Proof.
  split.
  - revert s. induction p as [|c p IH]; intros s H.
    + exists s. reflexivity.
    + destruct s as [|d s]; simpl in H; [discriminate|].
      apply andb_true_iff in H as [Hc Hs]. apply N.eqb_eq in Hc. subst d.
      destruct (IH _ Hs) as [t ->]. exists t. reflexivity.
  - intros [t ->]. apply startswith_app.
Qed.

Lemma endswith_suffix s p :
  endswith s p = true <-> exists t, s = t ++ p.
Proof.
  unfold endswith. rewrite startswith_prefix. split.
  - intros [t Ht]. exists (rev t).
    rewrite <- (rev_involutive s), Ht, rev_app_distr, rev_involutive.
    reflexivity.
  - intros [t ->]. exists (rev t). apply rev_app_distr.
Qed.

Lemma contains_infix p s :
  contains p s = true <-> exists a b, s = a ++ p ++ b.
Proof.
  split.
  - induction s as [|c s IH]; simpl; intros H.
    + apply orb_true_iff in H as [H|H]; [|discriminate].
      apply startswith_prefix in H as [t Ht]. exists [], t. exact Ht.
    + apply orb_true_iff in H as [H|H].
      * apply startswith_prefix in H as [t Ht]. exists [], t. exact Ht.
      * destruct (IH H) as (a & b & ->). exists (c :: a), b. reflexivity.
  - intros (a & b & ->). induction a as [|c a IH].
    + change ([] ++ p ++ b) with (p ++ b).
      destruct (p ++ b) as [|x t] eqn:E; simpl; rewrite <- E, startswith_app;
        reflexivity.
    + simpl. rewrite IH. apply orb_true_r.
Qed.

Lemma str_eqb_eq (a b : list N) : str_eqb a b = true <-> a = b.
Proof. unfold str_eqb. apply bool_decide_eq_true. Qed.

End TextFacts.

(* ================================================================== *)
(** * scraper/url_validator.py: the allow-list                         *)
(* ================================================================== *)

Lemma domain_allowed_spec domain d :
  domain_allowed domain d = true <->
  domain = d \/ exists sub, domain = sub ++ lit "." ++ d.
Proof.
  unfold domain_allowed.
  rewrite orb_true_iff, str_eqb_eq, endswith_suffix. reflexivity.
Qed.

Lemma split_on_aux_absent (sep : N) (s cur : list N) :
  (forall c, In c s -> c <> sep) ->
  split_on_aux sep s cur = [rev cur ++ s].
Proof.
  revert cur. induction s as [|c s IH]; intros cur H; simpl.
  - rewrite app_nil_r. reflexivity.
  - destruct (N.eqb_spec c sep) as [->|_].
    + exfalso. apply (H sep); [left|]; reflexivity.
    + rewrite IH by (intros x Hx; apply H; right; exact Hx).
      simpl. rewrite <- app_assoc. reflexivity.
Qed.

(** Without userinfo and port the network location is the host. *)
Lemma host_of_netloc_plain (netloc : list N) :
  (forall c, In c netloc -> c <> 64 /\ c <> 58) ->
  host_of_netloc netloc = netloc.
Proof.
  intros H. unfold host_of_netloc, split_on.
  rewrite (split_on_aux_absent 64) by (intros c Hc; apply H, Hc).
  simpl. rewrite (split_on_aux_absent 58) by (intros c Hc; apply H, Hc).
  reflexivity.
Qed.

(* ================================================================== *)
(** * storage/data_store.py: chunking                                  *)
(* ================================================================== *)

Lemma slice_window {A} (s : list A) (a n : Z) :
  (0 <= a)%Z -> (0 <= n)%Z ->
  slice s a (a + n) = take (Z.to_nat n) (drop (Z.to_nat a) s).
Proof.
  intros Ha Hn. unfold slice, norm_index.
  destruct (Z.ltb_spec a 0) as [?|_]; [lia|].
  destruct (Z.ltb_spec (a + n) 0) as [?|_]; [lia|].
  destruct (Z_le_gt_dec a (Z.of_nat (length s))) as [Hle|Hgt].
  - rewrite (Z.min_l a) by lia.
    destruct (Z_le_gt_dec (a + n) (Z.of_nat (length s))) as [Hle'|Hgt'].
    + rewrite Z.min_l by lia. f_equal. lia.
    + rewrite Z.min_r by lia.
      rewrite !take_ge; [reflexivity| |]; rewrite length_drop; lia.
  - rewrite !Z.min_r by lia.
    rewrite !drop_ge by lia. rewrite !take_nil. reflexivity.
Qed.

Section ChunkFacts.

Variable md5_hexdigest : list N -> list N.
Variable now : nat -> Z.
Variables chunk_size overlap : Z.
Variables scheme_code content chunk_type source_url : list N.
Variable metadata : option (gmap string (list N)).

Let step : Z := (chunk_size - overlap)%Z.
Let loop := DataStore.chunk_loop md5_hexdigest now chunk_size overlap
              scheme_code content chunk_type source_url metadata.
Let chunk_at := DataStore.make_chunk md5_hexdigest now chunk_size
              scheme_code content chunk_type source_url metadata.

Lemma next_start_step start :
  DataStore.next_start chunk_size overlap start = (start + step)%Z.
Proof. unfold DataStore.next_start, step. lia. Qed.

(** One pass of the loop. *)
Lemma loop_S fuel start chunk_index :
  loop (S fuel) start chunk_index =
  if (start <? Z.of_nat (length content))%Z
  then option_map (cons (chunk_at start chunk_index))
         (loop fuel (start + step)%Z (S chunk_index))
  else Some [].
Proof. unfold loop, chunk_at. simpl. rewrite next_start_step. reflexivity. Qed.

(** Enough passes: with a positive step the loop ends within as many passes
    as there are characters from [start] on, plus one. *)
Lemma chunk_loop_enough fuel :
  (0 < step)%Z ->
  forall start chunk_index,
    (0 < fuel)%nat ->
    (Z.of_nat (length content) - start < Z.of_nat fuel)%Z ->
    exists chunks, loop fuel start chunk_index = Some chunks.
Proof.
  intros Hstep. induction fuel as [|fuel IH]; intros start chunk_index Hpos Hfuel.
  - lia.
  - rewrite loop_S.
    destruct (Z.ltb_spec start (Z.of_nat (length content))) as [Hlt|Hge].
    + destruct (IH (start + step)%Z (S chunk_index)) as [chunks Hc]; [lia|lia|].
      rewrite Hc. eexists. reflexivity.
    + eexists. reflexivity.
Qed.

(** More passes than needed change nothing. *)
Lemma chunk_loop_more fuel :
  forall start chunk_index chunks,
    loop fuel start chunk_index = Some chunks ->
    forall fuel', (fuel <= fuel')%nat -> loop fuel' start chunk_index = Some chunks.
Proof.
  induction fuel as [|fuel IH]; intros start chunk_index chunks H fuel' Hle.
  - discriminate.
  - destruct fuel' as [|fuel']; [lia|].
    rewrite loop_S in *.
    destruct (start <? Z.of_nat (length content))%Z; [|exact H].
    destruct (loop fuel _ _) as [rest|] eqn:E; [|discriminate].
    rewrite (IH _ _ _ E fuel') by lia. exact H.
Qed.

(** The chunks the loop returns: the i-th one is built at start position
    [start + i * step] with sequence index [chunk_index + i]; every start
    position lies inside the text and the next one would not. *)
Lemma chunk_loop_spec fuel :
  (0 < step)%Z ->
  forall start chunk_index chunks,
    loop fuel start chunk_index = Some chunks ->
    (forall i chunk, chunks !! i = Some chunk ->
       chunk = chunk_at (start + Z.of_nat i * step)%Z (chunk_index + i)%nat /\
       (start + Z.of_nat i * step < Z.of_nat (length content))%Z) /\
    (Z.of_nat (length content) <= start + Z.of_nat (length chunks) * step)%Z.
Proof.
  intros Hstep. induction fuel as [|fuel IH]; intros start chunk_index chunks H.
  - discriminate.
  - rewrite loop_S in H.
    destruct (Z.ltb_spec start (Z.of_nat (length content))) as [Hlt|Hge].
    + destruct (loop fuel _ _) as [rest|] eqn:E; [|discriminate].
      injection H as <-.
      destruct (IH _ _ _ E) as [Hnth Hlen]. split.
      * intros [|i] chunk Hi; simpl in Hi.
        -- injection Hi as <-. rewrite Nat.add_0_r.
           replace (start + Z.of_nat 0 * step)%Z with start by lia.
           split; [reflexivity|exact Hlt].
        -- destruct (Hnth _ _ Hi) as [-> Hin].
           replace (start + Z.of_nat (S i) * step)%Z
             with (start + step + Z.of_nat i * step)%Z by lia.
           replace (chunk_index + S i)%nat with (S chunk_index + i)%nat by lia.
           split; [reflexivity|exact Hin].
      * simpl length. lia.
    + injection H as <-. split.
      * intros i chunk Hi. rewrite lookup_nil in Hi. discriminate.
      * simpl. lia.
Qed.

(** Without a positive step the loop never ends on a non-empty text: every
    number of passes is used up. *)
Lemma chunk_loop_diverges fuel :
  (step <= 0)%Z ->
  forall start chunk_index,
    (start < Z.of_nat (length content))%Z ->
    loop fuel start chunk_index = None.
Proof.
  intros Hstep. induction fuel as [|fuel IH]; intros start chunk_index Hlt;
    [reflexivity|].
  rewrite loop_S.
  destruct (Z.ltb_spec start (Z.of_nat (length content))) as [_|?]; [|lia].
  rewrite IH by lia. reflexivity.
Qed.

End ChunkFacts.

(** The ids do not depend on the clock, the source or the metadata. *)
Lemma chunk_loop_ids md5_hexdigest now now' chunk_size overlap
    scheme_code content chunk_type source_url source_url' metadata metadata' fuel :
  forall start chunk_index,
    option_map (map models.chunk_id)
      (DataStore.chunk_loop md5_hexdigest now' chunk_size overlap
         scheme_code content chunk_type source_url' metadata' fuel start chunk_index) =
    option_map (map models.chunk_id)
      (DataStore.chunk_loop md5_hexdigest now chunk_size overlap
         scheme_code content chunk_type source_url metadata fuel start chunk_index).
Proof.
  induction fuel as [|fuel IH]; intros start chunk_index; [reflexivity|].
  simpl. destruct (start <? Z.of_nat (length content))%Z; [|reflexivity].
  specialize (IH (DataStore.next_start chunk_size overlap start) (S chunk_index)).
  destruct (DataStore.chunk_loop md5_hexdigest now' _ _ _ _ _ _ _ fuel _ _);
    destruct (DataStore.chunk_loop md5_hexdigest now _ _ _ _ _ _ _ fuel _ _);
    simpl in *; try discriminate; [|reflexivity].
  injection IH as IH. rewrite IH. reflexivity.
Qed.

(** With the configured sizes the call returns (one pass more than the text
    has characters is enough). *)
Lemma create_text_chunks_returns md5_hexdigest now scheme_code content chunk_type
    source_url metadata :
  exists chunks,
    DataStore.create_text_chunks md5_hexdigest now scheme_code content chunk_type
      source_url metadata = Some chunks.
Proof.
  unfold DataStore.create_text_chunks, DataStore.create_text_chunks_fuel.
  apply chunk_loop_enough; unfold config.CHUNK_SIZE, config.CHUNK_OVERLAP.
  all: lia.
Qed.

(** C10: when the overlap is smaller than the chunk size, every pass of the
    loop moves the window start forward by [chunk_size - overlap > 0], and
    [create_text_chunks] returns a finite list of chunks for every scheme
    code, chunk type and text: any number of passes above the length of the
    text gives the same list, which has at most one chunk per character. *)
Theorem create_text_chunks_terminates
    (md5_hexdigest : list N -> list N) (now : nat -> Z) (chunk_size overlap : Z)
    (scheme_code content chunk_type source_url : list N)
    (metadata : option (gmap string (list N))) :
  (overlap < chunk_size)%Z ->
  (forall start,
     (start < DataStore.next_start chunk_size overlap start)%Z /\
     (DataStore.next_start chunk_size overlap start - start = chunk_size - overlap)%Z) /\
  exists chunks,
    (forall fuel, (length content < fuel)%nat ->
       DataStore.create_text_chunks_fuel md5_hexdigest now chunk_size overlap
         scheme_code content chunk_type source_url metadata fuel = Some chunks) /\
    (length chunks <= length content)%nat.
Proof.
  intros Hlt. split.
  { intros start. unfold DataStore.next_start. lia. }
  unfold DataStore.create_text_chunks_fuel.
  destruct (chunk_loop_enough md5_hexdigest now chunk_size overlap scheme_code
              content chunk_type source_url metadata (S (length content))
              ltac:(lia) 0%Z 0%nat ltac:(lia) ltac:(lia)) as [chunks Hc].
  exists chunks. split.
  - intros fuel Hfuel.
    apply (chunk_loop_more _ _ _ _ _ _ _ _ _ _ _ _ _ Hc). lia.
  - assert (Hstep : (0 < chunk_size - overlap)%Z) by lia.
    destruct (chunk_loop_spec _ _ _ _ _ _ _ _ _ _ Hstep _ _ _ Hc) as [Hnth _].
    destruct chunks as [|c chunks]; [simpl; lia|].
    destruct (lookup_lt_is_Some_2 (c :: chunks) (length chunks)) as [x Hx];
      [simpl; lia|].
    destruct (Hnth _ _ Hx) as [_ Hin]. simpl length. nia.
Qed.

Lemma create_text_chunks_terminates_witness :
  (config.CHUNK_OVERLAP < config.CHUNK_SIZE)%Z /\
  exists chunks,
    (forall fuel, (length (lit "Nippon India Small Cap Fund") < fuel)%nat ->
       DataStore.create_text_chunks_fuel (fun s => s) (fun _ => 0%Z)
         config.CHUNK_SIZE config.CHUNK_OVERLAP
         (lit "SC1") (lit "Nippon India Small Cap Fund") (lit "scheme")
         (lit "https://mf.nipponindiaim.com/x") None fuel = Some chunks) /\
    (length chunks <= length (lit "Nippon India Small Cap Fund"))%nat.
Proof.
  split; [reflexivity|].
  apply (create_text_chunks_terminates (fun s => s) (fun _ => 0%Z)
           config.CHUNK_SIZE config.CHUNK_OVERLAP). reflexivity.
Defined.

(** C9: chunking is deterministic.  For every scheme code, chunk type and
    text, [create_text_chunks] returns chunks whose i-th id is the hash of
    [scheme_code_chunk_type_i] and whose i-th content is the window of
    [CHUNK_SIZE = 1000] characters of the text that starts at position
    [800 * i] (clipped where the text ends); the starts advance by
    [CHUNK_SIZE - CHUNK_OVERLAP = 800] until the text is covered, so that
    consecutive chunks share 200 characters; and any other invocation on the
    same scheme code, chunk type and text, at another time and with another
    source or metadata, yields the same sequence of ids. *)
Theorem create_text_chunks_deterministic
    (md5_hexdigest : list N -> list N) (now : nat -> Z)
    (scheme_code content chunk_type source_url : list N)
    (metadata : option (gmap string (list N))) :
  config.CHUNK_SIZE = 1000%Z /\ config.CHUNK_OVERLAP = 200%Z /\
  exists chunks,
    DataStore.create_text_chunks md5_hexdigest now scheme_code content chunk_type
      source_url metadata = Some chunks /\
    (forall i chunk, chunks !! i = Some chunk ->
       models.chunk_id chunk =
         md5_hexdigest (scheme_code ++ lit "_" ++ chunk_type ++ lit "_" ++ str_of_nat i) /\
       models.content chunk = take 1000 (drop (800 * i) content) /\
       (800 * i < length content)%nat) /\
    (length content <= 800 * length chunks)%nat /\
    (forall i c1 c2, chunks !! i = Some c1 -> chunks !! (S i) = Some c2 ->
       take 200 (models.content c2) = drop 800 (models.content c1)) /\
    (forall now' source_url' metadata',
       option_map (map models.chunk_id)
         (DataStore.create_text_chunks md5_hexdigest now' scheme_code content
            chunk_type source_url' metadata') =
       Some (map models.chunk_id chunks)).
Proof.
  split; [reflexivity|]. split; [reflexivity|].
  destruct (create_text_chunks_returns md5_hexdigest now scheme_code content
              chunk_type source_url metadata) as [chunks Hc].
  exists chunks. split; [exact Hc|].
  unfold DataStore.create_text_chunks, DataStore.create_text_chunks_fuel in Hc.
  assert (Hstep : (0 < config.CHUNK_SIZE - config.CHUNK_OVERLAP)%Z) by reflexivity.
  destruct (chunk_loop_spec _ _ _ _ _ _ _ _ _ _ Hstep _ _ _ Hc) as [Hnth Hlen].
  assert (Hwin : forall i chunk, chunks !! i = Some chunk ->
            models.content chunk = take 1000 (drop (800 * i) content)).
  { intros i chunk Hi. destruct (Hnth _ _ Hi) as [-> _].
    unfold DataStore.make_chunk. simpl models.content.
    unfold config.CHUNK_SIZE, config.CHUNK_OVERLAP.
    rewrite slice_window by lia.
    replace (Z.to_nat 1000) with 1000%nat by reflexivity.
    replace (Z.to_nat (0 + Z.of_nat i * (1000 - 200))) with (800 * i)%nat by lia.
    reflexivity. }
  split; [|split; [|split]].
  - intros i chunk Hi. split; [|split].
    + destruct (Hnth _ _ Hi) as [-> _]. reflexivity.
    + apply Hwin, Hi.
    + destruct (Hnth _ _ Hi) as [_ Hin].
      unfold config.CHUNK_SIZE, config.CHUNK_OVERLAP in Hin. lia.
  - unfold config.CHUNK_SIZE, config.CHUNK_OVERLAP in Hlen. lia.
  - intros i c1 c2 H1 H2. rewrite (Hwin _ _ H1), (Hwin _ _ H2).
    rewrite take_take. replace (200 `min` 1000)%nat with 200%nat by reflexivity.
    replace (800 * S i)%nat with (800 * i + 800)%nat by lia.
    rewrite <- drop_drop.
    rewrite (take_drop_commute _ 200 800). reflexivity.
  - intros now' source_url' metadata'.
    unfold DataStore.create_text_chunks, DataStore.create_text_chunks_fuel.
    rewrite (chunk_loop_ids md5_hexdigest now now' _ _ _ _ _ source_url source_url'
               metadata metadata').
    rewrite Hc. reflexivity.
Qed.

(* ================================================================== *)
(** * scraper/validator.py: the NAV tolerance                          *)
(* ================================================================== *)

(** The divisor [max(stored, found)] is not zero when the stored value is
    positive, so the division of the check does not raise. *)
Lemma max_of_positive_nonzero (stored found : float) :
  (0 <? stored)%float = true ->
  (PyFloat.max stored found =? 0)%float = false.
Proof.
  intros Hpos. unfold PyFloat.max.
  destruct (stored <? found)%float eqn:Hlt.
  - rewrite FloatAxioms.ltb_spec in Hpos, Hlt. rewrite FloatAxioms.eqb_spec.
    change (Prim2SF 0) with (S754_zero false) in *.
    destruct (Prim2SF stored) as [ | [] | | [] ms es];
      destruct (Prim2SF found) as [ | [] | | [] mf ef];
      cbn in *; congruence.
  - rewrite FloatAxioms.ltb_spec in Hpos. rewrite FloatAxioms.eqb_spec.
    change (Prim2SF 0) with (S754_zero false) in *.
    destruct (Prim2SF stored) as [ | [] | | [] ms es]; cbn in *; congruence.
Qed.

Lemma within_tolerance_positive stored found :
  (0 <? stored)%float = true ->
  DataValidator.within_tolerance stored found = Ok (within_one_percent stored found).
Proof.
  intros Hpos. unfold DataValidator.within_tolerance, PyFloat.div.
  rewrite (max_of_positive_nonzero _ _ Hpos). reflexivity.
Qed.

Lemma first_close_positive stored navs :
  (0 <? stored)%float = true ->
  exists r, DataValidator.first_close stored navs = Ok r /\
    match r with
    | Some v => In v navs /\ within_one_percent stored v = true
    | None => forall v, In v navs -> within_one_percent stored v = false
    end.
Proof.
  intros Hpos. induction navs as [|v navs IH]; simpl.
  - exists None. split; [reflexivity|]. intros v [].
  - rewrite (within_tolerance_positive _ _ Hpos).
    destruct (within_one_percent stored v) eqn:E.
    + exists (Some v). split; [reflexivity|]. split; [left; reflexivity|exact E].
    + destruct IH as (r & Hr & Hspec). exists r. split; [exact Hr|].
      destruct r as [w|].
      * destruct Hspec as [Hin Hw]. split; [right; exact Hin|exact Hw].
      * intros w [<-|Hin]; [exact E|apply Hspec, Hin].
Qed.

Lemma check_nav_positive stored navs :
  (0 <? stored)%float = true ->
  exists check, DataValidator.check_nav stored navs = Ok check /\
    (DataValidator.valid check = true <->
     exists v, In v navs /\ within_one_percent stored v = true).
Proof.
  intros Hpos. unfold DataValidator.check_nav.
  destruct navs as [|first navs].
  - eexists. split; [reflexivity|]. simpl. split; [discriminate|].
    intros (v & [] & _).
  - destruct (first_close_positive stored (first :: navs) Hpos) as (r & Hr & Hspec).
    rewrite Hr. destruct r as [v|]; eexists; (split; [reflexivity|]); simpl.
    + split; [|reflexivity]. intros _. exists v. exact Hspec.
    + split; [discriminate|]. intros (v & Hin & Hv).
      rewrite (Hspec v Hin) in Hv. discriminate.
Qed.

(** C5: for a positive stored NAV, [_validate_nav] returns a check (it does
    not raise) that is marked valid exactly when some value collected from
    the live page satisfies [|stored - v| / max(stored, v) < 0.01]; a stored
    NAV of 100.00 is marked valid against a page that shows 100.50 and
    invalid against a page that shows 102.00. *)
Theorem validate_nav_within_one_percent (stored_nav : float) (page_text : list N) :
  (0 <? stored_nav)%float = true ->
  (exists check,
     DataValidator._validate_nav stored_nav page_text = Ok check /\
     (DataValidator.valid check = true <->
      exists v, In v (DataValidator.found_navs page_text) /\
                (abs (stored_nav - v) / PyFloat.max stored_nav v <? 0.01)%float = true)) /\
  DataValidator._validate_nav 100 (lit "NAV: 100.50") =
    Ok (DataValidator.mkNavCheck true 100 (Some 100.5%float) None) /\
  DataValidator._validate_nav 100 (lit "NAV: 102.00") =
    Ok (DataValidator.mkNavCheck false 100 (Some 102%float) (Some (lit "NAV mismatch"))).
Proof.
  intros Hpos. split; [|split].
  - unfold DataValidator._validate_nav.
    apply (check_nav_positive _ _ Hpos).
  - vm_compute. reflexivity.
  - vm_compute. reflexivity.
Qed.

Lemma validate_nav_within_one_percent_witness :
  exists check,
    DataValidator._validate_nav 100 (lit "Latest NAV: 100.50 Net Asset Value 99.00") = Ok check /\
    (DataValidator.valid check = true <->
     exists v, In v (DataValidator.found_navs (lit "Latest NAV: 100.50 Net Asset Value 99.00")) /\
               (abs (100 - v) / PyFloat.max 100 v <? 0.01)%float = true).
Proof.
  apply (validate_nav_within_one_percent 100
           (lit "Latest NAV: 100.50 Net Asset Value 99.00")).
  reflexivity.
Defined.

(* ================================================================== *)
(** * backend/query_answerer.py: the confidence                        *)
(* ================================================================== *)

(** Distinct literals are distinct texts. *)
Ltac lit_neq := let H := fresh in intros H; vm_compute in H; discriminate H.

Lemma low_not_medium : lit "low" <> lit "medium".      Proof. lit_neq. Qed.
Lemma low_not_high : lit "low" <> lit "high".          Proof. lit_neq. Qed.
Lemma medium_not_high : lit "medium" <> lit "high".    Proof. lit_neq. Qed.

Section Confidence.

Import QueryAnswerer RAGSystem.

Lemma determine_confidence_unfold top others answer :
  _determine_confidence (top :: others) answer =
  if near top && cited_and_clean answer then lit "high"
  else if (1 <=? length others)%nat then lit "medium"
  else if far top then lit "low"
  else lit "medium".
Proof.
  unfold _determine_confidence, near, far, cited_and_clean.
  destruct (distance top) as [d|]; reflexivity.
Qed.

(** C3, as the code has it: the confidence is high exactly when the top
    distance is below 0.3, the answer carries a source URL and passes the
    hallucination guard.  Otherwise it is medium whenever there are at least
    two results; with a single result it is low exactly when the distance is
    above 0.7, and medium when the distance is at most 0.7 or unavailable.
    A single result at distance 0.8 gives low, two results at distance 0.5
    give medium, a cited answer at distance 0.2 gives high, and no result at
    all gives low. *)
Theorem determine_confidence_cases (top : SearchResult)
    (others : list SearchResult) (answer : list N) :
  let confidence := _determine_confidence (top :: others) answer in
  let high_case := near top = true /\ _has_source_url answer = true /\
                   _contains_fake_data answer = false in
  (confidence = lit "high" <-> high_case) /\
  (confidence = lit "low" <-> ~ high_case /\ others = [] /\ far top = true) /\
  (confidence = lit "medium" <->
     ~ high_case /\ (others <> [] \/ far top = false)) /\
  _determine_confidence [] answer = lit "low" /\
  _determine_confidence [Example.result_at 0.8] answer = lit "low" /\
  _determine_confidence [Example.result_at 0.5; Example.result_at 0.5] answer = lit "medium" /\
  _determine_confidence [Example.result_at 0.2]
    (lit "The NAV is 10. Source: https://mf.nipponindiaim.com/x") = lit "high".
Proof.
  cbv zeta. rewrite determine_confidence_unfold.
  assert (Hhigh : near top && cited_and_clean answer = true <->
                  near top = true /\ _has_source_url answer = true /\
                  _contains_fake_data answer = false).
  { unfold cited_and_clean. rewrite !andb_true_iff, negb_true_iff. tauto. }
  pose proof low_not_medium as LM. pose proof low_not_high as LH.
  pose proof medium_not_high as MH.
  split; [|split; [|split; [|split; [|split; [|split]]]]].
  - rewrite <- Hhigh. destruct (near top && cited_and_clean answer).
    + tauto.
    + destruct (1 <=? length others)%nat; [|destruct (far top)];
        split; intros H; try discriminate H; congruence.
  - rewrite <- Hhigh. destruct (near top && cited_and_clean answer).
    + split; [intros H; congruence|intros [H _]; exfalso; apply H; reflexivity].
    + destruct others as [|o others]; simpl.
      * destruct (far top); split.
        -- intros _. split; [discriminate|split; reflexivity].
        -- reflexivity.
        -- intros H. congruence.
        -- intros (_ & _ & H). discriminate H.
      * split; [intros H; congruence|intros (_ & H & _); discriminate H].
  - rewrite <- Hhigh. destruct (near top && cited_and_clean answer).
    + split; [intros H; congruence|intros [H _]; exfalso; apply H; reflexivity].
    + destruct others as [|o others]; simpl.
      * destruct (far top); split.
        -- intros H. congruence.
        -- intros [_ [H|H]]; [exfalso; apply H; reflexivity|discriminate H].
        -- intros _. split; [discriminate|right; reflexivity].
        -- reflexivity.
      * split; [|reflexivity]. intros _. split; [discriminate|left; discriminate].
  - reflexivity.
  - rewrite determine_confidence_unfold.
    replace (near (Example.result_at 0.8)) with false by (vm_compute; reflexivity).
    reflexivity.
  - rewrite determine_confidence_unfold.
    replace (near (Example.result_at 0.5)) with false by (vm_compute; reflexivity).
    reflexivity.
  - vm_compute. reflexivity.
Qed.

(** C3, as the claim words it, fails: a top distance above 0.7 does not
    give low when a second result is present. *)
Lemma far_distance_not_always_low :
  ~ (forall (search_results : list SearchResult) top d (answer : list N),
       head search_results = Some top -> distance top = Some d ->
       (0.7 <? d)%float = true ->
       _determine_confidence search_results answer = lit "low").
Proof.
  intros H.
  specialize (H [Example.result_at 0.8; Example.result_at 0.9] (Example.result_at 0.8) 0.8%float
                (lit "The NAV is 10.") eq_refl eq_refl eq_refl).
  vm_compute in H. discriminate H.
Qed.

End Confidence.

(* ================================================================== *)
(** * scraper/nippon_scraper.py: the AUM                               *)
(* ================================================================== *)

Section AumFacts.

Import Re DataValidator NipponScraper.





End AumFacts.

(* ================================================================== *)
(** * Calls and exceptions: the laws used below                        *)
(* ================================================================== *)

Section MonadFacts.

Context {A B C : Type}.

Lemma bind_ret_l (a : A) (f : A -> M B) : bind (ret a) f = f a.
Proof. unfold bind, ret. destruct (f a) as [t r]. reflexivity. Qed.

Lemma bind_ok (t : list Event) (a : A) (f : A -> M B) :
  bind (t, Ok a) f = (t ++ fst (f a), snd (f a)).
Proof. unfold bind. destruct (f a) as [t' r]. reflexivity. Qed.

Lemma bind_raise (t : list Event) (e : list N) (f : A -> M B) :
  bind (t, Raise e) f = (t, Raise e).
Proof. reflexivity. Qed.

Lemma bind_assoc (m : M A) (f : A -> M B) (g : B -> M C) :
  bind (bind m f) g = bind m (fun x => bind (f x) g).
Proof.
  destruct m as [t [a|e]]; [|reflexivity].
  unfold bind. destruct (f a) as [t1 [b|e1]]; [|reflexivity].
  destruct (g b) as [t2 r]. rewrite app_assoc. reflexivity.
Qed.

Lemma bind_ext (m : M A) (f g : A -> M B) :
  (forall a, f a = g a) -> bind m f = bind m g.
Proof.
  intros H. destruct m as [t [a|e]]; [|reflexivity].
  unfold bind. rewrite H. reflexivity.
Qed.

End MonadFacts.

(* ================================================================== *)
(** * backend/query_answerer.py: the query path                        *)
(* ================================================================== *)

Section QueryPath.

Import QueryAnswerer RAGSystem.

Variable env : Env.

(** The two stages compose to [answer_query]. *)
Lemma answer_query_stages (query : list N) :
  answer_query env query = bind (prepare env query) (answer_stage env query).
Proof.
  unfold answer_query, prepare.
  destruct (negb (truthy query) || (length (strip query) <? 3)%nat).
  { rewrite bind_ret_l. reflexivity. }
  rewrite bind_assoc. apply bind_ext. intros [|top others].
  { rewrite bind_ret_l. reflexivity. }
  destruct (negb (valid_source env _)).
  { rewrite bind_ret_l. reflexivity. }
  rewrite bind_assoc. apply bind_ext. intros [scheme_code source_url].
  rewrite bind_ret_l. reflexivity.
Qed.

(** Short queries return at once: no call is made. *)
Lemma answer_query_short (query : list N) :
  (length (strip query) < 3)%nat ->
  answer_query env query = ([], Ok guidance_answer).
Proof.
  intros H. unfold answer_query.
  apply Nat.ltb_lt in H. rewrite H, orb_true_r. reflexivity.
Qed.

End QueryPath.

(** C6, as the code has it: a query whose text, once leading and trailing
    whitespace is stripped, is shorter than 3 characters gets the
    low-confidence guidance answer (empty source and scheme code), and no
    call is made to the index, the store or the language model. *)
Theorem short_query_guidance (env : Env) (query : list N) :
  (length (strip query) < 3)%nat ->
  QueryAnswerer.answer_query env query = ([], Ok QueryAnswerer.guidance_answer) /\
  QueryAnswerer.guidance_answer !! "source_url" = Some [] /\
  QueryAnswerer.guidance_answer !! "scheme_code" = Some [] /\
  QueryAnswerer.guidance_answer !! "confidence" = Some (lit "low").
Proof.
  intros H. split; [apply answer_query_short, H|].
  split; [|split]; reflexivity.
Qed.

Lemma short_query_guidance_witness :
  QueryAnswerer.answer_query (Example.env (Ok (lit "The NAV is 152.34.")) []) (lit " hi ")
    = ([], Ok QueryAnswerer.guidance_answer).
Proof.
  apply (short_query_guidance (Example.env (Ok (lit "The NAV is 152.34.")) []) (lit " hi ")).
  vm_compute. lia.
Defined.

(** C6, as the claim words it, fails: "a b" has two non-whitespace
    characters, yet the index and the language model are called and the
    reply is not the guidance answer. *)
Lemma two_characters_reach_retrieval :
  ~ (forall (env : Env) (query : list N),
       (non_whitespace_count query < 3)%nat ->
       QueryAnswerer.answer_query env query = ([], Ok QueryAnswerer.guidance_answer)).
Proof.
  intros H.
  specialize (H (Example.env (Ok (lit "The NAV is 152.34.")) []) (lit "a b")).
  assert (Hlen : (non_whitespace_count (lit "a b") < 3)%nat) by (vm_compute; lia).
  specialize (H Hlen). apply (f_equal fst) in H.
  vm_compute in H. discriminate H.
Qed.

(* ================================================================== *)
(** * The hallucination guard                                          *)
(* ================================================================== *)

Section Guard.

Import QueryAnswerer RAGSystem.

(** The fields of a reply. *)
Lemma QueryAnswer_fields (answer source_url scheme_code confidence : list N) :
  QueryAnswer answer source_url scheme_code confidence !! "answer" = Some answer /\
  QueryAnswer answer source_url scheme_code confidence !! "source_url" = Some source_url /\
  QueryAnswer answer source_url scheme_code confidence !! "scheme_code" = Some scheme_code /\
  QueryAnswer answer source_url scheme_code confidence !! "confidence" = Some confidence.
Proof. repeat split; reflexivity. Qed.

Lemma QueryAnswer_keys (answer source_url scheme_code confidence : list N) :
  dom (QueryAnswer answer source_url scheme_code confidence) =
  ({[ "answer"; "source_url"; "scheme_code"; "confidence" ]} : gset string).
Proof.
  unfold QueryAnswer. rewrite !dom_insert_L, dom_singleton_L. set_solver.
Qed.

(** An indicator that is not contextual flags every text that contains it. *)
Lemma scan_indicators_hit (indicators : list (list N)) (answer_lower indicator : list N) :
  In indicator indicators -> contextual indicator = false ->
  contains indicator answer_lower = true ->
  scan_indicators indicators answer_lower = true.
Proof.
  intros Hin Hplain Hc. induction indicators as [|j indicators IH]; [destruct Hin|].
  cbn [scan_indicators]. destruct Hin as [->|Hin].
  - rewrite Hc. unfold contextual in Hplain. rewrite Hplain. reflexivity.
  - specialize (IH Hin). rewrite IH.
    destruct (contains j answer_lower); [|reflexivity].
    destruct (str_eqb j _ || str_eqb j _); [|reflexivity].
    destruct (contains _ _ || contains _ _); reflexivity.
Qed.

Lemma contains_fake_data_demo_sample (answer : list N) :
  contains (lit "demo") (lower answer) = true \/
  contains (lit "sample") (lower answer) = true ->
  _contains_fake_data answer = true.
Proof.
  unfold _contains_fake_data.
  intros [H|H].
  - apply (scan_indicators_hit _ _ (lit "demo")); [|vm_compute; reflexivity|exact H].
    unfold fake_indicators. simpl. tauto.
  - apply (scan_indicators_hit _ _ (lit "sample")); [|vm_compute; reflexivity|exact H].
    unfold fake_indicators. simpl. tauto.
Qed.

Lemma integrity_warning_clean :
  contains (lit "demo") (lower integrity_warning) = false /\
  contains (lit "sample") (lower integrity_warning) = false.
Proof. split; vm_compute; reflexivity. Qed.

Variable env : Env.

(** The reply when the answer stage is reached with a flagged answer. *)
Lemma finish_flagged search_results scheme_code source_url answer :
  _contains_fake_data answer = true ->
  finish search_results scheme_code source_url answer = integrity_warning_answer scheme_code.
Proof. intros H. unfold finish. rewrite H. reflexivity. Qed.

End Guard.

(** C1: whenever a run of [answer_query] reaches the answer stage (the
    query was accepted, results with a valid source were found) and the
    candidate answer, from the language model or from the fallback
    constructor, contains "demo" or "sample" in any letter case, the reply is
    the integrity warning with an empty source and confidence low; its text
    is the fixed warning, which is not the flagged text. *)
Theorem hallucination_guard (env : Env) (query : list N)
    (t1 t2 : list Event) (search_results : list RAGSystem.SearchResult)
    (scheme_code source_url answer : list N) :
  QueryAnswerer.prepare env query =
    (t1, Ok (QueryAnswerer.Ready search_results scheme_code source_url)) ->
  QueryAnswerer.candidate_answer env (strip query) search_results source_url =
    (t2, Ok answer) ->
  contains (lit "demo") (lower answer) = true \/
  contains (lit "sample") (lower answer) = true ->
  exists reply,
    QueryAnswerer.answer_query env query = (t1 ++ t2, Ok reply) /\
    reply = QueryAnswerer.integrity_warning_answer scheme_code /\
    reply !! "answer" = Some QueryAnswerer.integrity_warning /\
    reply !! "source_url" = Some [] /\
    reply !! "confidence" = Some (lit "low") /\
    QueryAnswerer.integrity_warning <> answer.
Proof.
  intros Hprep Hcand Hflag.
  exists (QueryAnswerer.integrity_warning_answer scheme_code).
  split; [|split; [reflexivity|]].
  - rewrite answer_query_stages, Hprep, bind_ok. simpl.
    rewrite Hcand, bind_ok. simpl.
    rewrite (finish_flagged _ _ _ _ (contains_fake_data_demo_sample _ Hflag)).
    rewrite app_nil_r. reflexivity.
  - unfold QueryAnswerer.integrity_warning_answer.
    destruct (QueryAnswer_fields QueryAnswerer.integrity_warning [] scheme_code (lit "low"))
      as (Ha & Hs & _ & Hc).
    split; [exact Ha|]. split; [exact Hs|]. split; [exact Hc|].
    intros <-. destruct integrity_warning_clean as [Hd Hs'].
    destruct Hflag as [H|H]; congruence.
Qed.

Lemma hallucination_guard_witness :
  exists reply,
    QueryAnswerer.answer_query (Example.env (Ok (lit "This is DEMO data.")) [])
      Example.nav_query =
      ([EvCount; EvQuery Example.nav_query 1; EvLoadSchemes] ++
       [EvOracle
          [ mkMessage (lit "system") RAGSystem.system_prompt;
            mkMessage (lit "user")
              (RAGSystem.user_prompt Example.scheme_document Example.nav_query) ]],
       Ok reply) /\
    reply = QueryAnswerer.integrity_warning_answer (lit "NIMF_SMALL_CAP") /\
    reply !! "answer" = Some QueryAnswerer.integrity_warning /\
    reply !! "source_url" = Some [] /\
    reply !! "confidence" = Some (lit "low") /\
    QueryAnswerer.integrity_warning <>
      lit "This is DEMO data." ++ RAGSystem.source_line Example.official_page.
Proof.
  apply (hallucination_guard (Example.env (Ok (lit "This is DEMO data.")) [])
           Example.nav_query _ _
           [Example.result_at 0.2]
           (lit "NIMF_SMALL_CAP") Example.official_page).
  - vm_compute. reflexivity.
  - vm_compute. reflexivity.
  - left. vm_compute. reflexivity.
Defined.

(* ================================================================== *)
(** * The source of a reply                                            *)
(* ================================================================== *)

Section SourceFacts.

Import QueryAnswerer RAGSystem.

Variable env : Env.

Abbreviation valid := (validate_url (urlparse_netloc env)).

Lemma pick_field_source_valid fields sources source_url :
  valid source_url = true ->
  valid (pick_field_source env fields sources source_url) = true.
Proof.
  intros H. induction fields as [|field fields IH]; simpl; [exact H|].
  destruct (sources !! field) as [candidate_url|]; [|exact IH].
  destruct (valid candidate_url) eqn:E; [exact E|exact IH].
Qed.

Lemma get_scheme_by_name_stored scheme_name t scheme :
  DataLoader.get_scheme_by_name env scheme_name = (t, Ok (Some scheme)) ->
  exists schemes, stored_schemes env = Ok schemes /\ In scheme schemes.
Proof.
  unfold DataLoader.get_scheme_by_name, DataLoader.load_all_schemes, call.
  destruct (stored_schemes env) as [schemes|e]; [|discriminate].
  rewrite bind_ok. intros H. exists schemes. split; [reflexivity|].
  repeat match type of H with
         | context [List.find ?f schemes] =>
             let E := fresh "E" in
             destruct (List.find f schemes) as [?|] eqn:E; cbn in H;
             [injection H as _ <-; apply (find_some _ _ E)|]
         end.
  discriminate H.
Qed.

(** After the scheme lookup the source is still a validated one, unless it
    was replaced by the stored source of a scheme without field sources. *)
Lemma resolve_scheme_source query top_result source_url t scheme_code source_url' :
  resolve_scheme env query top_result source_url = (t, Ok (scheme_code, source_url')) ->
  valid source_url = true ->
  valid source_url' = true \/
  exists schemes scheme,
    stored_schemes env = Ok schemes /\ In scheme schemes /\ unsourced scheme /\
    source_url' = models.source_url (models.metadata scheme).
Proof.
  unfold resolve_scheme. intros H Hvalid.
  destruct (_extract_scheme_name query) as [scheme_name|];
    [|injection H as _ _ <-; left; exact Hvalid].
  destruct (truthy scheme_name); [|injection H as _ _ <-; left; exact Hvalid].
  destruct (DataLoader.get_scheme_by_name env scheme_name) as [t0 [found|e]] eqn:E;
    [|discriminate].
  rewrite bind_ok in H.
  destruct found as [scheme|]; [|injection H as _ _ <-; left; exact Hvalid].
  destruct (get_scheme_by_name_stored _ _ _ E) as (schemes & Hs & Hin).
  destruct (models.field_sources scheme) as [sources|] eqn:Ef.
  - destruct (bool_decide (sources = ∅)) eqn:Ee.
    + apply bool_decide_eq_true in Ee. subst sources.
      injection H as _ _ <-. right. exists schemes, scheme.
      repeat split; try assumption. right. exact Ef.
    + injection H as _ _ <-. left.
      exact (pick_field_source_valid ["nav"; "scheme_page"; "category"]
               sources source_url Hvalid).
  - injection H as _ _ <-. right. exists schemes, scheme.
    repeat split; try assumption. left. exact Ef.
Qed.

Lemma valid_source_valid url : valid_source env url = true -> valid url = true.
Proof. unfold valid_source. intros H. apply andb_true_iff in H. apply H. Qed.

(** The fixed replies of the first stage. *)
Lemma prepare_early query t reply :
  prepare env query = (t, Ok (Early reply)) ->
  reply = guidance_answer \/ reply = no_information_answer \/
  reply = invalid_source_answer.
Proof.
  unfold prepare.
  destruct (negb (truthy query) || _).
  { intros H. injection H as _ <-. left. reflexivity. }
  destruct (RAGSystem.search env (strip query) 5) as [t0 [[|top others]|e]];
    [| |discriminate]; rewrite bind_ok.
  { intros H. injection H as _ <-. right. left. reflexivity. }
  destruct (negb (valid_source env _)).
  { intros H. injection H as _ <-. right. right. reflexivity. }
  destruct (resolve_scheme env _ _ _) as [t1 [[sc url]|e]]; simpl; discriminate.
Qed.

(** What the first stage hands to the answer stage: results that are not
    empty, and a source as in [resolve_scheme_source]. *)
Lemma prepare_ready query t search_results scheme_code source_url :
  prepare env query = (t, Ok (Ready search_results scheme_code source_url)) ->
  search_results <> [] /\
  (valid source_url = true \/
   exists schemes scheme,
     stored_schemes env = Ok schemes /\ In scheme schemes /\ unsourced scheme /\
     source_url = models.source_url (models.metadata scheme)).
Proof.
  unfold prepare.
  destruct (negb (truthy query) || _); [discriminate|].
  destruct (RAGSystem.search env (strip query) 5) as [t0 [[|top others]|e]];
    [discriminate| |discriminate]; rewrite bind_ok.
  destruct (negb (valid_source env _)) eqn:Ev; [discriminate|].
  apply negb_false_iff, valid_source_valid in Ev.
  destruct (resolve_scheme env _ _ _) as [t1 [[sc url]|e]] eqn:Er; simpl;
    [|discriminate].
  intros H. injection H as _ <- <- <-. split; [discriminate|].
  apply (resolve_scheme_source _ _ _ _ _ _ Er Ev).
Qed.

(** The source-domain invariant holds on every path but one: a non-empty
    [source_url] of a reply is valid, or it is the stored source of a scheme
    that has no per-field sources. *)
Lemma source_url_valid_unless_unsourced_scheme query t reply url :
  answer_query env query = (t, Ok reply) ->
  reply !! "source_url" = Some url -> url <> [] ->
  valid url = true \/
  exists schemes scheme,
    stored_schemes env = Ok schemes /\ In scheme schemes /\ unsourced scheme /\
    url = models.source_url (models.metadata scheme).
Proof.
  rewrite answer_query_stages.
  destruct (prepare env query) as [t1 [[early|rs sc src]|e]] eqn:Ep;
    [| |discriminate].
  - rewrite bind_ok. simpl. intros H Hu Hne. injection H as _ <-.
    destruct (prepare_early _ _ _ Ep) as [-> | [-> | ->]];
      vm_compute in Hu; congruence.
  - rewrite bind_ok. simpl.
    destruct (candidate_answer env (strip query) rs src) as [t2 [a|e]];
      [|discriminate].
    rewrite bind_ok. simpl. intros H Hu Hne. injection H as _ <-.
    unfold finish in Hu. destruct (_contains_fake_data a).
    + vm_compute in Hu. congruence.
    + destruct (QueryAnswer_fields
                  (if negb (_has_source_url a) then a ++ source_line src else a)
                  src sc
                  (_determine_confidence rs
                     (if negb (_has_source_url a) then a ++ source_line src else a)))
        as (_ & Hs & _).
      rewrite Hs in Hu. injection Hu as <-.
      apply (prepare_ready _ _ _ _ _ Ep).
Qed.

End SourceFacts.

(** C2 fails on one path.  The store holds a record of the scheme named in
    the query whose own source is off the allow-list and that has no
    per-field sources.  The run calls the index, the store and the language
    model, and the reply carries that source, which does not pass
    [validate_url], with confidence high; the source of the search result it
    replaced does pass. *)
Theorem off_domain_scheme_source_returned :
  QueryAnswerer.answer_query
    (Example.env (Ok (lit "The latest NAV is 152.34 as of 01-02-2024."))
       [Example.off_domain_scheme])
    Example.nav_query =
    ([EvCount; EvQuery Example.nav_query 1; EvLoadSchemes;
      EvOracle
        [ mkMessage (lit "system") RAGSystem.system_prompt;
          mkMessage (lit "user")
            (RAGSystem.user_prompt Example.scheme_document Example.nav_query) ]],
     Ok (QueryAnswerer.QueryAnswer
           (lit "The latest NAV is 152.34 as of 01-02-2024." ++
            RAGSystem.source_line Example.off_domain_page)
           Example.off_domain_page (lit "NIMF_SMALL_CAP") (lit "high"))) /\
  Example.off_domain_page <> [] /\
  validate_url plain_netloc Example.off_domain_page = false /\
  validate_url plain_netloc Example.official_page = true.
Proof.
  split; [vm_compute; reflexivity|].
  split; [discriminate|].
  split; vm_compute; reflexivity.
Qed.

(* ================================================================== *)
(** * backend/query_backend.py: the query path is total                *)
(* ================================================================== *)

Section Totality.

Import QueryAnswerer RAGSystem.

Lemma QueryAnswer_well_formed answer source_url scheme_code confidence :
  confidence = lit "low" \/ confidence = lit "medium" \/ confidence = lit "high" ->
  well_formed (QueryAnswer answer source_url scheme_code confidence).
Proof.
  intros H. split; [apply QueryAnswer_keys|].
  exists confidence. split; [|exact H].
  apply QueryAnswer_fields.
Qed.

Lemma QueryAnswer_low answer source_url scheme_code :
  well_formed (QueryAnswer answer source_url scheme_code (lit "low")) /\
  QueryAnswer answer source_url scheme_code (lit "low") !! "confidence" = Some (lit "low").
Proof.
  split; [apply QueryAnswer_well_formed; left; reflexivity|].
  apply QueryAnswer_fields.
Qed.

Lemma determine_confidence_range search_results answer :
  _determine_confidence search_results answer = lit "low" \/
  _determine_confidence search_results answer = lit "medium" \/
  _determine_confidence search_results answer = lit "high".
Proof.
  destruct search_results as [|top others]; [left; reflexivity|].
  rewrite determine_confidence_unfold.
  destruct (near top && cited_and_clean answer); [right; right; reflexivity|].
  destruct (1 <=? length others)%nat; [right; left; reflexivity|].
  destruct (far top); [left|right; left]; reflexivity.
Qed.

Variable env : Env.

Lemma finish_well_formed search_results scheme_code source_url answer :
  well_formed (finish search_results scheme_code source_url answer).
Proof.
  unfold finish. destruct (_contains_fake_data answer).
  - exact (proj1 (QueryAnswer_low integrity_warning [] scheme_code)).
  - apply QueryAnswer_well_formed, determine_confidence_range.
Qed.

Lemma early_low query t reply :
  prepare env query = (t, Ok (Early reply)) ->
  well_formed reply /\ reply !! "confidence" = Some (lit "low").
Proof.
  intros H. destruct (prepare_early _ _ _ _ H) as [-> | [-> | ->]].
  - exact (QueryAnswer_low _ [] []).
  - exact (QueryAnswer_low _ [] []).
  - exact (QueryAnswer_low _ [] []).
Qed.

End Totality.

(** C7: [query_backend.answer_query] returns a reply for every query and
    every outcome of its collaborators, raised exceptions included; the
    reply has exactly the keys answer, source_url, scheme_code and
    confidence, with confidence low, medium or high.  The confidence is low
    on every failure branch: when the constructor or the query path raises
    (the reply is then the error message), when the first stage returns one
    of its fixed replies (query too short, no results, no valid source), and
    when the hallucination guard rejects the answer.  The only replies that
    are not such a failure come from the last return statement, on an answer
    that passed the guard. *)
Theorem query_path_total (env : Env) (query : list N) :
  exists trace reply,
    query_backend.answer_query env query = (trace, reply) /\
    well_formed reply /\
    (forall e, construct env = Raise e ->
       reply = query_backend.error_answer e /\
       reply !! "confidence" = Some (lit "low")) /\
    (forall t e, construct env = Ok tt ->
       QueryAnswerer.answer_query env query = (t, Raise e) ->
       reply = query_backend.error_answer e /\
       reply !! "confidence" = Some (lit "low")) /\
    (forall t early, construct env = Ok tt ->
       QueryAnswerer.prepare env query = (t, Ok (QueryAnswerer.Early early)) ->
       reply = early /\ reply !! "confidence" = Some (lit "low")) /\
    (forall t1 t2 search_results scheme_code source_url answer,
       construct env = Ok tt ->
       QueryAnswerer.prepare env query =
         (t1, Ok (QueryAnswerer.Ready search_results scheme_code source_url)) ->
       QueryAnswerer.candidate_answer env (strip query) search_results source_url =
         (t2, Ok answer) ->
       QueryAnswerer._contains_fake_data answer = true ->
       reply = QueryAnswerer.integrity_warning_answer scheme_code /\
       reply !! "confidence" = Some (lit "low")) /\
    (reply !! "confidence" = Some (lit "low") \/
     exists t1 t2 search_results scheme_code source_url answer,
       construct env = Ok tt /\
       QueryAnswerer.prepare env query =
         (t1, Ok (QueryAnswerer.Ready search_results scheme_code source_url)) /\
       QueryAnswerer.candidate_answer env (strip query) search_results source_url =
         (t2, Ok answer) /\
       QueryAnswerer._contains_fake_data answer = false /\
       reply = QueryAnswerer.finish search_results scheme_code source_url answer).
Proof.
  unfold query_backend.answer_query, call.
  destruct (construct env) as [[]|e0] eqn:Ec.
  2:{ rewrite bind_raise. eexists _, _. split; [reflexivity|].
      destruct (QueryAnswer_low (lit "Error processing query: " ++ e0) [] []) as [Hw Hl].
      split; [exact Hw|].
      split; [intros e He; injection He as <-; split; [reflexivity|exact Hl]|].
      split; [intros; discriminate|]. split; [intros; discriminate|].
      split; [intros; discriminate|]. left. exact Hl. }
  rewrite bind_ok.
  destruct (QueryAnswerer.answer_query env query) as [t [reply|e]] eqn:Ea; simpl.
  2:{ eexists _, _. split; [reflexivity|].
      destruct (QueryAnswer_low (lit "Error processing query: " ++ e) [] []) as [Hw Hl].
      split; [exact Hw|]. split; [intros; discriminate|].
      split; [intros t' e' _ H; injection H as _ <-; split; [reflexivity|exact Hl]|].
      rewrite answer_query_stages in Ea.
      split.
      { intros t' early _ Hp. rewrite Hp, bind_ok in Ea. discriminate Ea. }
      split; [|left; exact Hl].
      intros t1 t2 rs sc src a _ Hp Hcand _.
      rewrite Hp, bind_ok in Ea. simpl in Ea. rewrite Hcand, bind_ok in Ea.
      discriminate Ea. }
  exists ([EvConstruct] ++ t), reply. split; [reflexivity|].
  rewrite answer_query_stages in Ea.
  destruct (QueryAnswerer.prepare env query) as [t1 [[early|rs sc src]|e]] eqn:Ep;
    [| |discriminate].
  - rewrite bind_ok in Ea. simpl in Ea. injection Ea as _ <-.
    destruct (early_low _ _ _ _ Ep) as [Hw Hl].
    split; [exact Hw|]. split; [intros; discriminate|].
    split; [intros; discriminate|].
    split; [intros t' early' _ H; injection H as _ <-; split; [reflexivity|exact Hl]|].
    split; [intros; discriminate|]. left. exact Hl.
  - rewrite bind_ok in Ea. simpl in Ea.
    destruct (QueryAnswerer.candidate_answer env (strip query) rs src)
      as [t2 [a|e]] eqn:Ecand; [|discriminate].
    rewrite bind_ok in Ea. simpl in Ea. injection Ea as _ <-.
    split; [apply finish_well_formed|]. split; [intros; discriminate|].
    split; [intros; discriminate|]. split; [intros; discriminate|].
    split.
    + intros t1' t2' rs' sc' src' a' _ Hp Hcand Hfake.
      injection Hp as _ <- <- <-. rewrite Ecand in Hcand. injection Hcand as _ <-.
      rewrite (finish_flagged _ _ _ _ Hfake). split; [reflexivity|].
      exact (proj2 (QueryAnswer_low QueryAnswerer.integrity_warning [] sc)).
    + destruct (QueryAnswerer._contains_fake_data a) eqn:Ef.
      * left. rewrite (finish_flagged _ _ _ _ Ef).
        exact (proj2 (QueryAnswer_low QueryAnswerer.integrity_warning [] sc)).
      * right. exists t1, t2, rs, sc, src, a. repeat split; assumption.
Qed.
(* ================================================================== *)
(** * More of the query path: the guard and the citation test          *)
(* ================================================================== *)

Section GuardFacts.

Import QueryAnswerer RAGSystem.

Lemma contains_app_right (p s t : list N) :
  contains p t = true -> contains p (s ++ t) = true.
Proof.
  rewrite !contains_infix. intros (a & b & ->). exists (s ++ a), b.
  rewrite <- app_assoc. reflexivity.
Qed.

Lemma contains_app_left (p s t : list N) :
  contains p s = true -> contains p (s ++ t) = true.
Proof.
  rewrite !contains_infix. intros (a & b & ->). exists a, (b ++ t).
  rewrite <- !app_assoc. reflexivity.
Qed.

(** What a scan that flags the text has seen. *)
Lemma scan_indicators_flagged (indicators : list (list N)) (answer_lower : list N) :
  scan_indicators indicators answer_lower = true ->
  (exists i, In i indicators /\ contextual i = false /\
             contains i answer_lower = true) \/
  contains (lit "demo") answer_lower = true \/
  contains (lit "example") answer_lower = true.
Proof.
  induction indicators as [|j indicators IH]; [discriminate|].
  cbn [scan_indicators]. destruct (contains j answer_lower) eqn:Ej.
  - change (str_eqb j (lit "not available") || str_eqb j (lit "n/a"))
      with (contextual j).
    destruct (contextual j) eqn:Ec.
    + destruct (contains (lit "demo") answer_lower) eqn:Ed; [intros _; tauto|].
      destruct (contains (lit "example") answer_lower) eqn:Ee; [intros _; tauto|].
      simpl. intros H. destruct (IH H) as [(i & Hi & Hp & Hc)|[H'|H']];
        try discriminate.
      left. exists i. split; [right; exact Hi|]. split; assumption.
    + intros _. left. exists j. split; [left; reflexivity|]. split; assumption.
  - intros H. destruct (IH H) as [(i & Hi & Hp & Hc)|H']; [|right; exact H'].
    left. exists i. split; [right; exact Hi|]. split; assumption.
Qed.

End GuardFacts.

(** X1: [_contains_fake_data] flags an answer exactly when its lower-cased
    text contains one of the eight unconditional indicators (demo, example,
    sample, test data, placeholder, xxx, 000.00, tbd).  The two contextual
    entries, "not available" and "n/a", never decide: they only count next
    to "demo" or "example", which are flagged on their own. *)
Theorem contains_fake_data_iff (answer : list N) :
  QueryAnswerer._contains_fake_data answer = true <->
  exists indicator,
    In indicator [ lit "demo"; lit "example"; lit "sample"; lit "test data";
                   lit "placeholder"; lit "xxx"; lit "000.00"; lit "tbd" ] /\
    contains indicator (lower answer) = true.
Proof.
  unfold QueryAnswerer._contains_fake_data. split.
  - intros H. apply scan_indicators_flagged in H.
    destruct H as [(i & Hi & Hp & Hc)|[H|H]].
    + exists i. split; [|exact Hc].
      unfold QueryAnswerer.fake_indicators in Hi. simpl in Hi.
      destruct Hi as [<-|[<-|[<-|[<-|[<-|[<-|[<-|[<-|[<-|[<-|[]]]]]]]]]]];
        try (simpl; tauto); vm_compute in Hp; discriminate Hp.
    + exists (lit "demo"). split; [simpl; tauto|exact H].
    + exists (lit "example"). split; [simpl; tauto|exact H].
  - intros (i & Hi & Hc).
    apply (scan_indicators_hit _ _ i); [| |exact Hc].
    + unfold QueryAnswerer.fake_indicators. simpl in Hi |- *. tauto.
    + simpl in Hi.
      destruct Hi as [<-|[<-|[<-|[<-|[<-|[<-|[<-|[<-|[]]]]]]]]];
        vm_compute; reflexivity.
Qed.

(* ================================================================== *)
(** * The source marker and the citation test                          *)
(* ================================================================== *)

Section CitationFacts.

Import Re QueryAnswerer RAGSystem.

Lemma source_line_marker (source_url : list N) (s : list N) :
  contains (lit "source:") (lower (s ++ source_line source_url)) = true.
Proof.
  unfold lower. rewrite map_app. apply contains_app_right.
  unfold source_line. rewrite !map_app.
  apply contains_infix. exists [NL; NL], (lit " " ++ map lower_char source_url).
  reflexivity.
Qed.

Lemma index_head {A} (x : A) (l : list A) : index (x :: l) 0 = ret x.
Proof. reflexivity. Qed.

(** The fallback answer ends with the source line. *)
Lemma fallback_shape query top others source_url :
  exists body,
    _construct_fallback_answer query (top :: others) source_url =
      ([], Ok (body ++ source_line source_url)).
Proof.
  unfold _construct_fallback_answer. rewrite index_head, bind_ret_l.
  eexists. reflexivity.
Qed.

End CitationFacts.

(** X2: every candidate answer carries a source marker.  Whatever the
    language model replies, and also when its call raises and the fallback
    answer is built, the text that reaches the guard contains "source:" or
    "source url" (in any letter case): [generate_answer] appends the source
    line when the reply has neither, and the fallback always ends with it. *)
Theorem candidate_answer_has_source_marker (env : Env) (query : list N)
    (search_results : list RAGSystem.SearchResult) (source_url : list N)
    (t : list Event) (answer : list N) :
  QueryAnswerer.candidate_answer env query search_results source_url = (t, Ok answer) ->
  contains (lit "source:") (lower answer) = true \/
  contains (lit "source url") (lower answer) = true.
Proof.
  unfold QueryAnswerer.candidate_answer, RAGSystem.generate_answer,
    RAGSystem._call_openrouter, call, try_except.
  destruct (post_chat env _) as [text|e].
  - rewrite bind_ok. cbn [fst snd ret]. rewrite bind_ok.
    destruct (contains (lit "source:") (lower (strip text))) eqn:E1.
    { cbn. intros H. injection H as _ <-. left. exact E1. }
    destruct (contains (lit "source url") (lower (strip text))) eqn:E2.
    { cbn. intros H. injection H as _ <-. right. exact E2. }
    cbn. intros H. injection H as _ <-. left. apply source_line_marker.
  - rewrite bind_raise.
    destruct search_results as [|top others].
    + cbn. discriminate.
    + destruct (fallback_shape query top others source_url) as [body ->].
      intros H. injection H as _ <-. left. apply source_line_marker.
Qed.

Lemma candidate_answer_has_source_marker_witness :
  contains (lit "source:")
    (lower (lit "The NAV is 152.34." ++ RAGSystem.source_line Example.official_page)) = true \/
  contains (lit "source url")
    (lower (lit "The NAV is 152.34." ++ RAGSystem.source_line Example.official_page)) = true.
Proof.
  apply (candidate_answer_has_source_marker
           (Example.env (Ok (lit " The NAV is 152.34. ")) [])
           Example.nav_query [Example.result_at 0.2] Example.official_page
           [EvOracle
              [ mkMessage (lit "system") RAGSystem.system_prompt;
                mkMessage (lit "user")
                  (RAGSystem.user_prompt Example.scheme_document Example.nav_query) ]]).
  vm_compute. reflexivity.
Defined.

(* ================================================================== *)
(** * What the patterns match                                          *)
(* ================================================================== *)

Section RegexFacts.

Import Re.

Context {R : Type}.

Lemma run_seq (ic : bool) (r1 r2 : regex) (s : list N) (g : option (list N))
    (k : list N -> option (list N) -> option R) :
  run ic (Seq r1 r2) s g k = run ic r1 s g (fun s1 g1 => run ic r2 s1 g1 k).
Proof. reflexivity. Qed.

Lemma run_class (ic : bool) (p : N -> bool) (s : list N) (g : option (list N))
    (k : list N -> option (list N) -> option R) :
  run ic (Class p) s g k =
  match s with
  | x :: s' => if p x then k s' g else None
  | [] => None
  end.
Proof. reflexivity. Qed.

Lemma run_chr (ic : bool) (c : N) (s : list N) (g : option (list N))
    (k : list N -> option (list N) -> option R) :
  run ic (Chr c) s g k =
  match s with
  | x :: s' => if chr_matches ic c x then k s' g else None
  | [] => None
  end.
Proof. reflexivity. Qed.

Lemma run_opt (ic : bool) (r : regex) (s : list N) (g : option (list N))
    (k : list N -> option (list N) -> option R) :
  run ic (Opt r) s g k =
  match run ic r s g k with
  | Some m => Some m
  | None => k s g
  end.
Proof. reflexivity. Qed.

(** A case-sensitive literal word matches exactly the texts it begins. *)
Lemma run_word (w : list N) (s : list N) (g : option (list N))
    (k : list N -> option (list N) -> option R) :
  w <> [] ->
  run false (Word w) s g k =
  if startswith s w then k (drop (length w) s) g else None.
Proof.
  revert s. induction w as [|c w IH]; intros s Hw; [congruence|].
  destruct w as [|c' w].
  - cbn [Word run]. destruct s as [|x s]; [reflexivity|].
    unfold chr_matches. cbn [startswith].
    destruct (c =? x); reflexivity.
  - change (Word (c :: c' :: w)) with (Seq (Chr c) (Word (c' :: w))).
    cbn [run]. destruct s as [|x s]; [reflexivity|].
    unfold chr_matches. cbn [startswith].
    destruct (c =? x); [|reflexivity].
    rewrite IH by discriminate. reflexivity.
Qed.

(** A repetition followed by a continuation that accepts everything
    accepts. *)
Lemma run_star_total (ic greedy : bool) (r : regex) (s : list N)
    (g : option (list N)) (k : list N -> option (list N) -> option R) :
  (forall s' g', k s' g' <> None) ->
  run ic (Star greedy r) s g k <> None.
Proof.
  intros Hk. cbn [run]. generalize (length s) as n. intros n. revert s g.
  induction n as [|n IH]; intros s g; [apply Hk|].
  destruct greedy.
  - destruct (run ic r s g _) as [m|]; [discriminate|apply Hk].
  - destruct (k s g) as [m|] eqn:E; [discriminate|]. exfalso. apply (Hk s g E).
Qed.

End RegexFacts.

Section SearchFacts.

Import Re.

(** [re.search] finds a match exactly when the pattern matches at the head
    of some suffix of the text. *)
Lemma found_iff (ic : bool) (r : regex) (s : list N) :
  found ic r s = true <->
  exists pre suf, s = pre ++ suf /\ match_at ic r suf <> None.
Proof.
  unfold found. split.
  - induction s as [|x s IH]; cbn [search].
    + destruct (match_at ic r []) eqn:E; [|discriminate].
      intros _. exists [], []. split; [reflexivity|congruence].
    + destruct (match_at ic r (x :: s)) eqn:E.
      * intros _. exists [], (x :: s). split; [reflexivity|congruence].
      * intros H. destruct (IH H) as (pre & suf & -> & Hm).
        exists (x :: pre), suf. split; [reflexivity|exact Hm].
  - intros (pre & suf & -> & Hm). induction pre as [|x pre IH].
    + simpl. destruct suf as [|y suf]; cbn [search];
        destruct (match_at ic r _); congruence.
    + change ((x :: pre) ++ suf) with (x :: pre ++ suf). cbn [search].
      destruct (match_at ic r (x :: pre ++ suf)); [reflexivity|exact IH].
Qed.

End SearchFacts.

Section UrlPattern.

Import Re QueryAnswerer.

Lemma run_url_tail {R} (t : list N) (g : option (list N))
    (k : list N -> option (list N) -> option R) :
  (forall s' g', k s' g' <> None) ->
  run false (Seq (Word (lit "://")) (Plus true (Class (fun c => negb (is_space c))))) t g k
    <> None <-> tail_ok t.
Proof.
  intros Hk. rewrite run_seq, run_word by (vm_compute; discriminate).
  destruct (startswith t (lit "://")) eqn:E.
  - apply startswith_prefix in E as [u ->].
    rewrite drop_app_length'; [|reflexivity].
    unfold Plus. rewrite run_seq, run_class. destruct u as [|c u].
    + split; [congruence|]. intros (c & u & H & _).
      apply app_inv_head in H. discriminate.
    + destruct (is_space c) eqn:Ec; cbn [negb].
      * split; [congruence|]. intros (c' & u' & H & Hc).
        apply app_inv_head in H. injection H as <- <-. congruence.
      * split; [|intros _; apply run_star_total, Hk].
        intros _. exists c, u. split; [reflexivity|exact Ec].
  - split; [congruence|]. intros (c & u & -> & _).
    rewrite startswith_app in E. discriminate.
Qed.

Lemma match_at_url_pattern (s : list N) :
  match_at false url_pattern s <> None <->
  exists s1, s = lit "http" ++ s1 /\
             ((exists s2, s1 = 115 :: s2 /\ tail_ok s2) \/ tail_ok s1).
Proof.
  unfold match_at, url_pattern.
  rewrite run_seq, run_word by (vm_compute; discriminate).
  destruct (startswith s (lit "http")) eqn:E.
  2:{ split; [congruence|]. intros (s1 & -> & _).
      rewrite startswith_app in E. discriminate. }
  apply startswith_prefix in E as [s1 ->].
  rewrite drop_app_length'; [|reflexivity].
  set (k := fun (s' : list N) (g : option (list N)) =>
              Some (mkMatch (take (length (lit "http" ++ s1) - length s') (lit "http" ++ s1)) g s')).
  assert (Hk : forall s' g', k s' g' <> None) by (intros; discriminate).
  set (tail := Seq (Word (lit "://")) (Plus true (Class (fun c => negb (is_space c))))).
  pose proof (run_url_tail s1 None k Hk) as H1. fold tail in H1.
  rewrite run_seq, run_opt, run_chr.
  split.
  - intros H. exists s1. split; [reflexivity|].
    destruct s1 as [|x s2].
    + right. apply H1. exact H.
    + unfold chr_matches in H. destruct (N.eqb_spec 115 x) as [<-|Hx].
      * destruct (run false tail s2 None k) eqn:E2.
        -- left. exists s2. split; [reflexivity|].
           apply (run_url_tail s2 None k Hk). fold tail. congruence.
        -- right. apply H1. exact H.
      * right. apply H1. exact H.
  - intros (s1' & Hs & Hcase). apply app_inv_head in Hs. subst s1'.
    destruct Hcase as [(s2 & -> & Ht)|Ht].
    + unfold chr_matches. rewrite N.eqb_refl.
      apply (run_url_tail s2 None k Hk) in Ht. fold tail in Ht.
      destruct (run false tail s2 None k); [discriminate|contradiction].
    + apply H1 in Ht.
      destruct s1 as [|x s2]; [exact Ht|].
      unfold chr_matches. destruct (115 =? x); [|exact Ht].
      destruct (run false tail s2 None k); [discriminate|exact Ht].
Qed.

End UrlPattern.

Lemma cites_url_found (answer : list N) :
  cites_url answer -> QueryAnswerer._has_source_url answer = true.
Proof.
  unfold QueryAnswerer._has_source_url. rewrite found_iff.
  intros (pre & c & post & Hc & [->| ->]).
  - exists pre, (lit "http://" ++ c :: post). split; [reflexivity|].
    apply match_at_url_pattern. exists (lit "://" ++ c :: post).
    split; [reflexivity|]. right. exists c, post. split; [reflexivity|exact Hc].
  - exists pre, (lit "https://" ++ c :: post). split; [reflexivity|].
    apply match_at_url_pattern. exists (115 :: lit "://" ++ c :: post).
    split; [reflexivity|]. left. exists (lit "://" ++ c :: post).
    split; [reflexivity|]. exists c, post. split; [reflexivity|exact Hc].
Qed.

(** X3: [_has_source_url] holds exactly for the texts that contain
    [http://] or [https://] followed by at least one character that is not
    whitespace; a bare "Source:" line without such a URL, or a scheme
    followed by a blank, is not a citation. *)
Theorem has_source_url_iff (answer : list N) :
  QueryAnswerer._has_source_url answer = true <-> cites_url answer.
Proof.
  split; [|apply cites_url_found].
  unfold QueryAnswerer._has_source_url. rewrite found_iff. unfold cites_url.
  intros (pre & suf & -> & Hm). apply match_at_url_pattern in Hm.
  destruct Hm as (s1 & -> & [(s2 & -> & c & u & -> & Hc)|(c & u & -> & Hc)]).
  - exists pre, c, u. split; [exact Hc|]. right. reflexivity.
  - exists pre, c, u. split; [exact Hc|]. left. reflexivity.
Qed.

(** X4: a reply of the last return statement cites its source.  When the
    answer passes the guard and the source starts with [http://] or
    [https://] followed by a character that is not whitespace, the returned
    answer text contains a URL: either the answer had one, or the source
    line was appended to it. *)
Theorem finish_cites_source (search_results : list RAGSystem.SearchResult)
    (scheme_code source_url answer : list N) :
  QueryAnswerer._contains_fake_data answer = false ->
  cites_url source_url ->
  exists text,
    QueryAnswerer.finish search_results scheme_code source_url answer !! "answer"
      = Some text /\
    QueryAnswerer._has_source_url text = true /\
    (text = answer \/ text = answer ++ RAGSystem.source_line source_url) /\
    QueryAnswerer.finish search_results scheme_code source_url answer !! "source_url"
      = Some source_url.
Proof.
  intros Hclean Hsrc. unfold QueryAnswerer.finish. rewrite Hclean.
  destruct (QueryAnswerer._has_source_url answer) eqn:E; cbn [negb].
  - exists answer. split; [apply QueryAnswer_fields|].
    split; [exact E|]. split; [left; reflexivity|apply QueryAnswer_fields].
  - exists (answer ++ RAGSystem.source_line source_url).
    split; [apply QueryAnswer_fields|]. split.
    + apply cites_url_found.
      destruct Hsrc as (pre & c & post & Hc & Hs).
      exists (answer ++ [NL; NL] ++ lit "Source: " ++ pre), c, post.
      split; [exact Hc|]. unfold RAGSystem.source_line.
      destruct Hs as [->| ->]; [left|right]; rewrite <- !app_assoc; reflexivity.
    + split; [right; reflexivity|apply QueryAnswer_fields].
Qed.

Lemma finish_cites_source_witness :
  exists text,
    QueryAnswerer.finish [Example.result_at 0.2] (lit "NIMF_SMALL_CAP")
      Example.official_page (lit "The NAV is 152.34. Source: official site")
      !! "answer" = Some text /\
    QueryAnswerer._has_source_url text = true /\
    (text = lit "The NAV is 152.34. Source: official site" \/
     text = lit "The NAV is 152.34. Source: official site" ++
            RAGSystem.source_line Example.official_page) /\
    QueryAnswerer.finish [Example.result_at 0.2] (lit "NIMF_SMALL_CAP")
      Example.official_page (lit "The NAV is 152.34. Source: official site")
      !! "source_url" = Some Example.official_page.
Proof.
  apply (finish_cites_source [Example.result_at 0.2] (lit "NIMF_SMALL_CAP")
           Example.official_page (lit "The NAV is 152.34. Source: official site")).
  - vm_compute. reflexivity.
  - exists [], 109, (lit "f.nipponindiaim.com/FundsAndPerformance/Pages/NipponIndia-Small-Cap-Fund.aspx").
    split; [reflexivity|]. right. reflexivity.
Defined.

(* ================================================================== *)
(** * backend/rag_system.py: what [search] does with the index         *)
(* ================================================================== *)

Section SearchRows.

Import RAGSystem.

Lemma index_pure {A} (l : list A) (i : nat) : fst (index l i) = [].
Proof. unfold index. destruct (l !! i); reflexivity. Qed.

Lemma bind_pure {A B} (m : M A) (f : A -> M B) :
  fst m = [] -> (forall a, fst (f a) = []) -> fst (bind m f) = [].
Proof.
  destruct m as [t [a|e]]; simpl; intros -> Hf; [|reflexivity].
  specialize (Hf a). destruct (f a) as [t' r]. simpl in *. exact Hf.
Qed.

Lemma mapM_pure {A B} (f : A -> M B) (l : list A) :
  (forall x, fst (f x) = []) -> fst (mapM f l) = [].
Proof.
  intros Hf. induction l as [|x l IH]; [reflexivity|].
  cbn [mapM]. apply bind_pure; [apply Hf|]. intros y.
  apply bind_pure; [exact IH|]. reflexivity.
Qed.

(** Formatting makes no outside call. *)
Lemma format_results_pure (results : QueryResult) :
  fst (format_results results) = [].
Proof.
  unfold format_results. destruct (documents results) as [|documents0 more];
    [reflexivity|].
  destruct (0 <? length documents0)%nat; [|reflexivity].
  apply mapM_pure. intros i.
  apply bind_pure; [apply index_pure|]. intros doc.
  apply bind_pure; [apply index_pure|]. intros metadatas0.
  apply bind_pure; [apply index_pure|]. intros meta.
  apply bind_pure; [|reflexivity].
  destruct (distances results) as [ds|]; [|reflexivity].
  apply bind_pure; [apply index_pure|]. intros ds0.
  apply bind_pure; [apply index_pure|]. reflexivity.
Qed.

(** [search], case by case on what the index does. *)
Lemma search_unfold (env : Env) (query : list N) (n_results : nat) :
  search env query n_results =
  match collection_count env with
  | Raise _ => ([EvCount], Ok [])
  | Ok O => ([EvCount], Ok [])
  | Ok (S count) =>
      let query_count := Nat.min n_results (S count) in
      match collection_query env query query_count with
      | Raise _ => ([EvCount; EvQuery query query_count], Ok [])
      | Ok results =>
          ([EvCount; EvQuery query query_count], snd (format_results results))
      end
  end.
Proof.
  unfold search, call, try_except.
  destruct (collection_count env) as [[|count]|e]; try reflexivity.
  cbn -[Nat.min format_results].
  destruct (collection_query env query _) as [results|e]; [|reflexivity].
  cbn -[Nat.min format_results].
  pose proof (format_results_pure results) as Hp.
  destruct (format_results results) as [t r]. simpl in Hp. subst t.
  reflexivity.
Qed.

Lemma search_nothing (env : Env) (query : list N) :
  index_gives_nothing env query ->
  exists t, search env query 5 = (t, Ok []) /\
            (t = [EvCount] \/ exists n, t = [EvCount; EvQuery query n]).
Proof.
  rewrite search_unfold.
  intros [[e He]|[H0|(count & Hc & Hq)]].
  - rewrite He. eexists. split; [reflexivity|left; reflexivity].
  - rewrite H0. eexists. split; [reflexivity|left; reflexivity].
  - rewrite Hc. cbv zeta.
    destruct Hq as [[e He]|(results & Hr & Hd)].
    + rewrite He. eexists. split; [reflexivity|right; eexists; reflexivity].
    + rewrite Hr. eexists. split; [|right; eexists; reflexivity].
      f_equal. unfold format_results.
      destruct Hd as [->|[more ->]]; reflexivity.
Qed.

End SearchRows.

(** X5: when the vector index gives nothing, because counting raises or
    counts no document, or because the query raises or returns no document,
    an accepted query gets the fixed no-information reply with an empty
    source and confidence low; the index is the only collaborator called:
    neither the scheme store nor the language model is reached. *)
Theorem index_failure_no_information (env : Env) (query : list N) :
  (3 <= length (strip query))%nat ->
  index_gives_nothing env (strip query) ->
  exists t,
    QueryAnswerer.answer_query env query = (t, Ok QueryAnswerer.no_information_answer) /\
    (t = [EvCount] \/ exists n, t = [EvCount; EvQuery (strip query) n]) /\
    QueryAnswerer.no_information_answer !! "source_url" = Some [] /\
    QueryAnswerer.no_information_answer !! "confidence" = Some (lit "low").
Proof.
  intros Hlen Hidx. destruct (search_nothing env _ Hidx) as (t & Hs & Ht).
  exists t. split; [|split; [exact Ht|split; reflexivity]].
  unfold QueryAnswerer.answer_query.
  assert (Hq : truthy query = true).
  { destruct query; [simpl in Hlen; lia|reflexivity]. }
  apply Nat.ltb_ge in Hlen. rewrite Hq, Hlen. cbn [negb orb].
  rewrite Hs, bind_ok. cbn. rewrite app_nil_r. reflexivity.
Qed.

Lemma index_failure_no_information_witness :
  exists t,
    QueryAnswerer.answer_query
      (mkEnv plain_netloc (Ok tt) (Ok 3%nat)
         (fun _ _ => Raise (lit "index unavailable"))
         (fun _ => Ok (lit "unused")) (Ok []))
      Example.nav_query = (t, Ok QueryAnswerer.no_information_answer) /\
    (t = [EvCount] \/ exists n, t = [EvCount; EvQuery (strip Example.nav_query) n]) /\
    QueryAnswerer.no_information_answer !! "source_url" = Some [] /\
    QueryAnswerer.no_information_answer !! "confidence" = Some (lit "low").
Proof.
  apply (index_failure_no_information
           (mkEnv plain_netloc (Ok tt) (Ok 3%nat)
              (fun _ _ => Raise (lit "index unavailable"))
              (fun _ => Ok (lit "unused")) (Ok []))
           Example.nav_query).
  - vm_compute. lia.
  - right. right. exists 2%nat. split; [reflexivity|].
    left. eexists. reflexivity.
Defined.

Section FormatRows.

Import RAGSystem.

Lemma mapM_ret {A B} (f : A -> M B) (g : A -> B) (l : list A) :
  (forall x, In x l -> f x = ret (g x)) -> mapM f l = ret (map g l).
Proof.
  induction l as [|x l IH]; intros H; [reflexivity|].
  cbn [mapM map]. rewrite (H x) by (left; reflexivity). rewrite bind_ret_l.
  rewrite IH by (intros y Hy; apply H; right; exact Hy).
  rewrite bind_ret_l. reflexivity.
Qed.

(** A raise of [mapM] is the raise of one of the calls. *)
Lemma mapM_raise {A B} (f : A -> M B) (l : list A) (t : list Event) (e : list N) :
  mapM f l = (t, Raise e) -> exists x t', In x l /\ f x = (t', Raise e).
Proof.
  revert t. induction l as [|x l IH]; intros t; [discriminate|].
  cbn [mapM]. destruct (f x) as [t1 [y|e1]] eqn:Ef.
  - rewrite bind_ok. destruct (mapM f l) as [t2 [ys|e2]] eqn:Em.
    + rewrite bind_ok. discriminate.
    + rewrite bind_raise. cbn. intros H. injection H as _ <-.
      destruct (IH t2 eq_refl) as (x' & t' & Hin & Hx').
      exists x', t'. split; [right; exact Hin|exact Hx'].
  - rewrite bind_raise. intros H. injection H as _ <-.
    exists x, t1. split; [left; reflexivity|exact Ef].
Qed.

Lemma mapM_ok {A B} (f : A -> M B) (l : list A) (t : list Event) (ys : list B) :
  mapM f l = (t, Ok ys) -> forall x, In x l -> exists t' y, f x = (t', Ok y).
Proof.
  revert t ys. induction l as [|x l IH]; intros t ys H z Hz; [destruct Hz|].
  cbn [mapM] in H. destruct (f x) as [t1 [y|e1]] eqn:Ef; [|discriminate].
  rewrite bind_ok in H. destruct (mapM f l) as [t2 [ys'|e2]] eqn:Em;
    [|rewrite bind_raise in H; discriminate].
  destruct Hz as [<-|Hz]; [eauto|]. apply (IH _ _ eq_refl _ Hz).
Qed.

Lemma index_ok {A} (l : list A) (i : nat) (x : A) :
  l !! i = Some x -> index l i = ret x.
Proof. unfold index. intros ->. reflexivity. Qed.

Lemma index_raise {A} (l : list A) (i : nat) :
  (length l <= i)%nat -> index l i = raise (lit "list index out of range").
Proof. unfold index. intros H. rewrite lookup_ge_None_2 by exact H. reflexivity. Qed.

Lemma format_results_unfold (results : QueryResult) :
  format_results results =
  match documents results with
  | [] => ret []
  | documents0 :: _ =>
      if (0 <? length documents0)%nat
      then mapM (format_row results documents0) (seq 0 (length documents0))
      else ret []
  end.
Proof. reflexivity. Qed.

Lemma format_row_lined_up results documents0 more i :
  documents results = documents0 :: more -> lined_up results ->
  (i < length documents0)%nat ->
  format_row results documents0 i = ret (row results i).
Proof.
  intros Hd [Hm Hdist] Hi. unfold format_row, row. rewrite Hd in *.
  change (default [] (head (documents0 :: more))) with documents0 in *.
  destruct (lookup_lt_is_Some_2 documents0 i Hi) as [doc Hdoc].
  rewrite (index_ok _ _ _ Hdoc), bind_ret_l, Hdoc.
  destruct (metadatas results) as [|metadatas0 mmore]; [simpl in Hm; lia|].
  change (default [] (head (metadatas0 :: mmore))) with metadatas0 in *.
  rewrite (index_ok (metadatas0 :: mmore) 0 metadatas0 eq_refl), bind_ret_l.
  assert (Hi' : (i < length metadatas0)%nat) by lia.
  destruct (lookup_lt_is_Some_2 metadatas0 i Hi') as [meta Hmeta].
  rewrite (index_ok _ _ _ Hmeta), bind_ret_l, Hmeta.
  destruct (distances results) as [[|ds0 dmore]|]; [simpl in Hdist; lia| |].
  - change (default [] (head (ds0 :: dmore))) with ds0 in *.
    rewrite (index_ok (ds0 :: dmore) 0 ds0 eq_refl), bind_ret_l.
    assert (Hi'' : (i < length ds0)%nat) by lia.
    destruct (lookup_lt_is_Some_2 ds0 i Hi'') as [d Hdd].
    rewrite (index_ok _ _ _ Hdd), !bind_ret_l, Hdd. reflexivity.
  - rewrite bind_ret_l. reflexivity.
Qed.

Lemma format_row_raises results documents0 i t e :
  format_row results documents0 i = (t, Raise e) ->
  e = lit "list index out of range".
Proof.
  unfold format_row, index.
  destruct (documents0 !! i); [rewrite bind_ret_l|cbn; congruence].
  destruct (metadatas results !! 0%nat) as [m0|]; [rewrite bind_ret_l|cbn; congruence].
  destruct (m0 !! i); [rewrite bind_ret_l|cbn; congruence].
  destruct (distances results) as [ds|]; [|rewrite bind_ret_l; discriminate].
  destruct (ds !! 0%nat) as [ds0|]; [rewrite bind_ret_l|cbn; congruence].
  destruct (ds0 !! i); [rewrite !bind_ret_l; discriminate|cbn; congruence].
Qed.

(** Rows that line up are zipped. *)
Lemma format_results_lined_up results :
  lined_up results ->
  format_results results =
  ret (map (row results) (seq 0 (length (default [] (head (documents results)))))).
Proof.
  intros H. rewrite format_results_unfold.
  destruct (documents results) as [|documents0 more] eqn:Hd; [reflexivity|].
  simpl. destruct documents0 as [|d documents0]; [reflexivity|].
  change (0 <? length (d :: documents0))%nat with true. cbv iota.
  apply mapM_ret. intros i Hi. apply in_seq in Hi.
  apply (format_row_lined_up _ _ more); [exact Hd|exact H|lia].
Qed.

(** A raise of the formatting means ragged rows. *)
Lemma format_results_raise_ragged results t e :
  format_results results = (t, Raise e) ->
  ragged results /\ e = lit "list index out of range".
Proof.
  rewrite format_results_unfold.
  destruct (documents results) as [|documents0 more] eqn:Hd; [discriminate|].
  destruct documents0 as [|d documents0]; [discriminate|].
  change (0 <? length (d :: documents0))%nat with true. cbv iota.
  intros Em. destruct (mapM_raise _ _ _ _ Em) as (i & t' & Hin & Hi).
  split; [|apply (format_row_raises _ _ _ _ _ Hi)].
  apply in_seq in Hin. exists (d :: documents0), more.
  split; [exact Hd|]. split; [discriminate|].
  unfold format_row in Hi.
  destruct (lookup_lt_is_Some_2 (d :: documents0) i ltac:(lia)) as [doc Hdoc].
  rewrite (index_ok _ _ _ Hdoc), bind_ret_l in Hi.
  destruct (metadatas results) as [|m0 mmore];
    [left; simpl in *; lia|].
  rewrite (index_ok (m0 :: mmore) 0 m0 eq_refl), bind_ret_l in Hi.
  destruct (m0 !! i) as [meta|] eqn:Hmeta.
  2:{ left. simpl. apply lookup_ge_None_1 in Hmeta. simpl in *. lia. }
  rewrite (index_ok _ _ _ Hmeta), bind_ret_l in Hi.
  destruct (distances results) as [[|ds0 dmore]|] eqn:Hdist.
  - right. exists []. split; [reflexivity|]. simpl in *. lia.
  - rewrite (index_ok (ds0 :: dmore) 0 ds0 eq_refl), bind_ret_l in Hi.
    destruct (ds0 !! i) as [dd|] eqn:Hdd.
    + rewrite (index_ok _ _ _ Hdd), !bind_ret_l in Hi. discriminate Hi.
    + right. exists (ds0 :: dmore). split; [reflexivity|].
      apply lookup_ge_None_1 in Hdd. simpl in *. lia.
  - rewrite !bind_ret_l in Hi. discriminate Hi.
Qed.

(** Ragged rows raise. *)
Lemma format_results_ragged results :
  ragged results ->
  format_results results = raise (lit "list index out of range").
Proof.
  intros (documents0 & more & Hd & Hne & Hshort).
  pose proof (format_results_pure results) as Hp.
  destruct (format_results results) as [t [rs|e]] eqn:Em; simpl in Hp; subst t.
  2:{ destruct (format_results_raise_ragged _ _ _ Em) as [_ ->]. reflexivity. }
  exfalso. rewrite format_results_unfold, Hd in Em.
  destruct documents0 as [|d documents0]; [congruence|].
  change (0 <? length (d :: documents0))%nat with true in Em. cbv iota in Em.
  assert (Hall : forall i, (i < length (d :: documents0))%nat ->
            exists t' y, format_row results (d :: documents0) i = (t', Ok y)).
  { intros i Hi. apply (mapM_ok _ _ _ _ Em). apply in_seq. lia. }
  destruct Hshort as [Hm|(distance_rows & Hdist & Hl)].
  - destruct (Hall (length (default [] (head (metadatas results)))) Hm)
      as (t' & y & Hy).
    unfold format_row in Hy.
    destruct (lookup_lt_is_Some_2 (d :: documents0) _ Hm) as [doc Hdoc].
    rewrite (index_ok _ _ _ Hdoc), bind_ret_l in Hy.
    destruct (metadatas results) as [|m0 mmore]; [discriminate Hy|].
    rewrite (index_ok (m0 :: mmore) 0 m0 eq_refl), bind_ret_l in Hy.
    simpl in Hy. rewrite index_raise in Hy by lia. discriminate Hy.
  - destruct (Hall (length (default [] (head distance_rows))) Hl)
      as (t' & y & Hy).
    unfold format_row in Hy. rewrite Hdist in Hy.
    destruct (index (d :: documents0) _) as [t1 [doc|e1]]; [|discriminate Hy].
    rewrite bind_ok in Hy.
    destruct (index (metadatas results) 0) as [t2 [m0|e2]]; [|discriminate Hy].
    rewrite bind_ok in Hy.
    destruct (index m0 _) as [t3 [meta|e3]]; [|discriminate Hy].
    rewrite bind_ok in Hy.
    destruct distance_rows as [|ds0 dmore]; [discriminate Hy|].
    rewrite (index_ok (ds0 :: dmore) 0 ds0 eq_refl), bind_ret_l in Hy.
    simpl in Hy. rewrite index_raise in Hy by lia. discriminate Hy.
Qed.

End FormatRows.

(** X6: [search] asks the index for [min(n_results, count)] results and
    zips the first rows of what comes back: when the rows line up, it
    returns one result per document, the i-th holding the i-th document,
    metadata and distance (no distance when the index gives none); when a
    metadata or distance row is shorter than the document row, the lookup
    raises "list index out of range" out of [search], past both of its
    handlers. *)
Theorem search_zips_rows (env : Env) (query : list N) (n_results count : nat)
    (results : QueryResult) :
  collection_count env = Ok (S count) ->
  collection_query env query (Nat.min n_results (S count)) = Ok results ->
  (lined_up results ->
   RAGSystem.search env query n_results =
     ([EvCount; EvQuery query (Nat.min n_results (S count))],
      Ok (map (row results)
            (seq 0 (length (default [] (head (documents results)))))))) /\
  (ragged results ->
   RAGSystem.search env query n_results =
     ([EvCount; EvQuery query (Nat.min n_results (S count))],
      Raise (lit "list index out of range"))).
Proof.
  intros Hc Hq. rewrite search_unfold, Hc. cbv zeta. rewrite Hq. split.
  - intros H. rewrite (format_results_lined_up _ H). reflexivity.
  - intros H. rewrite (format_results_ragged _ H). reflexivity.
Qed.

Lemma search_zips_rows_witness :
  RAGSystem.search (Example.env (Ok (lit "unused")) []) Example.nav_query 5 =
    ([EvCount; EvQuery Example.nav_query 1], Ok [Example.result_at 0.2]) /\
  RAGSystem.search
    (mkEnv plain_netloc (Ok tt) (Ok 2%nat)
       (fun _ _ => Ok (mkQueryResult [[Example.scheme_document; Example.scheme_document]]
                         [[Example.scheme_metadata]] None))
       (fun _ => Ok (lit "unused")) (Ok []))
    Example.nav_query 5 =
    ([EvCount; EvQuery Example.nav_query 2], Raise (lit "list index out of range")).
Proof.
  split.
  - apply (search_zips_rows (Example.env (Ok (lit "unused")) []) Example.nav_query
             5 0 Example.index_hit eq_refl eq_refl).
    split; simpl; lia.
  - apply (search_zips_rows
             (mkEnv plain_netloc (Ok tt) (Ok 2%nat)
                (fun _ _ => Ok (mkQueryResult
                                  [[Example.scheme_document; Example.scheme_document]]
                                  [[Example.scheme_metadata]] None))
                (fun _ => Ok (lit "unused")) (Ok []))
             Example.nav_query 5 1 _ eq_refl eq_refl).
    exists [Example.scheme_document; Example.scheme_document], [].
    split; [reflexivity|]. split; [discriminate|]. left. simpl. lia.
Defined.

(* ================================================================== *)
(** * The outside calls of a query and its exceptions                  *)
(* ================================================================== *)

Section QueryRuns.

Import RAGSystem QueryAnswerer.

(** [search] returns either nothing or the formatted rows of one query for
    between one and five results. *)
Lemma search_run (env : Env) (query : list N) :
  (exists t, search env query 5 = (t, Ok []) /\
             (t = [EvCount] \/ exists n, t = [EvCount; EvQuery query n] /\
                                         (1 <= n <= 5)%nat)) \/
  (exists count results,
     collection_count env = Ok (S count) /\
     collection_query env query (Nat.min 5 (S count)) = Ok results /\
     search env query 5 =
       ([EvCount; EvQuery query (Nat.min 5 (S count))],
        snd (format_results results))).
Proof.
  rewrite search_unfold.
  destruct (collection_count env) as [[|count]|e].
  - left. eexists. split; [reflexivity|left; reflexivity].
  - cbv zeta. destruct (collection_query env query _) as [results|e] eqn:Hq.
    + right. exists count, results. repeat split. exact Hq.
    + left. eexists. split; [reflexivity|]. right. eexists.
      split; [reflexivity|lia].
  - left. eexists. split; [reflexivity|left; reflexivity].
Qed.

(** The scheme lookup calls the store at most once, and raises only what
    the store raises. *)
Lemma resolve_scheme_run (env : Env) (query : list N) (top : SearchResult)
    (source_url : list N) :
  (exists p, resolve_scheme env query top source_url = ([], Ok p)) \/
  (exists p, resolve_scheme env query top source_url = ([EvLoadSchemes], Ok p)) \/
  (exists e, resolve_scheme env query top source_url = ([EvLoadSchemes], Raise e) /\
             stored_schemes env = Raise e).
Proof.
  unfold resolve_scheme.
  destruct (_extract_scheme_name query) as [scheme_name|];
    [|left; eexists; reflexivity].
  destruct (truthy scheme_name); [|left; eexists; reflexivity].
  right. unfold DataLoader.get_scheme_by_name, DataLoader.load_all_schemes, call.
  rewrite bind_assoc.
  destruct (stored_schemes env) as [all_schemes|e].
  - left. rewrite bind_ok.
    match goal with
    | |- exists p, (_ ++ fst ?m, snd ?m) = _ =>
        assert (Hpure : exists p, m = ([], Ok p)); [|destruct Hpure as [p ->]; exists p; reflexivity]
    end.
    repeat (destruct (find _ all_schemes) as [scheme|];
            [rewrite bind_ret_l;
             destruct (models.field_sources scheme) as [sources|];
             [destruct (bool_decide (sources = ∅))|]; eexists; reflexivity|]).
    rewrite bind_ret_l. eexists. reflexivity.
  - right. exists e. split; reflexivity.
Qed.

(** With a first result at hand the candidate answer never raises: a
    failure of the language model is answered by the fallback. *)
Lemma candidate_answer_run (env : Env) (query : list N) (top : SearchResult)
    (others : list SearchResult) (source_url : list N) :
  exists answer,
    candidate_answer env query (top :: others) source_url =
      ([EvOracle (chat_messages query (top :: others))], Ok answer).
Proof.
  unfold candidate_answer, generate_answer, _call_openrouter, call, try_except.
  fold (chat_messages query (top :: others)).
  destruct (post_chat env _) as [text|e].
  - rewrite bind_ok. cbn [fst snd ret]. rewrite bind_ok.
    destruct (negb _ && negb _); eexists; reflexivity.
  - rewrite bind_raise.
    destruct (fallback_shape query top others source_url) as [body ->].
    eexists. reflexivity.
Qed.

Lemma answer_query_run (env : Env) (query : list N) :
  Run env query (fst (answer_query env query)) (snd (answer_query env query)).
Proof.
  unfold answer_query.
  destruct (negb (truthy query) || (length (strip query) <? 3)%nat);
    [apply RunGuidance|].
  destruct (search_run env (strip query))
    as [(t & -> & Ht)|(count & results & Hc & Hq & ->)].
  { rewrite bind_ok. cbn. rewrite app_nil_r. apply RunNothing. exact Ht. }
  assert (Hn : (1 <= Nat.min 5 (S count) <= 5)%nat) by lia.
  destruct (format_results results) as [tf [rows|e]] eqn:Hf; cbn [snd].
  2:{ rewrite bind_raise. cbn [fst snd].
      destruct (format_results_raise_ragged _ _ _ Hf) as [Hr ->].
      apply (RunRagged env query count results Hc Hq Hr). }
  rewrite bind_ok.
  destruct rows as [|top others].
  { cbn. apply RunNothing. right. eexists. split; [reflexivity|exact Hn]. }
  destruct (negb (valid_source env (select_source_url env top (top :: others)))).
  { cbn. apply RunInvalidSource. exact Hn. }
  destruct (resolve_scheme_run env (strip query) top
              (select_source_url env top (top :: others)))
    as [[[code url] ->]|[[[code url] ->]|(e & -> & He)]].
  - rewrite bind_ok.
    destruct (candidate_answer_run env (strip query) top others url) as [answer ->].
    rewrite bind_ok. cbn [fst snd ret app].
    apply (RunAnswered env query _ [] top others _ Hn). left. reflexivity.
  - rewrite bind_ok.
    destruct (candidate_answer_run env (strip query) top others url) as [answer ->].
    rewrite bind_ok. cbn [fst snd ret app].
    apply (RunAnswered env query _ [EvLoadSchemes] top others _ Hn).
    right. reflexivity.
  - rewrite bind_raise. cbn [fst snd app].
    apply (RunStoreRaises env query _ e Hn He).
Qed.

End QueryRuns.

(** X7: [answer_query] lets an exception out in two cases only: the index
    returned ragged rows (a metadata or distance row shorter than the
    document row), which raises "list index out of range" in [search], or
    loading the stored schemes raised while a scheme named in the query was
    looked up.  A failure of the language model is never among them: the
    fallback answer takes over. *)
Theorem answer_query_raises_only (env : Env) (query : list N) (t : list Event)
    (e : list N) :
  QueryAnswerer.answer_query env query = (t, Raise e) ->
  (e = lit "list index out of range" /\
   exists count results,
     collection_count env = Ok (S count) /\
     collection_query env (strip query) (Nat.min 5 (S count)) = Ok results /\
     ragged results /\
     t = [EvCount; EvQuery (strip query) (Nat.min 5 (S count))]) \/
  (stored_schemes env = Raise e /\
   exists n, t = [EvCount; EvQuery (strip query) n; EvLoadSchemes]).
Proof.
  intros H. pose proof (answer_query_run env query) as HR.
  rewrite H in HR. cbn [fst snd] in HR.
  inversion HR as [| | count results Hc Hq Hr | | n e' Hn He |]; subst.
  - left. split; [reflexivity|]. exists count, results. repeat split; assumption.
  - right. split; [exact He|]. exists n. reflexivity.
Qed.

Lemma answer_query_raises_only_witness :
  (lit "store unreadable" = lit "list index out of range" /\
   exists count results,
     collection_count (mkEnv plain_netloc (Ok tt) (Ok 1%nat)
        (fun _ _ => Ok Example.index_hit) (fun _ => Raise (lit "no key"))
        (Raise (lit "store unreadable"))) = Ok (S count) /\
     collection_query (mkEnv plain_netloc (Ok tt) (Ok 1%nat)
        (fun _ _ => Ok Example.index_hit) (fun _ => Raise (lit "no key"))
        (Raise (lit "store unreadable")))
       (strip (lit "Nippon India Small Cap Fund NAV")) (Nat.min 5 (S count)) = Ok results /\
     ragged results /\
     [EvCount; EvQuery (lit "Nippon India Small Cap Fund NAV") 1; EvLoadSchemes] =
     [EvCount; EvQuery (strip (lit "Nippon India Small Cap Fund NAV")) (Nat.min 5 (S count))]) \/
  (stored_schemes (mkEnv plain_netloc (Ok tt) (Ok 1%nat)
        (fun _ _ => Ok Example.index_hit) (fun _ => Raise (lit "no key"))
        (Raise (lit "store unreadable"))) = Raise (lit "store unreadable") /\
   exists n, [EvCount; EvQuery (lit "Nippon India Small Cap Fund NAV") 1; EvLoadSchemes] =
             [EvCount; EvQuery (strip (lit "Nippon India Small Cap Fund NAV")) n; EvLoadSchemes]).
Proof.
  apply (answer_query_raises_only
           (mkEnv plain_netloc (Ok tt) (Ok 1%nat)
              (fun _ _ => Ok Example.index_hit) (fun _ => Raise (lit "no key"))
              (Raise (lit "store unreadable")))
           (lit "Nippon India Small Cap Fund NAV")).
  vm_compute. reflexivity.
Defined.

Section QueryCalls.

Import RAGSystem QueryAnswerer.



End QueryCalls.


(* ================================================================== *)
(** * storage/data_store.py: what the chunks hold                       *)
(* ================================================================== *)

Section ChunkContents.

Variable md5_hexdigest : list N -> list N.
Variable now : nat -> Z.
Variables chunk_size overlap : Z.
Variables scheme_code content chunk_type source_url : list N.
Variable metadata : option (gmap string (list N)).

Hypothesis overlap_bounds : (0 <= overlap < chunk_size)%Z.

Let stride : nat := Z.to_nat (chunk_size - overlap).
Let passes := DataStore.chunk_loop md5_hexdigest now chunk_size overlap
              scheme_code content chunk_type source_url metadata.

(** The text of the chunk built at a start position inside the text. *)
Lemma make_chunk_content (start : nat) (chunk_index : nat) :
  models.content
    (DataStore.make_chunk md5_hexdigest now chunk_size scheme_code content
       chunk_type source_url metadata (Z.of_nat start) chunk_index) =
  take (Z.to_nat chunk_size) (drop start content).
Proof.
  cbn [DataStore.make_chunk models.content].
  rewrite slice_window by lia. rewrite Nat2Z.id. reflexivity.
Qed.

Lemma chunk_loop_nat fuel (start : nat) chunk_index :
  passes (S fuel) (Z.of_nat start) chunk_index =
  if (start <? length content)%nat
  then option_map
         (cons (DataStore.make_chunk md5_hexdigest now chunk_size scheme_code content
                  chunk_type source_url metadata (Z.of_nat start) chunk_index))
         (passes fuel (Z.of_nat (start + stride)) (S chunk_index))
  else Some [].
Proof.
  unfold passes. cbn [DataStore.chunk_loop].
  replace (DataStore.next_start chunk_size overlap (Z.of_nat start))
    with (Z.of_nat (start + stride)) by (unfold DataStore.next_start, stride; lia).
  destruct (Z.ltb_spec (Z.of_nat start) (Z.of_nat (length content)));
    destruct (Nat.ltb_spec start (length content)); try lia; reflexivity.
Qed.

(** The first [chunk_size - overlap] characters of the chunks, one after
    the other, are the text from the first start position on. *)
Lemma chunk_loop_covers fuel :
  forall (start : nat) chunk_index chunks,
    passes fuel (Z.of_nat start) chunk_index = Some chunks ->
    concat (map (fun chunk => take stride (models.content chunk)) chunks) =
    drop start content.
Proof.
  induction fuel as [|fuel IH]; intros start chunk_index chunks H; [discriminate|].
  rewrite chunk_loop_nat in H.
  destruct (Nat.ltb_spec start (length content)) as [Hlt|Hge].
  - destruct (passes fuel _ _) as [rest|] eqn:E; [|discriminate].
    injection H as <-. cbn [map concat].
    rewrite (IH _ _ _ E), make_chunk_content.
    rewrite take_take, Nat.min_l by (unfold stride; lia).
    rewrite <- drop_drop. apply take_drop.
  - injection H as <-. rewrite drop_ge by lia. reflexivity.
Qed.

(** Every chunk holds between one and [chunk_size] characters, and what a
    chunk holds beyond its first [chunk_size - overlap] characters opens the
    next chunk. *)
Lemma chunk_loop_windows fuel :
  forall (start : nat) chunk_index chunks,
    passes fuel (Z.of_nat start) chunk_index = Some chunks ->
    (forall i chunk, chunks !! i = Some chunk ->
       models.content chunk =
         take (Z.to_nat chunk_size) (drop (start + i * stride) content) /\
       (start + i * stride < length content)%nat) /\
    (length content <= start + length chunks * stride)%nat.
Proof.
  induction fuel as [|fuel IH]; intros start chunk_index chunks H; [discriminate|].
  rewrite chunk_loop_nat in H.
  destruct (Nat.ltb_spec start (length content)) as [Hlt|Hge].
  - destruct (passes fuel _ _) as [rest|] eqn:E; [|discriminate].
    injection H as <-. destruct (IH _ _ _ E) as [Hnth Hlen]. split.
    + intros [|i] chunk Hi; cbn in Hi.
      * injection Hi as <-. rewrite make_chunk_content.
        replace (start + 0 * stride)%nat with start by lia. split; [reflexivity|lia].
      * destruct (Hnth _ _ Hi) as [-> Hin].
        replace (start + S i * stride)%nat with (start + stride + i * stride)%nat by lia.
        split; [reflexivity|exact Hin].
    + cbn [length]. lia.
  - injection H as <-. split.
    + intros i chunk Hi. rewrite lookup_nil in Hi. discriminate.
    + cbn [length]. lia.
Qed.

End ChunkContents.

(** X9: the chunks of a text, with the configured sizes (1000 characters,
    200 of overlap).  [create_text_chunks] returns chunks such that
    - the first 800 characters of the chunks, one after the other, are the
      text: nothing is lost and nothing is reordered;
    - every chunk holds between 1 and 1000 characters, the i-th being the
      window of the text that starts at character 800 i;
    - what a chunk holds after its first 800 characters is how the next
      chunk begins (the overlap);
    - there is one chunk per 800 characters, rounded up. *)
Theorem create_text_chunks_cover (md5_hexdigest : list N -> list N) (now : nat -> Z)
    (scheme_code content chunk_type source_url : list N)
    (metadata : option (gmap string (list N))) :
  exists chunks,
    DataStore.create_text_chunks md5_hexdigest now scheme_code content chunk_type
      source_url metadata = Some chunks /\
    concat (map (fun chunk => take 800 (models.content chunk)) chunks) = content /\
    (forall i chunk, chunks !! i = Some chunk ->
       models.content chunk = take 1000 (drop (800 * i) content) /\
       (1 <= length (models.content chunk) <= 1000)%nat) /\
    (forall i chunk next, chunks !! i = Some chunk -> chunks !! S i = Some next ->
       drop 800 (models.content chunk) = take 200 (models.content next)) /\
    length chunks = ((length content + 799) / 800)%nat.
Proof.
  destruct (create_text_chunks_returns md5_hexdigest now scheme_code content
              chunk_type source_url metadata) as [chunks H].
  exists chunks. split; [exact H|].
  unfold DataStore.create_text_chunks, DataStore.create_text_chunks_fuel in H.
  assert (Hb : (0 <= config.CHUNK_OVERLAP < config.CHUNK_SIZE)%Z)
    by (unfold config.CHUNK_OVERLAP, config.CHUNK_SIZE; lia).
  pose proof (chunk_loop_covers md5_hexdigest now _ _ scheme_code content chunk_type
                source_url metadata Hb _ 0%nat 0%nat chunks H) as Hcover.
  destruct (chunk_loop_windows md5_hexdigest now _ _ scheme_code content chunk_type
              source_url metadata Hb _ 0%nat 0%nat chunks H) as [Hwin Hlen].
  change (Z.to_nat (config.CHUNK_SIZE - config.CHUNK_OVERLAP)) with 800%nat in *.
  change (Z.to_nat config.CHUNK_SIZE) with 1000%nat in *.
  assert (Hat : forall i chunk, chunks !! i = Some chunk ->
            models.content chunk = take 1000 (drop (800 * i) content) /\
            (800 * i < length content)%nat).
  { intros i chunk Hi. destruct (Hwin i chunk Hi) as [Hc Hin].
    replace (800 * i)%nat with (0 + i * 800)%nat by lia. split; assumption. }
  split; [exact Hcover|]. split; [|split].
  - intros i chunk Hi. destruct (Hat i chunk Hi) as [Hc Hin].
    split; [exact Hc|]. rewrite Hc, length_take, length_drop. lia.
  - intros i chunk next Hi Hn.
    destruct (Hat i chunk Hi) as [-> _]. destruct (Hat (S i) next Hn) as [-> _].
    rewrite take_take. change (200 `min` 1000)%nat with 200%nat.
    replace (800 * S i)%nat with (800 * i + 800)%nat by lia.
    rewrite <- drop_drop.
    generalize (drop (800 * i) content). intros l.
    rewrite skipn_firstn_comm. reflexivity.
  - destruct (length chunks) as [|n] eqn:En.
    + assert (length content = 0)%nat as -> by lia. reflexivity.
    + destruct (lookup_lt_is_Some_2 chunks n ltac:(lia)) as [chunk Hi].
      destruct (Hat n chunk Hi) as [_ Hin].
      apply Nat.div_unique with (r := (length content + 799 - 800 * S n)%nat); lia.
Qed.

(* ================================================================== *)
(** * The choice of the source and the scheme lookup                   *)
(* ================================================================== *)

Section SourceChoice.

Import RAGSystem QueryAnswerer.

Variable env : Env.

(** The selected source is valid exactly when some result has a valid one. *)
Lemma select_source_url_valid (top : SearchResult) (others : list SearchResult) :
  valid_source env (select_source_url env top (top :: others)) = true <->
  exists result, In result (top :: others) /\
                 valid_source env (source_of result) = true.
Proof.
  unfold select_source_url. fold (source_of top).
  destruct (valid_source env (source_of top)) eqn:Etop; cbn [negb].
  - rewrite Etop. split; [|reflexivity]. intros _.
    exists top. split; [left; reflexivity|exact Etop].
  - change (map (fun result => get_or_empty (metadata result) "source_url"))
      with (map source_of).
    destruct (find (valid_source env) (map source_of (top :: others)))
      as [url|] eqn:Ef.
    + destruct (find_some _ _ Ef) as [Hin Hv]. rewrite Hv.
      split; [|reflexivity]. intros _.
      apply in_map_iff in Hin. destruct Hin as (result & <- & Hin).
      exists result. split; assumption.
    + rewrite Etop. split; [discriminate|].
      intros (result & Hin & Hv).
      rewrite (find_none _ _ Ef (source_of result)) in Hv; [discriminate|].
      apply in_map. exact Hin.
Qed.

End SourceChoice.

(** X10: the invalid-source reply.  For an accepted query whose search
    returns results, [answer_query] stops with the fixed invalid-source
    reply, without looking up a scheme or calling the language model,
    exactly when no result carries a source URL that is non-empty and
    passes [validate_url]; one valid source among the results, whatever
    its rank, is enough to go on. *)
Theorem invalid_source_reply_iff (env : Env) (query : list N) (t : list Event)
    (top : RAGSystem.SearchResult) (others : list RAGSystem.SearchResult) :
  (3 <= length (strip query))%nat ->
  RAGSystem.search env (strip query) 5 = (t, Ok (top :: others)) ->
  QueryAnswerer.answer_query env query = (t, Ok QueryAnswerer.invalid_source_answer) <->
  forall result, In result (top :: others) ->
    QueryAnswerer.valid_source env (source_of result) = false.
Proof.
  intros Hlen Hs. unfold QueryAnswerer.answer_query.
  assert (Hq : truthy query = true).
  { destruct query; [simpl in Hlen; lia|reflexivity]. }
  apply Nat.ltb_ge in Hlen. rewrite Hq, Hlen. cbn [negb orb].
  rewrite Hs, bind_ok.
  pose proof (select_source_url_valid env top others) as Hsel.
  destruct (QueryAnswerer.valid_source env
              (QueryAnswerer.select_source_url env top (top :: others))) eqn:Ev;
    cbn [negb].
  - split.
    + intros H. exfalso.
      destruct (resolve_scheme_run env (strip query) top
                  (QueryAnswerer.select_source_url env top (top :: others)))
        as [[[code url] Hr]|[[[code url] Hr]|(e & Hr & He)]];
        rewrite Hr in H.
      * rewrite bind_ok in H.
        destruct (candidate_answer_run env (strip query) top others url) as [answer Hc].
        rewrite Hc, bind_ok in H. cbn [fst snd ret app] in H.
        apply (f_equal fst) in H. cbn [fst] in H.
        apply (f_equal (@length Event)) in H. rewrite length_app in H.
        cbn [length] in H. lia.
      * rewrite bind_ok in H.
        destruct (candidate_answer_run env (strip query) top others url) as [answer Hc].
        rewrite Hc, bind_ok in H. cbn [fst snd ret app] in H.
        apply (f_equal fst) in H. cbn [fst] in H.
        apply (f_equal (@length Event)) in H. rewrite length_app in H.
        cbn [length] in H. lia.
      * rewrite bind_raise in H. cbn [fst snd] in H. discriminate H.
    + intros Hall. destruct (proj1 Hsel eq_refl) as (result & Hin & Hv).
      rewrite (Hall result Hin) in Hv. discriminate Hv.
  - split.
    + intros _ result Hin.
      destruct (QueryAnswerer.valid_source env (source_of result)) eqn:Er;
        [|reflexivity].
      assert (Habs : false = true); [|discriminate Habs].
      apply (proj2 Hsel). exists result. split; assumption.
    + intros _. cbn. rewrite app_nil_r. reflexivity.
Qed.

Lemma invalid_source_reply_iff_witness :
  QueryAnswerer.answer_query
    (mkEnv plain_netloc (Ok tt) (Ok 1%nat)
       (fun _ _ => Ok (mkQueryResult [[Example.scheme_document]] [[∅]] None))
       (fun _ => Ok (lit "unused")) (Ok []))
    Example.nav_query =
    ([EvCount; EvQuery Example.nav_query 1], Ok QueryAnswerer.invalid_source_answer) <->
  forall result,
    In result [RAGSystem.mkSearchResult Example.scheme_document ∅ None] ->
    QueryAnswerer.valid_source
      (mkEnv plain_netloc (Ok tt) (Ok 1%nat)
         (fun _ _ => Ok (mkQueryResult [[Example.scheme_document]] [[∅]] None))
         (fun _ => Ok (lit "unused")) (Ok []))
      (source_of result) = false.
Proof.
  apply (invalid_source_reply_iff
           (mkEnv plain_netloc (Ok tt) (Ok 1%nat)
              (fun _ _ => Ok (mkQueryResult [[Example.scheme_document]] [[∅]] None))
              (fun _ => Ok (lit "unused")) (Ok []))
           Example.nav_query [EvCount; EvQuery Example.nav_query 1]
           (RAGSystem.mkSearchResult Example.scheme_document ∅ None) []).
  - vm_compute. lia.
  - vm_compute. reflexivity.
Defined.

Section SchemeLookup.

Variable env : Env.
Variable all_schemes : list models.SchemeData.
Hypothesis stored : stored_schemes env = Ok all_schemes.

Let exact (name : list N) (scheme : models.SchemeData) : bool :=
  str_eqb (stored_name scheme) (lower name).
Let partial (name : list N) (scheme : models.SchemeData) : bool :=
  contains (lower name) (stored_name scheme).
Let by_words (name : list N) (scheme : models.SchemeData) : bool :=
  bool_decide (DataLoader.word_set (lower name) ⊆ DataLoader.word_set (stored_name scheme)) ||
  (2 <=? size (DataLoader.word_set (lower name) ∩
               DataLoader.word_set (stored_name scheme)))%nat.

(** The three passes over the stored schemes. *)
Lemma get_scheme_by_name_passes (name : list N) :
  DataLoader.get_scheme_by_name env name =
  ([EvLoadSchemes],
   Ok (match find (exact name) all_schemes with
       | Some scheme => Some scheme
       | None =>
           match find (partial name) all_schemes with
           | Some scheme => Some scheme
           | None => find (by_words name) all_schemes
           end
       end)).
Proof.
  unfold DataLoader.get_scheme_by_name, DataLoader.load_all_schemes, call.
  rewrite stored, bind_ok.
  change (find (fun scheme => str_eqb (lower (models.scheme_name (models.metadata scheme)))
                                (lower name)) all_schemes)
    with (find (exact name) all_schemes).
  destruct (find (exact name) all_schemes); [reflexivity|].
  change (find (fun scheme => contains (lower name)
                                (lower (models.scheme_name (models.metadata scheme))))
               all_schemes)
    with (find (partial name) all_schemes).
  destruct (find (partial name) all_schemes); reflexivity.
Qed.

Lemma exact_partial name scheme : exact name scheme = true -> partial name scheme = true.
Proof.
  unfold exact, partial. intros H. apply str_eqb_eq in H. rewrite H.
  apply contains_infix. exists [], []. rewrite app_nil_r. reflexivity.
Qed.

Lemma partial_related name scheme : partial name scheme = true -> related name scheme.
Proof. intros H. left. exact H. Qed.

Lemma by_words_related name scheme : by_words name scheme = true <->
  DataLoader.word_set (lower name) ⊆ DataLoader.word_set (stored_name scheme) \/
  (2 <= size (DataLoader.word_set (lower name) ∩
              DataLoader.word_set (stored_name scheme)))%nat.
Proof.
  unfold by_words. rewrite orb_true_iff, bool_decide_eq_true, Nat.leb_le. reflexivity.
Qed.

Lemma related_passes name scheme :
  related name scheme <-> partial name scheme = true \/ by_words name scheme = true.
Proof. unfold related. rewrite by_words_related. reflexivity. Qed.

Lemma find_first {A} (f : A -> bool) (before : list A) (x : A) (after : list A) :
  (forall y, In y before -> f y = false) -> f x = true ->
  find f (before ++ x :: after) = Some x.
Proof.
  intros Hb Hx. induction before as [|y before IH]; cbn [app find].
  - rewrite Hx. reflexivity.
  - rewrite (Hb y) by (left; reflexivity). apply IH.
    intros z Hz. apply Hb. right. exact Hz.
Qed.

Lemma get_scheme_by_name_exact (name : list N) before scheme after :
  all_schemes = before ++ scheme :: after ->
  stored_name scheme = lower name ->
  (forall other, In other before -> stored_name other <> lower name) ->
  DataLoader.get_scheme_by_name env name = ([EvLoadSchemes], Ok (Some scheme)).
Proof.
  intros Hall Hname Hbefore. rewrite get_scheme_by_name_passes, Hall.
  rewrite find_first; [reflexivity| |].
  - intros other Hin. unfold exact.
    destruct (str_eqb (stored_name other) (lower name)) eqn:E; [|reflexivity].
    apply str_eqb_eq in E. destruct (Hbefore other Hin E).
  - unfold exact. apply str_eqb_eq. exact Hname.
Qed.

Lemma get_scheme_by_name_found (name : list N) :
  exists found,
    DataLoader.get_scheme_by_name env name = ([EvLoadSchemes], Ok found) /\
    match found with
    | Some scheme => In scheme all_schemes /\ related name scheme
    | None => forall scheme, In scheme all_schemes -> ~ related name scheme
    end.
Proof.
  rewrite get_scheme_by_name_passes. eexists. split; [reflexivity|].
  destruct (find (exact name) all_schemes) as [scheme|] eqn:E1.
  { destruct (find_some _ _ E1) as [Hin Hx]. split; [exact Hin|].
    apply partial_related, exact_partial, Hx. }
  destruct (find (partial name) all_schemes) as [scheme|] eqn:E2.
  { destruct (find_some _ _ E2) as [Hin Hx]. split; [exact Hin|].
    apply partial_related, Hx. }
  destruct (find (by_words name) all_schemes) as [scheme|] eqn:E3.
  { destruct (find_some _ _ E3) as [Hin Hx]. split; [exact Hin|].
    apply related_passes. right. exact Hx. }
  intros scheme Hin Hrel. apply related_passes in Hrel.
  rewrite (find_none _ _ E2 scheme Hin), (find_none _ _ E3 scheme Hin) in Hrel.
  destruct Hrel; discriminate.
Qed.

End SchemeLookup.

(** X11: the scheme lookup by name prefers an exact match.  The first
    stored scheme whose name equals the given name, letter case aside, is
    returned, also when schemes stored before it contain the name or share
    words with it. *)
Theorem get_scheme_by_name_exact_first (env : Env)
    (before : list models.SchemeData) (scheme : models.SchemeData)
    (after : list models.SchemeData) (name : list N) :
  stored_schemes env = Ok (before ++ scheme :: after) ->
  stored_name scheme = lower name ->
  (forall other, In other before -> stored_name other <> lower name) ->
  DataLoader.get_scheme_by_name env name = ([EvLoadSchemes], Ok (Some scheme)).
Proof.
  intros Hs Hname Hbefore.
  exact (get_scheme_by_name_exact env _ Hs name before scheme after eq_refl
           Hname Hbefore).
Qed.

(** X12: the scheme lookup by name finds a scheme exactly when a stored
    scheme is related to the name: the scheme returned is a stored one whose
    name contains the given name, or has all its words, or shares two words
    with it (all in lower case); nothing is returned only when no stored
    scheme is related in one of these ways. *)
Theorem get_scheme_by_name_related (env : Env) (all_schemes : list models.SchemeData)
    (name : list N) :
  stored_schemes env = Ok all_schemes ->
  exists found,
    DataLoader.get_scheme_by_name env name = ([EvLoadSchemes], Ok found) /\
    match found with
    | Some scheme => In scheme all_schemes /\ related name scheme
    | None => forall scheme, In scheme all_schemes -> ~ related name scheme
    end.
Proof.
  intros Hs. exact (get_scheme_by_name_found env all_schemes Hs name).
Qed.

Lemma get_scheme_by_name_exact_first_witness :
  DataLoader.get_scheme_by_name
    (Example.env (Ok (lit "unused")) [Stored.small_cap_direct; Stored.small_cap])
    (lit "NIPPON INDIA SMALL CAP FUND") =
  ([EvLoadSchemes], Ok (Some Stored.small_cap)).
Proof.
  apply (get_scheme_by_name_exact_first
           (Example.env (Ok (lit "unused")) [Stored.small_cap_direct; Stored.small_cap])
           [Stored.small_cap_direct] Stored.small_cap []
           (lit "NIPPON INDIA SMALL CAP FUND")).
  - reflexivity.
  - vm_compute. reflexivity.
  - intros other [<-|[]]. vm_compute. discriminate.
Defined.

Lemma get_scheme_by_name_related_witness :
  exists found,
    DataLoader.get_scheme_by_name
      (Example.env (Ok (lit "unused")) [Stored.large_cap; Stored.small_cap])
      (lit "small cap") = ([EvLoadSchemes], Ok found) /\
    match found with
    | Some scheme =>
        In scheme [Stored.large_cap; Stored.small_cap] /\ related (lit "small cap") scheme
    | None =>
        forall scheme, In scheme [Stored.large_cap; Stored.small_cap] ->
                       ~ related (lit "small cap") scheme
    end.
Proof.
  apply (get_scheme_by_name_related
           (Example.env (Ok (lit "unused")) [Stored.large_cap; Stored.small_cap])
           [Stored.large_cap; Stored.small_cap] (lit "small cap")).
  reflexivity.
Defined.

Section BrandWords.

Import Re QueryAnswerer.

Lemma brand_words_distinct : lit "nippon" <> lit "india".
Proof. vm_compute. discriminate. Qed.

(** Two names with the words of the brand share two words. *)
Lemma brand_words_shared (name other : list N) :
  has_brand_words name -> has_brand_words other ->
  (2 <= size (DataLoader.word_set (lower name) ∩ DataLoader.word_set (lower other)))%nat.
Proof.
  intros [Hn Hi] [Hn' Hi'].
  assert (Hsub : ({[ lit "nippon" ]} ∪ {[ lit "india" ]} : gset (list N)) ⊆
                 DataLoader.word_set (lower name) ∩ DataLoader.word_set (lower other)).
  { intros w Hw. apply elem_of_union in Hw.
    destruct Hw as [Hw|Hw]; apply elem_of_singleton in Hw; subst w;
      apply elem_of_intersection; split; assumption. }
  apply subseteq_size in Hsub.
  rewrite size_union, !size_singleton in Hsub; [exact Hsub|].
  intros w Hw Hw'. apply elem_of_singleton in Hw, Hw'. subst w.
  apply brand_words_distinct. exact Hw'.
Qed.

(** The name built from a match of the pattern has the words of the brand. *)
Lemma built_name_brand_words (captured : list N) :
  has_brand_words (lit "Nippon India " ++ captured ++ lit " Fund").
Proof.
  unfold has_brand_words, DataLoader.word_set, lower.
  rewrite map_app.
  assert (Hw : exists rest,
    split_ws (map lower_char (lit "Nippon India ") ++
              map lower_char (captured ++ lit " Fund")) =
    lit "nippon" :: lit "india" :: rest).
  { eexists. vm_compute. reflexivity. }
  destruct Hw as [rest ->].
  split; apply elem_of_list_to_set.
  - apply elem_of_cons. left. reflexivity.
  - apply elem_of_cons. right. apply elem_of_cons. left. reflexivity.
Qed.

End BrandWords.

(** X13: a query that names a fund of the house always resolves to a
    stored scheme.  When the query matches the pattern "Nippon India ...
    Fund" (or ends the name with a question mark or the end of the text), the
    name looked up is "Nippon India <captured words> Fund"; as soon as one
    stored scheme has the words nippon and india in its name, the lookup
    returns a stored scheme, whatever fund the query names: sharing these
    two words is enough for the last pass of the lookup. *)
Theorem named_fund_always_resolved (env : Env) (query : list N) (m : Re.Match)
    (all_schemes : list models.SchemeData) (scheme : models.SchemeData) :
  Re.search true QueryAnswerer.scheme_name_pattern query = Some m ->
  stored_schemes env = Ok all_schemes ->
  In scheme all_schemes ->
  has_brand_words (models.scheme_name (models.metadata scheme)) ->
  exists name found,
    QueryAnswerer._extract_scheme_name query = Some name /\
    name = lit "Nippon India " ++ strip (default [] (Re.group1 m)) ++ lit " Fund" /\
    DataLoader.get_scheme_by_name env name = ([EvLoadSchemes], Ok (Some found)) /\
    In found all_schemes.
Proof.
  intros Hm Hs Hin Hbrand.
  unfold QueryAnswerer._extract_scheme_name. rewrite Hm.
  eexists. 
  destruct (get_scheme_by_name_found env all_schemes Hs
              (lit "Nippon India " ++ strip (default [] (Re.group1 m)) ++ lit " Fund"))
    as ([found|] & Hfound & Hrel).
  - exists found. split; [reflexivity|]. split; [reflexivity|].
    split; [exact Hfound|exact (proj1 Hrel)].
  - exfalso. apply (Hrel scheme Hin). right. right.
    apply brand_words_shared; [apply built_name_brand_words|exact Hbrand].
Qed.

Lemma named_fund_always_resolved_witness :
  exists name found,
    QueryAnswerer._extract_scheme_name (lit "What is the NAV of Nippon India Pharma Fund?") =
      Some name /\
    name = lit "Nippon India " ++ strip (default [] (Some (lit "Pharma"))) ++ lit " Fund" /\
    DataLoader.get_scheme_by_name
      (Example.env (Ok (lit "unused")) [Stored.large_cap; Stored.small_cap]) name =
      ([EvLoadSchemes], Ok (Some found)) /\
    In found [Stored.large_cap; Stored.small_cap].
Proof.
  apply (named_fund_always_resolved
           (Example.env (Ok (lit "unused")) [Stored.large_cap; Stored.small_cap])
           (lit "What is the NAV of Nippon India Pharma Fund?")
           (Re.mkMatch (lit "Nippon India Pharma Fund") (Some (lit "Pharma")) (lit "?"))
           [Stored.large_cap; Stored.small_cap] Stored.large_cap).
  - vm_compute. reflexivity.
  - reflexivity.
  - left. reflexivity.
  - split; apply elem_of_list_to_set; vm_compute;
      [apply elem_of_cons; left; reflexivity|
       apply elem_of_cons; right; apply elem_of_cons; left; reflexivity].
Defined.

(* ================================================================== *)
(** * scraper/url_validator.py: normalize_url                           *)
(* ================================================================== *)

Lemma validate_url_allowed_netloc (urlparse_netloc : list N -> Result (list N))
    (url : list N) :
  validate_url urlparse_netloc url = true <->
  exists netloc, urlparse_netloc url = Ok netloc /\
                 host_allowed (lower netloc) config.ALLOWED_DOMAINS.
Proof.
  unfold validate_url, validate_url_with, host_allowed.
  destruct (urlparse_netloc url) as [netloc|e].
  - rewrite existsb_exists. split.
    + intros (d & Hin & Hd). exists netloc. split; [reflexivity|].
      exists d. split; [exact Hin|]. apply domain_allowed_spec, Hd.
    + intros (netloc' & Heq & d & Hin & Hd). injection Heq as <-.
      exists d. split; [exact Hin|]. apply domain_allowed_spec, Hd.
  - split; [discriminate|]. intros (netloc & Heq & _). discriminate.
Qed.

(** X14: [normalize_url] hands out official URLs only.  An empty URL gives
    [None] without any parsing; a URL that begins with "http" is taken as
    it is, whatever the base; any other URL is joined to the base, when a
    non-empty base is given.  Whenever a URL is returned it passed
    [validate_url]: its network location is one of the configured domains
    or a subdomain of one; every other URL gives [None]. *)
Theorem normalize_url_official_only
    (urlparse_netloc : list N -> Result (list N))
    (urljoin : list N -> list N -> Result (list N))
    (url : list N) (base_url : option (list N)) :
  normalize_url urlparse_netloc urljoin [] base_url = Ok None /\
  (startswith url (lit "http") = true ->
   normalize_url urlparse_netloc urljoin url base_url =
     Ok (if validate_url urlparse_netloc url then Some url else None)) /\
  (forall normalized,
     normalize_url urlparse_netloc urljoin url base_url = Ok (Some normalized) ->
     (exists netloc, urlparse_netloc normalized = Ok netloc /\
                     host_allowed (lower netloc) config.ALLOWED_DOMAINS) /\
     (normalized = url \/
      exists base, base_url = Some base /\ base <> [] /\
                   startswith url (lit "http") = false /\
                   urljoin base url = Ok normalized)).
Proof.
  split; [reflexivity|]. split.
  - intros Hhttp. unfold normalize_url.
    destruct url as [|c url]; [discriminate Hhttp|]. cbn [truthy negb].
    destruct base_url as [base|].
    + rewrite Hhttp. cbn [negb]. rewrite andb_false_r.
      destruct (validate_url urlparse_netloc (c :: url)); reflexivity.
    + destruct (validate_url urlparse_netloc (c :: url)); reflexivity.
  - intros normalized. unfold normalize_url.
    destruct (truthy url); cbn [negb]; [|discriminate].
    destruct base_url as [base|].
    + destruct (truthy base && negb (startswith url (lit "http"))) eqn:Ej.
      * destruct (urljoin base url) as [joined|e] eqn:Eu; [|discriminate].
        destruct (validate_url urlparse_netloc joined) eqn:Ev; [|discriminate].
        intros H. injection H as <-.
        split; [apply validate_url_allowed_netloc, Ev|].
        right. exists base. apply andb_true_iff in Ej as [Hb Hs].
        apply negb_true_iff in Hs.
        repeat split; try assumption. destruct base; [discriminate Hb|discriminate].
      * destruct (validate_url urlparse_netloc url) eqn:Ev; [|discriminate].
        intros H. injection H as <-.
        split; [apply validate_url_allowed_netloc, Ev|left; reflexivity].
    + destruct (validate_url urlparse_netloc url) eqn:Ev; [|discriminate].
      intros H. injection H as <-.
      split; [apply validate_url_allowed_netloc, Ev|left; reflexivity].
Qed.

(* ================================================================== *)
(** * scraper/validator.py: validate_scheme                             *)
(* ================================================================== *)

Section ValidateSchemeFacts.

Import Validation.

Lemma leb_zero_cases (x : float) :
  (0 <=? x)%float = true -> (x =? 0)%float = true \/ (0 <? x)%float = true.
Proof.
  rewrite FloatAxioms.leb_spec, FloatAxioms.eqb_spec, FloatAxioms.ltb_spec.
  replace (Prim2SF 0) with (S754_zero false) by (vm_compute; reflexivity).
  unfold SFleb, SFeqb, SFltb.
  destruct (Prim2SF x) as [s|s| |s m e]; try destruct s; cbn; intros H;
    try discriminate H; auto.
Qed.

Lemma validate_scheme_name_valid (stored_name : list N) (soup : NipponScraper.Soup) :
  valid (_validate_scheme_name stored_name soup) = true <->
  name_on_page stored_name (NipponScraper.get_text soup).
Proof.
  unfold _validate_scheme_name, name_on_page. cbn [valid].
  rewrite orb_true_iff, existsb_exists. split.
  - intros [H|(word & Hin & Hw)]; [left; exact H|right].
    apply filter_In in Hin as [Hin Hlen]. apply Nat.ltb_lt in Hlen.
    exists word. repeat split; assumption.
  - intros [H|(word & Hin & Hlen & Hw)]; [left; exact H|right].
    exists word. split; [|exact Hw]. apply filter_In.
    split; [exact Hin|]. apply Nat.ltb_lt. exact Hlen.
Qed.

End ValidateSchemeFacts.

Section ValidateSchemeVerdict.

Import Validation.

Lemma nav_given_positive (scheme_data : models.SchemeData) (nav : float) :
  nav_not_negative scheme_data ->
  nav_given (models.current_nav scheme_data) = Some nav ->
  (0 <? nav)%float = true.
Proof.
  unfold nav_not_negative, nav_given.
  destruct (models.current_nav scheme_data) as [x|]; [|discriminate].
  intros Hle. destruct (x =? 0)%float eqn:E0; [discriminate|].
  intros H. injection H as <-.
  destruct (leb_zero_cases x Hle) as [H|H]; [congruence|exact H].
Qed.

Lemma status_distinct :
  lit "valid" <> lit "partial" /\ lit "valid" <> lit "invalid" /\
  lit "partial" <> lit "invalid".
Proof. repeat split; vm_compute; discriminate. Qed.

End ValidateSchemeVerdict.

(** X15: the verdict of [validate_scheme].  For a scheme whose stored NAV
    is absent or not negative the call returns a result (it does not
    raise), never with status skipped, as validation is enabled:
    - when the page cannot be fetched, the status is error and no check is
      recorded;
    - otherwise the status is valid exactly when the name check, the type
      check and, for a stored NAV that is not zero, the NAV check all pass;
      invalid exactly when none of them passes; and partial in between.
    The name check passes as soon as the page mentions the stored name or
    any one of its words of more than three characters; the type check
    when the page mentions the stored type; the NAV check when a value on
    the page is within one percent of the stored one. *)
Theorem validate_scheme_verdict
    (_fetch_validation_data : list N -> option NipponScraper.Soup)
    (now_isoformat : list N) (scheme_data : models.SchemeData) :
  nav_not_negative scheme_data ->
  exists result,
    Validation.validate_scheme _fetch_validation_data now_isoformat scheme_data =
      Ok result /\
    match _fetch_validation_data (models.source_url (models.metadata scheme_data)) with
    | None =>
        Validation.status result = lit "error" /\
        Validation.checks result = Some [] /\
        Validation.error result = Some (lit "Could not fetch validation page")
    | Some soup =>
        let page_text := NipponScraper.get_text soup in
        let name_ok :=
          name_on_page (models.scheme_name (models.metadata scheme_data)) page_text in
        let type_ok :=
          contains (lower (models.scheme_type (models.metadata scheme_data)))
            (lower page_text) = true in
        let nav_ok := nav_on_page (models.current_nav scheme_data) page_text in
        (Validation.status result = lit "valid" <-> name_ok /\ type_ok /\ nav_ok) /\
        (Validation.status result = lit "invalid" <->
           ~ name_ok /\ ~ type_ok /\
           (Validation.nav_given (models.current_nav scheme_data) = None \/ ~ nav_ok)) /\
        (Validation.status result = lit "valid" \/
         Validation.status result = lit "partial" \/
         Validation.status result = lit "invalid")
    end.
Proof.
  intros Hnav. unfold Validation.validate_scheme.
  change (negb config.VALIDATION_ENABLED) with false. cbv iota.
  destruct (_fetch_validation_data _) as [soup|].
  2:{ eexists. split; [reflexivity|]. repeat split. }
  cbv zeta.
  pose proof (validate_scheme_name_valid
                (models.scheme_name (models.metadata scheme_data)) soup) as Hname.
  set (name_check := Validation._validate_scheme_name _ soup) in *.
  set (type_check := Validation._validate_scheme_type _ soup).
  assert (Htype : Validation.valid type_check = true <->
            contains (lower (models.scheme_type (models.metadata scheme_data)))
              (lower (NipponScraper.get_text soup)) = true) by reflexivity.
  unfold nav_on_page.
  destruct status_distinct as (Hvp & Hvi & Hpi).
  destruct (Validation.nav_given (models.current_nav scheme_data)) as [nav|] eqn:En.
  - pose proof (nav_given_positive scheme_data nav Hnav En) as Hpos.
    unfold DataValidator._validate_nav.
    destruct (check_nav_positive nav
                (DataValidator.found_navs (NipponScraper.get_text soup)) Hpos)
      as (check & -> & Hcheck).
    eexists. split; [reflexivity|].
    cbn [Validation.status app map snd forallb existsb Validation.check_valid].
    destruct (Validation.valid name_check), (DataValidator.valid check),
      (Validation.valid type_check); cbn [andb orb];
      intuition (try discriminate; try congruence).
  - eexists. split; [reflexivity|].
    cbn [Validation.status app map snd forallb existsb Validation.check_valid].
    destruct (Validation.valid name_check), (Validation.valid type_check);
      cbn [andb orb]; intuition (try discriminate; try congruence).
Qed.

(* ================================================================== *)
(** * scraper/nippon_scraper.py: the scheme code of a URL               *)
(* ================================================================== *)

Section SchemeCodeFacts.

Import Re SchemeCode.

(** [re.search] returns the match at the leftmost position that has one. *)
Lemma search_leftmost (ic : bool) (r : regex) (s : list N) (m : Match) :
  search ic r s = Some m ->
  exists pre suf, s = pre ++ suf /\ match_at ic r suf = Some m /\
    forall pre' suf', s = pre' ++ suf' -> (length pre' < length pre)%nat ->
                      match_at ic r suf' = None.
Proof.
  induction s as [|x s IH]; cbn [search].
  - destruct (match_at ic r []) eqn:E; [|discriminate].
    intros H. injection H as <-. exists [], []. split; [reflexivity|].
    split; [exact E|]. intros pre' suf' _ Hlen. cbn in Hlen. lia.
  - destruct (match_at ic r (x :: s)) eqn:E.
    + intros H. injection H as <-. exists [], (x :: s). split; [reflexivity|].
      split; [exact E|]. intros pre' suf' _ Hlen. cbn in Hlen. lia.
    + intros H. destruct (IH H) as (pre & suf & -> & Hm & Hleft).
      exists (x :: pre), suf. split; [reflexivity|]. split; [exact Hm|].
      intros [|y pre'] suf' Heq Hlen.
      * cbn in Heq. subst suf'. exact E.
      * cbn in Heq. injection Heq as -> Heq. apply (Hleft pre' suf' Heq).
        cbn in Hlen. lia.
Qed.

Lemma search_none (ic : bool) (r : regex) (s : list N) :
  search ic r s = None ->
  forall pre suf, s = pre ++ suf -> match_at ic r suf = None.
Proof.
  induction s as [|x s IH]; cbn [search].
  - destruct (match_at ic r []) eqn:E; [discriminate|].
    intros _ pre suf Heq. symmetry in Heq. apply app_eq_nil in Heq as [-> ->].
    exact E.
  - destruct (match_at ic r (x :: s)) eqn:E; [discriminate|].
    intros H [|y pre] suf Heq; cbn in Heq.
    + subst suf. exact E.
    + injection Heq as -> Heq. apply (IH H pre suf Heq).
Qed.

Lemma match_at_scheme_code (s : list N) :
  match_at false scheme_code_pattern s =
  match s with
  | x :: d1 :: d2 :: d3 :: d4 :: d5 :: d6 :: rest =>
      if (47 =? x) && is_digit d1 && is_digit d2 && is_digit d3 &&
         is_digit d4 && is_digit d5 && is_digit d6
      then Some (mkMatch [x; d1; d2; d3; d4; d5; d6]
                   (Some [d1; d2; d3; d4; d5; d6]) rest)
      else None
  | _ => None
  end.
Proof.
  unfold match_at, scheme_code_pattern, digit.
  destruct s as [|x s]; [reflexivity|]. cbn [run chr_matches].
  destruct (47 =? x); [|repeat (destruct s as [|? s]; try reflexivity)].
  cbn [andb].
  destruct s as [|d1 s]; [reflexivity|]. destruct (is_digit d1); [|repeat (destruct s as [|? s]; try reflexivity)].
  destruct s as [|d2 s]; [reflexivity|]. destruct (is_digit d2); [|repeat (destruct s as [|? s]; try reflexivity)].
  destruct s as [|d3 s]; [reflexivity|]. destruct (is_digit d3); [|repeat (destruct s as [|? s]; try reflexivity)].
  destruct s as [|d4 s]; [reflexivity|]. destruct (is_digit d4); [|repeat (destruct s as [|? s]; try reflexivity)].
  destruct s as [|d5 s]; [reflexivity|]. destruct (is_digit d5); [|repeat (destruct s as [|? s]; try reflexivity)].
  destruct s as [|d6 s]; [reflexivity|]. destruct (is_digit d6); [|reflexivity].
  cbn [andb length].
  replace (S (S (S (S (S (S (length s)))))) - length s)%nat with 6%nat by lia.
  replace (S (S (S (S (S (S (S (length s))))))) - length s)%nat with 7%nat by lia.
  reflexivity.
Qed.

End SchemeCodeFacts.

Section SchemeCodeShape.

Import Re SchemeCode.

Lemma six_digits_cons (d1 d2 d3 d4 d5 d6 : N) :
  six_digits [d1; d2; d3; d4; d5; d6] <->
  is_digit d1 && is_digit d2 && is_digit d3 && is_digit d4 && is_digit d5 &&
  is_digit d6 = true.
Proof.
  unfold six_digits. rewrite !andb_true_iff. split.
  - intros [_ H]. repeat split; apply H; cbn; tauto.
  - intros (((((H1 & H2) & H3) & H4) & H5) & H6). split; [reflexivity|].
    intros c [<-|[<-|[<-|[<-|[<-|[<-|[]]]]]]]; assumption.
Qed.

Lemma six_digits_inv (code : list N) :
  six_digits code -> exists d1 d2 d3 d4 d5 d6, code = [d1; d2; d3; d4; d5; d6].
Proof.
  intros [Hlen _].
  destruct code as [|d1 [|d2 [|d3 [|d4 [|d5 [|d6 [|d7 code]]]]]]]; try discriminate.
  eauto 7.
Qed.

Lemma match_at_scheme_code_some (s : list N) (m : Match) :
  match_at false scheme_code_pattern s = Some m ->
  exists code rest, six_digits code /\ s = 47 :: code ++ rest /\
                    group1 m = Some code.
Proof.
  rewrite match_at_scheme_code.
  destruct s as [|x [|d1 [|d2 [|d3 [|d4 [|d5 [|d6 rest]]]]]]]; try discriminate.
  destruct (47 =? x) eqn:Ex; [|discriminate]. cbn [andb].
  destruct (is_digit d1 && _ && _ && _ && _ && _) eqn:Ed; [|discriminate].
  intros H. injection H as <-. apply N.eqb_eq in Ex. subst x.
  exists [d1; d2; d3; d4; d5; d6], rest.
  split; [apply six_digits_cons, Ed|]. split; reflexivity.
Qed.

Lemma match_at_scheme_code_none (s : list N) :
  match_at false scheme_code_pattern s = None ->
  forall code rest, s = 47 :: code ++ rest -> ~ six_digits code.
Proof.
  rewrite match_at_scheme_code. intros H code rest -> Hsix.
  destruct (six_digits_inv code Hsix) as (d1 & d2 & d3 & d4 & d5 & d6 & ->).
  apply six_digits_cons in Hsix. cbn [app] in H.
  change (47 =? 47) with true in H. cbn [andb] in H.
  rewrite Hsix in H. discriminate H.
Qed.

End SchemeCodeShape.

(** X16: the scheme code taken from a URL.  [_extract_scheme_code] returns
    a code exactly when the URL holds a slash followed by six decimal
    digits; the code is then these six digits at the leftmost such place
    (further digits may follow them).  In every other case it returns
    [None], and the caller falls back on a made-up code. *)
Theorem extract_scheme_code_six_digits (url : list N) :
  match SchemeCode._extract_scheme_code url with
  | Some code =>
      six_digits code /\
      exists pre post,
        url = pre ++ [47] ++ code ++ post /\
        forall pre' code' post',
          url = pre' ++ [47] ++ code' ++ post' -> six_digits code' ->
          (length pre <= length pre')%nat
  | None =>
      forall pre code post, url = pre ++ [47] ++ code ++ post -> ~ six_digits code
  end.
Proof.
  unfold SchemeCode._extract_scheme_code.
  destruct (Re.search false SchemeCode.scheme_code_pattern url) as [m|] eqn:Es.
  - destruct (search_leftmost _ _ _ _ Es) as (pre & suf & -> & Hm & Hleft).
    destruct (match_at_scheme_code_some suf m Hm) as (code & post & Hsix & -> & Hg).
    rewrite Hg. cbn [default]. split; [exact Hsix|].
    exists pre, post. split; [reflexivity|].
    intros pre' code' post' Heq Hsix'.
    destruct (Nat.le_gt_cases (length pre) (length pre')) as [Hle|Hgt];
      [exact Hle|exfalso].
    apply (match_at_scheme_code_none _ (Hleft pre' _ Heq Hgt) code' post' eq_refl Hsix').
  - intros pre code post Heq.
    apply (match_at_scheme_code_none _ (search_none _ _ _ Es pre _ Heq) code post eq_refl).
Qed.

(* ================================================================== *)
(** * query/query_interface.py: get_recent_updates                      *)
(* ================================================================== *)

Section RecentUpdatesFacts.

Import QueryInterface.

Lemma lex_compare_refl (a : list Z) : lex_compare a a = Eq.
Proof.
  induction a as [|x a IH]; [reflexivity|]. cbn. rewrite Z.compare_refl. exact IH.
Qed.

Lemma lex_compare_antisym (a b : list Z) :
  lex_compare b a = CompOpp (lex_compare a b).
Proof.
  revert b. induction a as [|x a IH]; intros [|y b]; try reflexivity.
  cbn. rewrite (Z.compare_antisym x y).
  destruct (x ?= y)%Z; cbn; [apply IH|reflexivity|reflexivity].
Qed.

Lemma lex_compare_not_lt_trans (a b c : list Z) :
  lex_compare a b <> Lt -> lex_compare b c <> Lt -> lex_compare a c <> Lt.
Proof.
  revert b c. induction a as [|x a IH]; intros [|y b] [|z c]; cbn;
    try congruence.
  destruct (Z.compare_spec x y), (Z.compare_spec y z), (Z.compare_spec x z);
    try congruence; try lia.
  apply IH.
Qed.

Variable last_updated : models.SchemeData -> datetime.

Let newer (a b : models.SchemeData) : Prop :=
  datetime_geb (last_updated a) (last_updated b) = true.

Lemma datetime_geb_not_lt (a b : datetime) :
  datetime_geb a b = true <-> lex_compare (fields a) (fields b) <> Lt.
Proof.
  unfold datetime_geb. destruct (lex_compare _ _); split; congruence.
Qed.

Lemma newer_trans a b c : newer a b -> newer b c -> newer a c.
Proof.
  unfold newer. rewrite !datetime_geb_not_lt. apply lex_compare_not_lt_trans.
Qed.

Lemma newer_total a b :
  datetime_geb (last_updated a) (last_updated b) = false -> newer b a.
Proof.
  unfold newer, datetime_geb. rewrite (lex_compare_antisym (fields (last_updated a))).
  destruct (lex_compare (fields (last_updated a)) _); cbn; congruence.
Qed.

Lemma insert_newest_first_In scheme sorted s :
  In s (insert_newest_first last_updated scheme sorted) <-> s = scheme \/ In s sorted.
Proof.
  induction sorted as [|other sorted IH]; cbn.
  - split; [intros [<-|[]]; left; reflexivity|intros [->|[]]; left; reflexivity].
  - destruct (datetime_geb _ _); cbn; [split; intros [?|?]; auto|].
    rewrite IH. split; intros H; intuition auto.
Qed.

Lemma insert_newest_first_sorted scheme sorted :
  StronglySorted newer sorted ->
  StronglySorted newer (insert_newest_first last_updated scheme sorted).
Proof.
  induction 1 as [|other sorted Hs IH Hall]; cbn.
  - constructor; constructor.
  - destruct (datetime_geb _ _) eqn:E.
    + constructor; [constructor; assumption|].
      constructor; [exact E|].
      apply List.Forall_forall. intros s Hs'.
      apply (newer_trans _ other); [exact E|].
      apply (proj1 (List.Forall_forall _ _) Hall s Hs').
    + constructor; [exact IH|].
      apply List.Forall_forall. intros s Hs'. apply insert_newest_first_In in Hs'.
      destruct Hs' as [->|Hs']; [apply newer_total, E|].
      apply (proj1 (List.Forall_forall _ _) Hall s Hs').
Qed.

Lemma sorted_newest_first_In recent s :
  In s (sorted_newest_first last_updated recent) <-> In s recent.
Proof.
  induction recent as [|scheme recent IH]; cbn; [reflexivity|].
  rewrite insert_newest_first_In, IH. split; intros [?|?]; auto.
Qed.

Lemma sorted_newest_first_sorted recent :
  StronglySorted newer (sorted_newest_first last_updated recent).
Proof.
  induction recent as [|scheme recent IH]; cbn; [constructor|].
  apply insert_newest_first_sorted, IH.
Qed.

End RecentUpdatesFacts.

(** X17: [get_recent_updates(days)] at the start of a month.  The cutoff is
    built by taking [days] from the day of the month alone, so for a valid
    date and [days >= 0]:
    - when the day of the month is at most [days] (with the default of 7:
      on the first seven days of every month) the call raises, whatever the
      store holds;
    - on later days it returns exactly the stored schemes updated at or
      after midnight of [day - days] of the same month, newest first. *)
Theorem get_recent_updates_month_start
    (last_updated : models.SchemeData -> QueryInterface.datetime)
    (all_schemes : list models.SchemeData) (now : QueryInterface.datetime) (days : Z) :
  (1 <= QueryInterface.day now <=
     QueryInterface.days_in_month (QueryInterface.year now) (QueryInterface.month now))%Z ->
  (0 <= days)%Z ->
  ((QueryInterface.day now <= days)%Z ->
   exists e, QueryInterface.get_recent_updates last_updated all_schemes now days = Raise e) /\
  ((days < QueryInterface.day now)%Z ->
   let cutoff :=
     QueryInterface.mkDatetime (QueryInterface.year now) (QueryInterface.month now)
       (QueryInterface.day now - days) 0 0 0 0 in
   exists recent,
     QueryInterface.get_recent_updates last_updated all_schemes now days = Ok recent /\
     (forall scheme, In scheme recent <->
        In scheme all_schemes /\
        QueryInterface.datetime_geb (last_updated scheme) cutoff = true) /\
     StronglySorted
       (fun a b => QueryInterface.datetime_geb (last_updated a) (last_updated b) = true)
       recent).
Proof.
  intros Hday Hdays. unfold QueryInterface.get_recent_updates, QueryInterface.replace_day.
  cbn [QueryInterface.at_midnight QueryInterface.day QueryInterface.year
       QueryInterface.month QueryInterface.hour QueryInterface.minute
       QueryInterface.second QueryInterface.microsecond].
  assert (Hdim : (QueryInterface.days_in_month (QueryInterface.year now)
                    (QueryInterface.month now) <= 31)%Z).
  { unfold QueryInterface.days_in_month.
    repeat match goal with |- context [if ?b then _ else _] => destruct b end; lia. }
  split.
  - intros Hle.
    destruct ((_ <? _) || (_ <? _))%Z; [eexists; reflexivity|].
    destruct (Z.leb_spec 1 (QueryInterface.day now - days)) as [?|_]; [lia|].
    eexists. reflexivity.
  - intros Hlt. cbv zeta.
    destruct (Z.ltb_spec (QueryInterface.day now - days) (-2147483648)) as [?|_]; [lia|].
    destruct (Z.ltb_spec 2147483647 (QueryInterface.day now - days)) as [?|_]; [lia|].
    destruct (Z.leb_spec 1 (QueryInterface.day now - days)) as [_|?]; [|lia].
    destruct (Z.leb_spec (QueryInterface.day now - days)
                (QueryInterface.days_in_month (QueryInterface.year now)
                   (QueryInterface.month now))) as [_|?]; [|lia].
    cbn [orb andb]. eexists. split; [reflexivity|]. split.
    + intros scheme. rewrite sorted_newest_first_In, filter_In. reflexivity.
    + apply sorted_newest_first_sorted.
Qed.

(* ================================================================== *)
(** * The fallback answer and the stored document                      *)
(* ================================================================== *)

Section FallbackFacts.

Import Re QueryAnswerer RAGSystem.

(** A greedy repetition of a character class takes the whole run of
    characters of the class, when what follows is accepted there. *)
Lemma run_star_class_greedy {R} (ic : bool) (p : N -> bool) (a b : list N)
    (g : option (list N)) (k : list N -> option (list N) -> option R) :
  (forall c, In c a -> p c = true) ->
  match b with [] => True | c :: _ => p c = false end ->
  k b g <> None ->
  run ic (Star true (Class p)) (a ++ b) g k = k b g.
Proof.
  intros Ha Hb Hk. cbn [run].
  assert (Hn : (length a <= length (a ++ b))%nat) by (rewrite length_app; lia).
  revert Hn. generalize (length (a ++ b)) as n. intros n. revert n.
  induction a as [|x a IH]; intros n Hn.
  - cbn [app]. destruct n as [|n]; [reflexivity|].
    destruct b as [|c b]; [reflexivity|]. rewrite Hb. reflexivity.
  - destruct n as [|n]; [cbn in Hn; lia|].
    cbn [app]. rewrite (Ha x) by (left; reflexivity).
    assert (Hlt : (length (a ++ b) <? length (x :: a ++ b))%nat = true)
      by (apply Nat.ltb_lt; cbn; lia).
    rewrite Hlt.
    rewrite IH; [|intros c Hc; apply Ha; right; exact Hc|cbn in Hn; lia].
    destruct (k b g); [reflexivity|congruence].
Qed.

Lemma run_group {R} (ic : bool) (r : regex) (s : list N) (g : option (list N))
    (k : list N -> option (list N) -> option R) :
  run ic (Group r) s g k =
  run ic r s g (fun s' g' => k s' (Some (take (length s - length s') s))).
Proof. reflexivity. Qed.

Lemma take_app_sub {A} (a b : list A) :
  take (length (a ++ b) - length b) (a ++ b) = a.
Proof.
  rewrite length_app. replace (length a + length b - length b)%nat with (length a) by lia.
  apply take_app_length.
Qed.

(** The line that names the scheme is read back whole. *)
Lemma search_scheme_name_line (name rest : list N) :
  name <> [] -> ~ In NL name ->
  Re.search false scheme_name_line_pattern (lit "Scheme Name: " ++ name ++ NL :: rest) =
  Some (mkMatch (lit "Scheme Name: " ++ name) (Some name) (NL :: rest)).
Proof.
  intros Hne Hnl.
  assert (Hm : match_at false scheme_name_line_pattern
                 (lit "Scheme Name: " ++ name ++ NL :: rest) =
               Some (mkMatch (lit "Scheme Name: " ++ name) (Some name) (NL :: rest))).
  { unfold match_at, scheme_name_line_pattern.
    rewrite run_seq, run_word by (vm_compute; discriminate).
    rewrite startswith_app. rewrite drop_app_length'; [|reflexivity].
    destruct name as [|c name]; [congruence|].
    assert (Hc : forall x, In x (c :: name) -> negb (x =? NL) = true).
    { intros x Hx. apply negb_true_iff, N.eqb_neq. intros ->. apply Hnl, Hx. }
    unfold Plus. rewrite run_group, run_seq, run_class. cbn [app].
    rewrite (Hc c) by (left; reflexivity).
    rewrite run_star_class_greedy.
    - change (c :: name ++ NL :: rest) with ((c :: name) ++ NL :: rest).
      rewrite (take_app_sub (c :: name) (NL :: rest)).
      rewrite (app_assoc (lit "Scheme Name: ") (c :: name) (NL :: rest)).
      rewrite (take_app_sub (lit "Scheme Name: " ++ c :: name) (NL :: rest)).
      reflexivity.
    - intros x Hx. apply Hc. right. exact Hx.
    - reflexivity.
    - discriminate. }
  destruct (lit "Scheme Name: " ++ name ++ NL :: rest) as [|x s] eqn:E;
    cbn [Re.search]; rewrite Hm; reflexivity.
Qed.

End FallbackFacts.

(** X18: the fallback answer reads the scheme name back from the stored
    document.  When the language model is not available and the query asks
    for a name (it contains "name" or "what is", and no "nav" or "net asset
    value"), then for a top document that begins with the line
    "Scheme Name: <name>", as [format_scheme_for_embedding] writes it, the
    fallback answer is "The scheme name is <name>." followed by the source
    line, with the name stripped of surrounding white space. *)
Theorem fallback_names_the_scheme (query name rest source_url : list N)
    (metadata : gmap string (list N)) (distance : option float)
    (others : list RAGSystem.SearchResult) :
  contains (lit "name") (lower query) || contains (lit "what is") (lower query) = true ->
  contains (lit "nav") (lower query) || contains (lit "net asset value") (lower query)
    = false ->
  name <> [] -> ~ In NL name ->
  QueryAnswerer._construct_fallback_answer query
    (RAGSystem.mkSearchResult (lit "Scheme Name: " ++ name ++ NL :: rest) metadata distance
       :: others) source_url =
  ([], Ok (lit "The scheme name is " ++ strip name ++ lit "." ++
           RAGSystem.source_line source_url)).
Proof.
  intros Hname Hnav Hne Hnl. unfold QueryAnswerer._construct_fallback_answer.
  rewrite index_head, bind_ret_l. cbn [RAGSystem.document].
  rewrite Hnav, Hname, (search_scheme_name_line name rest Hne Hnl).
  cbn [Re.group1 default app join]. unfold ret.
  rewrite <- !app_assoc. reflexivity.
Qed.

Lemma fallback_names_the_scheme_witness :
  QueryAnswerer._construct_fallback_answer (lit "What is the name of this fund?")
    (RAGSystem.mkSearchResult
       (lit "Scheme Name: " ++ lit "Nippon India Small Cap Fund" ++ NL ::
        lit "Scheme Code: 118778")
       ∅ None :: []) Example.official_page =
  ([], Ok (lit "The scheme name is " ++ strip (lit "Nippon India Small Cap Fund") ++
           lit "." ++ RAGSystem.source_line Example.official_page)).
Proof.
  apply (fallback_names_the_scheme (lit "What is the name of this fund?")
           (lit "Nippon India Small Cap Fund") (lit "Scheme Code: 118778")
           Example.official_page ∅ None []).
  - vm_compute. reflexivity.
  - vm_compute. reflexivity.
  - vm_compute. discriminate.
  - vm_compute. intuition discriminate.
Defined.

Lemma validate_scheme_verdict_witness :
  exists result,
    Validation.validate_scheme
      (fun _ => Some (NipponScraper.mkSoup
                        (lit "Nippon India Small Cap Fund - Equity scheme. NAV: 152.34") []))
      (lit "2024-02-01T10:00:00") Stored.small_cap = Ok result /\
    Validation.status result = lit "valid".
Proof.
  destruct (validate_scheme_verdict
              (fun _ => Some (NipponScraper.mkSoup
                        (lit "Nippon India Small Cap Fund - Equity scheme. NAV: 152.34") []))
              (lit "2024-02-01T10:00:00") Stored.small_cap) as (result & Hr & Hs).
  - vm_compute. reflexivity.
  - exists result. split; [exact Hr|].
    cbv beta iota zeta in Hs. destruct Hs as (Hvalid & _ & _).
    apply Hvalid. split; [|split].
    + left. vm_compute. reflexivity.
    + vm_compute. reflexivity.
    + unfold nav_on_page.
      change (Validation.nav_given (models.current_nav Stored.small_cap))
        with (Some 152.34%float).
      exists 152.34%float. split; vm_compute; [left; reflexivity|reflexivity].
Defined.

Lemma get_recent_updates_month_start_witness :
  (exists e,
     QueryInterface.get_recent_updates
       (fun _ => QueryInterface.mkDatetime 2024 3 4 9 0 0 0)
       [Stored.small_cap] (QueryInterface.mkDatetime 2024 3 5 10 30 0 0) 7 = Raise e).
Proof.
  apply (get_recent_updates_month_start
           (fun _ => QueryInterface.mkDatetime 2024 3 4 9 0 0 0)
           [Stored.small_cap] (QueryInterface.mkDatetime 2024 3 5 10 30 0 0) 7).
  - vm_compute. split; discriminate.
  - lia.
  - vm_compute. discriminate.
Defined.

(* ================================================================== *)
(** * storage/data_store.py: the registry of stored schemes            *)
(* ================================================================== *)

Section RegistryFacts.

Import Registry.

Variables scheme_code scheme_name source_url : list N.

Let codes (entries : list (gmap string (list N))) : list (list N) :=
  omap (fun entry : gmap string (list N) => entry !! "scheme_code") entries.

Let updated (entry : gmap string (list N)) : gmap string (list N) :=
  <["source_url" := source_url]> (<["scheme_name" := scheme_name]> entry).

Lemma has_code_spec (entry : gmap string (list N)) :
  has_code scheme_code entry = true <-> entry !! "scheme_code" = Some scheme_code.
Proof. unfold has_code. apply bool_decide_eq_true. Qed.

Lemma updated_code (entry : gmap string (list N)) :
  updated entry !! "scheme_code" = entry !! "scheme_code".
Proof.
  unfold updated. rewrite !lookup_insert_ne by discriminate. reflexivity.
Qed.

Lemma codes_app (before after : list (gmap string (list N))) :
  codes (before ++ after) = codes before ++ codes after.
Proof. unfold codes. apply omap_app. Qed.

Lemma codes_without (before : list (gmap string (list N))) :
  (forall entry, In entry before -> has_code scheme_code entry = false) ->
  ~ In scheme_code (codes before).
Proof.
  induction before as [|entry before IH]; intros H; [intros []|].
  unfold codes. cbn [omap list_omap].
  destruct (entry !! "scheme_code") as [c|] eqn:Ec.
  - intros [->|Hin].
    + specialize (H entry (or_introl eq_refl)).
      rewrite (proj2 (has_code_spec entry) Ec) in H. discriminate H.
    + apply IH; [|exact Hin]. intros e He. apply H. right. exact He.
  - apply IH. intros e He. apply H. right. exact He.
Qed.

(** What [update_existing] does: the first entry with the code is
    updated, nothing else changes; without such an entry it gives [None]. *)
Lemma update_existing_spec (entries : list (gmap string (list N))) :
  match update_existing scheme_code scheme_name source_url entries with
  | Some entries' =>
      exists before old after,
        entries = before ++ old :: after /\
        (forall entry, In entry before -> has_code scheme_code entry = false) /\
        old !! "scheme_code" = Some scheme_code /\
        entries' = before ++ updated old :: after
  | None => forall entry, In entry entries -> has_code scheme_code entry = false
  end.
Proof.
  induction entries as [|entry entries IH]; cbn [update_existing].
  - intros entry [].
  - destruct (has_code scheme_code entry) eqn:E.
    + exists [], entry, entries. split; [reflexivity|]. split; [intros e []|].
      split; [apply has_code_spec, E|reflexivity].
    + destruct (update_existing scheme_code scheme_name source_url entries)
        as [entries'|]; cbn [option_map].
      * destruct IH as (before & old & after & -> & Hb & Ho & ->).
        exists (entry :: before), old, after. split; [reflexivity|].
        split; [|split; [exact Ho|reflexivity]].
        intros e [<-|He]; [exact E|apply Hb, He].
      * intros e [<-|He]; [exact E|apply IH, He].
Qed.

End RegistryFacts.

(** X19: [store_scheme] keeps the registry of the metadata consistent.
    When the file of the scheme is written and the metadata can be read,
    and every entry of the registry has a scheme code, no code comes twice
    and the counter is the number of entries, then after the call (also
    when writing the metadata back fails):
    - the registry is consistent again;
    - it has an entry for the scheme code that holds the name and the
      source of the scheme just stored;
    - for a code already registered the codes and the counter are as
      before: storing a scheme again updates its entry in place;
    - for a new code the code is appended and the counter goes up by one;
    - the entries of the other schemes are still there, unchanged. *)
Theorem store_scheme_registry
    (write_scheme_file : models.SchemeData -> Result unit)
    (_save_metadata : Registry.StorageMetadata -> Result unit)
    (metadata : Registry.StorageMetadata) (scheme_data : models.SchemeData) :
  write_scheme_file scheme_data = Ok tt ->
  consistent metadata ->
  let scheme_code := models.scheme_code (models.metadata scheme_data) in
  exists stored metadata',
    Registry.store_scheme write_scheme_file (Ok metadata) _save_metadata scheme_data =
      (stored, Some metadata') /\
    (stored = true <-> exists u, _save_metadata metadata' = Ok u) /\
    consistent metadata' /\
    (exists entry,
       In entry (Registry.schemes metadata') /\
       entry !! "scheme_code" = Some scheme_code /\
       entry !! "scheme_name" = Some (models.scheme_name (models.metadata scheme_data)) /\
       entry !! "source_url" = Some (models.source_url (models.metadata scheme_data))) /\
    (In scheme_code (registered metadata) ->
       registered metadata' = registered metadata /\
       Registry.total_schemes metadata' = Registry.total_schemes metadata) /\
    (~ In scheme_code (registered metadata) ->
       registered metadata' = registered metadata ++ [scheme_code] /\
       Registry.total_schemes metadata' = (Registry.total_schemes metadata + 1)%Z) /\
    (forall entry, In entry (Registry.schemes metadata) ->
       entry !! "scheme_code" <> Some scheme_code ->
       In entry (Registry.schemes metadata')).
Proof.
  intros Hw (Hcodes & Hnodup & Htotal). cbv zeta.
  unfold Registry.store_scheme. rewrite Hw.
  exists (match _save_metadata (Registry.register metadata scheme_data) with
          | Ok _ => true | Raise _ => false end),
         (Registry.register metadata scheme_data).
  split; [destruct (_save_metadata _); reflexivity|].
  split.
  { destruct (_save_metadata _) as [u|e]; split; try discriminate; eauto.
    intros [u Hu]. discriminate Hu. }
  unfold Registry.register, consistent, registered in *.
  pose proof (update_existing_spec
                (models.scheme_code (models.metadata scheme_data))
                (models.scheme_name (models.metadata scheme_data))
                (models.source_url (models.metadata scheme_data))
                (Registry.schemes metadata)) as Hspec.
  destruct (Registry.update_existing _ _ _ (Registry.schemes metadata))
    as [entries'|].
  - destruct Hspec as (before & old & after & Hentries & Hb & Ho & ->).
    cbn [Registry.schemes Registry.total_schemes].
    rewrite Hentries in *.
    assert (Hsame : omap (fun entry : gmap string (list N) => entry !! "scheme_code")
                      (before ++ <["source_url" := models.source_url (models.metadata scheme_data)]>
                                   (<["scheme_name" := models.scheme_name (models.metadata scheme_data)]> old)
                              :: after) =
                    omap (fun entry : gmap string (list N) => entry !! "scheme_code")
                      (before ++ old :: after)).
    { rewrite !omap_app. f_equal. cbn [omap list_omap].
      rewrite !lookup_insert_ne by discriminate. reflexivity. }
    split; [split; [|split]|split; [|split; [|split]]].
    + intros entry Hin. apply in_app_or in Hin as [Hin|[<-|Hin]].
      * apply Hcodes, in_or_app. left. exact Hin.
      * rewrite !lookup_insert_ne by discriminate. rewrite Ho. eexists. reflexivity.
      * apply Hcodes, in_or_app. right. right. exact Hin.
    + rewrite Hsame. exact Hnodup.
    + rewrite Htotal, !length_app. reflexivity.
    + eexists. split; [apply in_or_app; right; left; reflexivity|].
      split; [|split].
      * rewrite !lookup_insert_ne by discriminate. exact Ho.
      * rewrite lookup_insert_ne by discriminate. apply lookup_insert_eq.
      * apply lookup_insert_eq.
    + intros _. split; [exact Hsame|reflexivity].
    + intros Hnot. exfalso. apply Hnot. rewrite omap_app.
      apply in_or_app. right. cbn [omap list_omap]. rewrite Ho. left. reflexivity.
    + intros entry Hin Hne. apply in_app_or in Hin as [Hin|[<-|Hin]].
      * apply in_or_app. left. exact Hin.
      * congruence.
      * apply in_or_app. right. right. exact Hin.
  - cbn [Registry.schemes Registry.total_schemes].
    assert (Hnew : ~ In (models.scheme_code (models.metadata scheme_data))
                     (omap (fun entry : gmap string (list N) => entry !! "scheme_code")
                        (Registry.schemes metadata))).
    { apply codes_without. exact Hspec. }
    assert (Happ : omap (fun entry : gmap string (list N) => entry !! "scheme_code")
                     (Registry.schemes metadata ++
                      [ {[ "scheme_code" := models.scheme_code (models.metadata scheme_data);
                           "scheme_name" := models.scheme_name (models.metadata scheme_data);
                           "source_url" := models.source_url (models.metadata scheme_data) ]} ]) =
                   omap (fun entry : gmap string (list N) => entry !! "scheme_code")
                     (Registry.schemes metadata) ++
                   [models.scheme_code (models.metadata scheme_data)]).
    { rewrite omap_app. f_equal. }
    split; [split; [|split]|split; [|split; [|split]]].
    + intros entry Hin. apply in_app_or in Hin as [Hin|[<-|[]]].
      * apply Hcodes, Hin.
      * eexists. apply lookup_insert_eq.
    + rewrite Happ. apply NoDup_app. split; [exact Hnodup|].
      split; [|apply NoDup_singleton].
      intros c Hc Hc'. apply list_elem_of_singleton in Hc'. subst c.
      apply Hnew. apply list_elem_of_In. exact Hc.
    + rewrite Htotal, length_app. cbn [length]. lia.
    + eexists. split; [apply in_or_app; right; left; reflexivity|].
      split; [apply lookup_insert_eq|]. split.
      * rewrite lookup_insert_ne by discriminate. apply lookup_insert_eq.
      * rewrite !lookup_insert_ne by discriminate. apply lookup_insert_eq.
    + intros Hin. destruct (Hnew Hin).
    + intros _. split; [exact Happ|reflexivity].
    + intros entry Hin _. apply in_or_app. left. exact Hin.
Qed.

Lemma store_scheme_registry_witness :
  exists stored metadata',
    Registry.store_scheme (fun _ => Ok tt)
      (Ok (Registry.mkStorageMetadata 1 0 0
             [ {[ "scheme_code" := lit "118778";
                  "scheme_name" := lit "Small Cap";
                  "source_url" := Example.off_domain_page ]} ]))
      (fun _ => Ok tt) Stored.small_cap = (stored, Some metadata') /\
    Registry.total_schemes metadata' = 1%Z /\
    registered metadata' = [lit "118778"].
Proof.
  destruct (store_scheme_registry (fun _ => Ok tt) (fun _ => Ok tt)
              (Registry.mkStorageMetadata 1 0 0
                 [ {[ "scheme_code" := lit "118778";
                      "scheme_name" := lit "Small Cap";
                      "source_url" := Example.off_domain_page ]} ])
              Stored.small_cap)
    as (stored & metadata' & Hs & _ & _ & _ & Hknown & _).
  - reflexivity.
  - split; [|split].
    + intros entry [<-|[]]. eexists. reflexivity.
    + vm_compute. apply NoDup_singleton.
    + reflexivity.
  - exists stored, metadata'. split; [exact Hs|].
    destruct Hknown as [Hr Ht]; [vm_compute; left; reflexivity|].
    split; [exact Ht|]. rewrite Hr. vm_compute. reflexivity.
Defined.

(** C4: [validate_url] tests the network location, not the host.
    - "https://sebi.gov.in:443/" has the allow-listed host "sebi.gov.in",
      but its network location is "sebi.gov.in:443" and the URL is
      rejected;
    - "https://unofficial.org:.sebi.gov.in/" has the host "unofficial.org",
      which is neither an allow-listed domain nor a subdomain of one, but
      its network location ends with ".sebi.gov.in" and the URL is
      accepted.
    On URLs without userinfo and port the two tests agree. *)
Theorem validate_url_tests_netloc_not_host :
  (plain_netloc (lit "https://sebi.gov.in:443/") = Ok (lit "sebi.gov.in:443") /\
   host_of_netloc (lit "sebi.gov.in:443") = lit "sebi.gov.in" /\
   host_allowed (lower (host_of_netloc (lit "sebi.gov.in:443"))) config.ALLOWED_DOMAINS /\
   validate_url plain_netloc (lit "https://sebi.gov.in:443/") = false) /\
  (plain_netloc (lit "https://unofficial.org:.sebi.gov.in/") =
     Ok (lit "unofficial.org:.sebi.gov.in") /\
   host_of_netloc (lit "unofficial.org:.sebi.gov.in") = lit "unofficial.org" /\
   ~ host_allowed (lower (host_of_netloc (lit "unofficial.org:.sebi.gov.in")))
       config.ALLOWED_DOMAINS /\
   validate_url plain_netloc (lit "https://unofficial.org:.sebi.gov.in/") = true) /\
  (forall urlparse_netloc url netloc,
     urlparse_netloc url = Ok netloc ->
     (forall c, In c netloc -> c <> 64 /\ c <> 58) ->
     (validate_url urlparse_netloc url = true <->
      host_allowed (lower (host_of_netloc netloc)) config.ALLOWED_DOMAINS)).
Proof.
  split; [|split].
  - split; [vm_compute; reflexivity|]. split; [vm_compute; reflexivity|].
    split; [|vm_compute; reflexivity].
    exists (lit "sebi.gov.in"). split; [|left; vm_compute; reflexivity].
    unfold config.ALLOWED_DOMAINS. cbn [In]. tauto.
  - split; [vm_compute; reflexivity|]. split; [vm_compute; reflexivity|].
    split; [|vm_compute; reflexivity].
    intros (d & Hin & Hd). apply domain_allowed_spec in Hd.
    unfold config.ALLOWED_DOMAINS in Hin. cbn [In] in Hin.
    destruct Hin as [<-|[<-|[<-|[<-|[]]]]]; vm_compute in Hd; discriminate Hd.
  - intros urlparse_netloc url netloc Hn Hplain.
    rewrite (host_of_netloc_plain _ Hplain), validate_url_allowed_netloc.
    split.
    + intros (n & Hn' & H). rewrite Hn in Hn'. injection Hn' as <-. exact H.
    + intros H. exists netloc. split; [exact Hn|exact H].
Qed.

(* ================================================================== *)
(** * scraper/nippon_scraper.py: the first match decides the AUM        *)
(* ================================================================== *)

Section AumFirstMatch.

Import Re DataValidator NipponScraper.












End AumFirstMatch.


